(** * usb-video: the realtime audio pipeline of the native library

    A shallow embedding of [RingBuffer.h] and of the lifecycle, sizing and
    callback code of [UsbAudioStreamer.cpp], followed by the properties
    checked against it.

    Conventions.
    - Unsigned C++ integers are [Z] values reduced modulo their width at the
      places where the source computes in that type ([u8], [u16], [u32],
      [u64]); a conversion to [int] is [i32].  Arithmetic carried out in
      [int] is written exactly: signed overflow is undefined in C++.  The
      sizing of the transfer pool checks every [int] step ([int_result],
      [int_div]); elsewhere the theorems bound their inputs so that no
      overflow occurs.
    - Code that may not return (undefined behaviour, an exception that
      nothing catches) has an [option] result; [None] is "does not return".
    - A pointer to an array is an [option (list _)]; [None] is [nullptr].
      [memcpy] and [memset] overwrite a run of cells of the destination.
    - Calls into libusb and AAudio are answered by an environment record
      given to each operation; the calls an operation issues to the USB
      stack that matter to the properties are returned as a list. *)

From stdpp Require Import list.
From Stdlib Require Import ZArith Lia.

Local Open Scope Z_scope.

(** ** Machine integers *)

Definition u8 (z : Z) : Z := z mod 2 ^ 8.
Definition u16 (z : Z) : Z := z mod 2 ^ 16.
Definition u32 (z : Z) : Z := z mod 2 ^ 32.
Definition u64 (z : Z) : Z := z mod 2 ^ 64.
Definition i32 (z : Z) : Z := (z + 2 ^ 31) mod 2 ^ 32 - 2 ^ 31.

(** [memcpy(&dst[off], src, n * sizeof(T))] *)
Definition memcpy {T} (dst : list T) (off : Z) (src : list T) (n : Z) : list T :=
  list_inserts (Z.to_nat off) (take (Z.to_nat n) src) dst.

(** [memset(dst, 0, n)] on a block of bytes.  [memset] writes [n] bytes
    whatever the block holds: when [n] exceeds the block, the result shows
    the bytes written past its end. *)
Definition memset0 (dst : list Z) (n : Z) : list Z :=
  replicate (Z.to_nat n) 0 ++ drop (Z.to_nat n) dst.

(** The result of an operation on [int]: a value outside the range of
    [int] is signed overflow, for which the language defines no behaviour
    ([None]). *)
Definition int_result (z : Z) : option Z :=
  if (- 2 ^ 31 <=? z) && (z <? 2 ^ 31) then Some z else None.

(** [a / b] on [int]: truncation towards zero, undefined for [b = 0]. *)
Definition int_div (a b : Z) : option Z :=
  if b =? 0 then None else int_result (a ÷ b).

(** ** RingBuffer.h *)

Module RingBuffer.
Section RingBuffer.
Context {T : Type} (zero : T).

Record t := mk {
  capacity_ : Z;        (* int *)
  readPos_ : Z;         (* uint32_t *)
  writePos_ : Z;        (* uint32_t *)
  buffer_ : list T
}.

(** The constructor: cursors at 0, storage zeroed by [memset]. *)
Definition make (capacity : Z) : t :=
  {| capacity_ := capacity; readPos_ := 0; writePos_ := 0;
     buffer_ := replicate (Z.to_nat capacity) zero |}.

Definition capacity (rb : t) : Z := capacity_ rb.

(** [(writePos_ + capacity_ - readPos_) % capacity_], computed in
    [uint32_t] and returned as [size_t]. *)
Definition size (rb : t) : Z :=
  u32 (writePos_ rb + capacity_ rb - readPos_ rb) mod u32 (capacity_ rb).

Definition write (rb : t) (data : option (list T)) (len : Z) : Z * t :=
  match data with
  | None => (0, rb)
  | Some data =>
    if len <=? 0 then (0, rb) else
    let '(data, len) :=
      if len >? capacity_ rb
      then (drop (Z.to_nat (len - capacity_ rb)) data, capacity_ rb)
      else (data, len) in
    let size := i32 (size rb) in
    let start := i32 (writePos_ rb) in
    let end_ := i32 (u32 (writePos_ rb + len) mod u32 (capacity_ rb)) in
    let buffer' :=
      if start <? end_ then memcpy (buffer_ rb) start data len
      else
        let first_slice := capacity_ rb - start in
        memcpy (memcpy (buffer_ rb) start data first_slice)
               0 (drop (Z.to_nat first_slice) data) (len - first_slice) in
    let readPos' :=
      if size + len >? capacity_ rb
      then u32 (readPos_ rb + size + len) mod u32 (capacity_ rb)
      else readPos_ rb in
    (len, {| capacity_ := capacity_ rb; readPos_ := readPos';
             writePos_ := u32 end_; buffer_ := buffer' |})
  end.

(** [read] returns the count, the buffer and the caller's array after the
    copy. *)
Definition read (rb : t) (data : option (list T)) (len : Z)
  : Z * t * option (list T) :=
  let available := i32 (size rb) in
  match data with
  | None => (0, rb, None)
  | Some data =>
    if (available =? 0) || (len <=? 0) then (0, rb, Some data) else
    let to_copy := Z.min len available in
    let start := i32 (readPos_ rb) in
    let end_ := i32 (u32 (readPos_ rb + to_copy) mod u32 (capacity_ rb)) in
    let data' :=
      if start <? end_ then memcpy data 0 (drop (Z.to_nat start) (buffer_ rb)) to_copy
      else
        let first_slice := capacity_ rb - start in
        memcpy (memcpy data 0 (drop (Z.to_nat start) (buffer_ rb)) first_slice)
               first_slice (buffer_ rb) (to_copy - first_slice) in
    (to_copy,
     {| capacity_ := capacity_ rb;
        readPos_ := u32 (readPos_ rb + to_copy) mod u32 (capacity_ rb);
        writePos_ := writePos_ rb; buffer_ := buffer_ rb |},
     Some data')
  end.

End RingBuffer.
Arguments t : clear implicits.
End RingBuffer.

(** ** UsbAudioStreamer.h / UsbAudioStreamer.cpp *)

Module UsbAudioStreamer.

Inductive StreamerState :=
  | INITIAL | READY_TO_START | STARTING | STARTED | STOPPING | STOPPED
  | DESTROYING | DESTROYED | ERROR.

#[global] Instance StreamerState_eq_dec : EqDecision StreamerState.
Proof. solve_decision. Defined.

(** *** The vocabulary of libusb and AAudio used by the streamer *)

Inductive libusb_error :=
  | LIBUSB_SUCCESS | LIBUSB_ERROR_NO_DEVICE | LIBUSB_ERROR_OTHER (code : Z).

Inductive libusb_transfer_status :=
  | LIBUSB_TRANSFER_COMPLETED | LIBUSB_TRANSFER_ERROR | LIBUSB_TRANSFER_TIMED_OUT
  | LIBUSB_TRANSFER_CANCELLED | LIBUSB_TRANSFER_STALL | LIBUSB_TRANSFER_NO_DEVICE
  | LIBUSB_TRANSFER_OVERFLOW.

Inductive aaudio_result := AAUDIO_OK | AAUDIO_ERROR (code : Z).

Inductive aaudio_stream_state :=
  | AAUDIO_STREAM_STATE_UNINITIALIZED | AAUDIO_STREAM_STATE_STARTING
  | AAUDIO_STREAM_STATE_STARTED | AAUDIO_STREAM_STATE_STOPPING
  | AAUDIO_STREAM_STATE_STOPPED | AAUDIO_STREAM_STATE_OTHER (code : Z).

Inductive aaudio_data_callback_result :=
  | AAUDIO_CALLBACK_RESULT_CONTINUE | AAUDIO_CALLBACK_RESULT_STOP.

#[global] Instance libusb_error_eq_dec : EqDecision libusb_error.
Proof. solve_decision. Defined.
#[global] Instance libusb_transfer_status_eq_dec : EqDecision libusb_transfer_status.
Proof. solve_decision. Defined.
#[global] Instance aaudio_result_eq_dec : EqDecision aaudio_result.
Proof. solve_decision. Defined.
#[global] Instance aaudio_stream_state_eq_dec : EqDecision aaudio_stream_state.
Proof. solve_decision. Defined.

(** Constants of libusb.h (USB class code and direction bit). *)
Definition LIBUSB_CLASS_AUDIO : Z := 1.
Definition LIBUSB_ENDPOINT_IN : Z := 128.
Definition kInterfaceSubClassStreaming : Z := 2.
Definition kIsochronousTransferTimeoutMillis : Z := 500.

(** Ticks of [steady_clock] per second (nanosecond resolution). *)
Definition ticks_per_second : Z := 1000000000.
Definition duration_cast_seconds (d : Z) : Z := d ÷ ticks_per_second.

Record libusb_endpoint_descriptor := {
  bEndpointAddress : Z;
  wMaxPacketSize : Z
}.

Record libusb_interface_descriptor := {
  bInterfaceNumber : Z;
  bAlternateSetting : Z;
  bInterfaceClass : Z;
  bInterfaceSubClass : Z;
  endpoint : list libusb_endpoint_descriptor
}.

Definition bNumEndpoints (d : libusb_interface_descriptor) : Z :=
  Z.of_nat (length (endpoint d)).

Record libusb_interface := { altsetting : list libusb_interface_descriptor }.

Record libusb_config_descriptor := { interface : list libusb_interface }.

(** One isochronous packet of a completed transfer; [packet_buffer] is the
    packet's memory seen as [uint16_t] samples. *)
Record libusb_iso_packet_descriptor := {
  pk_status : libusb_transfer_status;
  actual_length : Z;
  packet_buffer : list Z
}.

(** A transfer as the completion callback receives it; [user_data] is the
    slot of [transfers_] the transfer belongs to. *)
Record libusb_transfer := {
  status : libusb_transfer_status;
  user_data : option nat;
  iso_packet_desc : list libusb_iso_packet_descriptor
}.

Definition num_iso_packets (tr : libusb_transfer) : Z :=
  Z.of_nat (length (iso_packet_desc tr)).

(** What [libusb_fill_iso_transfer] and [libusb_set_iso_packet_lengths]
    record in an allocated transfer. *)
Record libusb_transfer_request := {
  tr_endpoint : Z;
  tr_length : Z;
  tr_num_iso_packets : Z;
  tr_timeout : Z;
  tr_packet_length : Z
}.

(** Calls into the USB stack and the wake-up of the control thread. *)
Inductive Call :=
  | SubmitTransfer (slot : nat)
  | NotifyStateChange.

(** *** The streamer's data *)

Record UsbAudioStreamerStats := {
  total_bytes : Z;                 (* uint32_t *)
  usb_cb_counter : Z;              (* uint16_t *)
  player_cb_counter : Z;           (* uint16_t *)
  event_loops : Z;                 (* uint16_t *)
  t0_10_s : Z;
  samplingFrequency : Z;           (* uint32_t *)
  currentSamplingFrequency : Z;    (* uint32_t *)
  t0_1_s : Z
}.

Record TransferUserData := {
  transfer : libusb_transfer_request;
  isSubmitted : bool
}.

Definition set_isSubmitted (b : bool) (d : TransferUserData) : TransferUserData :=
  {| transfer := transfer d; isSubmitted := b |}.

(** [context_] is the one member without an initialiser: it holds an
    indeterminate value until [libusb_init] stores a context in it, and
    the code never resets it. *)
Inductive context_value :=
  | ContextIndeterminate
  | ContextValid.

Record t := {
  context_ : context_value;
  deviceHandle_ : bool;            (* pointers: true when valid *)
  config_ : option libusb_config_descriptor;
  transfers_ : list TransferUserData;
  endpointAddress_ : Z;            (* uint8_t *)
  maxPacketSize_ : Z;              (* uint16_t *)
  detachedInterface_ : Z;
  claimedInterface_ : Z;
  jAudioFormat_ : Z;
  samplingFrequency_ : Z;
  subFrameSize_ : Z;               (* uint8_t *)
  channelCount_ : Z;               (* uint8_t *)
  framesPerBurst_ : Z;             (* int32_t *)
  bufferCapacityInFrames_ : Z;     (* int32_t *)
  ringBuffer_ : RingBuffer.t Z;
  state_ : StreamerState;
  stopUsbAudioCapture_ : Z;
  audioStreamBuilder_ : bool;
  audioStream_ : bool;
  streamerStats_ : UsbAudioStreamerStats;
  callbackErrorLoggedAt_ : Z
}.

Definition set_context (v : context_value) (s : t) : t :=
  {| context_ := v; deviceHandle_ := deviceHandle_ s; config_ := config_ s;
    transfers_ := transfers_ s; endpointAddress_ := endpointAddress_ s;
    maxPacketSize_ := maxPacketSize_ s; detachedInterface_ := detachedInterface_ s;
    claimedInterface_ := claimedInterface_ s; jAudioFormat_ := jAudioFormat_ s;
    samplingFrequency_ := samplingFrequency_ s; subFrameSize_ := subFrameSize_ s;
    channelCount_ := channelCount_ s; framesPerBurst_ := framesPerBurst_ s;
    bufferCapacityInFrames_ := bufferCapacityInFrames_ s; ringBuffer_ := ringBuffer_ s;
    state_ := state_ s; stopUsbAudioCapture_ := stopUsbAudioCapture_ s;
    audioStreamBuilder_ := audioStreamBuilder_ s; audioStream_ := audioStream_ s;
    streamerStats_ := streamerStats_ s; callbackErrorLoggedAt_ := callbackErrorLoggedAt_ s |}.

Definition set_deviceHandle (v : bool) (s : t) : t :=
  {| context_ := context_ s; deviceHandle_ := v; config_ := config_ s;
    transfers_ := transfers_ s; endpointAddress_ := endpointAddress_ s;
    maxPacketSize_ := maxPacketSize_ s; detachedInterface_ := detachedInterface_ s;
    claimedInterface_ := claimedInterface_ s; jAudioFormat_ := jAudioFormat_ s;
    samplingFrequency_ := samplingFrequency_ s; subFrameSize_ := subFrameSize_ s;
    channelCount_ := channelCount_ s; framesPerBurst_ := framesPerBurst_ s;
    bufferCapacityInFrames_ := bufferCapacityInFrames_ s; ringBuffer_ := ringBuffer_ s;
    state_ := state_ s; stopUsbAudioCapture_ := stopUsbAudioCapture_ s;
    audioStreamBuilder_ := audioStreamBuilder_ s; audioStream_ := audioStream_ s;
    streamerStats_ := streamerStats_ s; callbackErrorLoggedAt_ := callbackErrorLoggedAt_ s |}.

Definition set_config (v : option libusb_config_descriptor) (s : t) : t :=
  {| context_ := context_ s; deviceHandle_ := deviceHandle_ s; config_ := v;
    transfers_ := transfers_ s; endpointAddress_ := endpointAddress_ s;
    maxPacketSize_ := maxPacketSize_ s; detachedInterface_ := detachedInterface_ s;
    claimedInterface_ := claimedInterface_ s; jAudioFormat_ := jAudioFormat_ s;
    samplingFrequency_ := samplingFrequency_ s; subFrameSize_ := subFrameSize_ s;
    channelCount_ := channelCount_ s; framesPerBurst_ := framesPerBurst_ s;
    bufferCapacityInFrames_ := bufferCapacityInFrames_ s; ringBuffer_ := ringBuffer_ s;
    state_ := state_ s; stopUsbAudioCapture_ := stopUsbAudioCapture_ s;
    audioStreamBuilder_ := audioStreamBuilder_ s; audioStream_ := audioStream_ s;
    streamerStats_ := streamerStats_ s; callbackErrorLoggedAt_ := callbackErrorLoggedAt_ s |}.

Definition set_transfers (v : list TransferUserData) (s : t) : t :=
  {| context_ := context_ s; deviceHandle_ := deviceHandle_ s; config_ := config_ s;
    transfers_ := v; endpointAddress_ := endpointAddress_ s;
    maxPacketSize_ := maxPacketSize_ s; detachedInterface_ := detachedInterface_ s;
    claimedInterface_ := claimedInterface_ s; jAudioFormat_ := jAudioFormat_ s;
    samplingFrequency_ := samplingFrequency_ s; subFrameSize_ := subFrameSize_ s;
    channelCount_ := channelCount_ s; framesPerBurst_ := framesPerBurst_ s;
    bufferCapacityInFrames_ := bufferCapacityInFrames_ s; ringBuffer_ := ringBuffer_ s;
    state_ := state_ s; stopUsbAudioCapture_ := stopUsbAudioCapture_ s;
    audioStreamBuilder_ := audioStreamBuilder_ s; audioStream_ := audioStream_ s;
    streamerStats_ := streamerStats_ s; callbackErrorLoggedAt_ := callbackErrorLoggedAt_ s |}.

Definition set_endpointAddress (v : Z) (s : t) : t :=
  {| context_ := context_ s; deviceHandle_ := deviceHandle_ s; config_ := config_ s;
    transfers_ := transfers_ s; endpointAddress_ := v; maxPacketSize_ := maxPacketSize_ s;
    detachedInterface_ := detachedInterface_ s; claimedInterface_ := claimedInterface_ s;
    jAudioFormat_ := jAudioFormat_ s; samplingFrequency_ := samplingFrequency_ s;
    subFrameSize_ := subFrameSize_ s; channelCount_ := channelCount_ s;
    framesPerBurst_ := framesPerBurst_ s;
    bufferCapacityInFrames_ := bufferCapacityInFrames_ s; ringBuffer_ := ringBuffer_ s;
    state_ := state_ s; stopUsbAudioCapture_ := stopUsbAudioCapture_ s;
    audioStreamBuilder_ := audioStreamBuilder_ s; audioStream_ := audioStream_ s;
    streamerStats_ := streamerStats_ s; callbackErrorLoggedAt_ := callbackErrorLoggedAt_ s |}.

Definition set_maxPacketSize (v : Z) (s : t) : t :=
  {| context_ := context_ s; deviceHandle_ := deviceHandle_ s; config_ := config_ s;
    transfers_ := transfers_ s; endpointAddress_ := endpointAddress_ s;
    maxPacketSize_ := v; detachedInterface_ := detachedInterface_ s;
    claimedInterface_ := claimedInterface_ s; jAudioFormat_ := jAudioFormat_ s;
    samplingFrequency_ := samplingFrequency_ s; subFrameSize_ := subFrameSize_ s;
    channelCount_ := channelCount_ s; framesPerBurst_ := framesPerBurst_ s;
    bufferCapacityInFrames_ := bufferCapacityInFrames_ s; ringBuffer_ := ringBuffer_ s;
    state_ := state_ s; stopUsbAudioCapture_ := stopUsbAudioCapture_ s;
    audioStreamBuilder_ := audioStreamBuilder_ s; audioStream_ := audioStream_ s;
    streamerStats_ := streamerStats_ s; callbackErrorLoggedAt_ := callbackErrorLoggedAt_ s |}.

Definition set_detachedInterface (v : Z) (s : t) : t :=
  {| context_ := context_ s; deviceHandle_ := deviceHandle_ s; config_ := config_ s;
    transfers_ := transfers_ s; endpointAddress_ := endpointAddress_ s;
    maxPacketSize_ := maxPacketSize_ s; detachedInterface_ := v;
    claimedInterface_ := claimedInterface_ s; jAudioFormat_ := jAudioFormat_ s;
    samplingFrequency_ := samplingFrequency_ s; subFrameSize_ := subFrameSize_ s;
    channelCount_ := channelCount_ s; framesPerBurst_ := framesPerBurst_ s;
    bufferCapacityInFrames_ := bufferCapacityInFrames_ s; ringBuffer_ := ringBuffer_ s;
    state_ := state_ s; stopUsbAudioCapture_ := stopUsbAudioCapture_ s;
    audioStreamBuilder_ := audioStreamBuilder_ s; audioStream_ := audioStream_ s;
    streamerStats_ := streamerStats_ s; callbackErrorLoggedAt_ := callbackErrorLoggedAt_ s |}.

Definition set_claimedInterface (v : Z) (s : t) : t :=
  {| context_ := context_ s; deviceHandle_ := deviceHandle_ s; config_ := config_ s;
    transfers_ := transfers_ s; endpointAddress_ := endpointAddress_ s;
    maxPacketSize_ := maxPacketSize_ s; detachedInterface_ := detachedInterface_ s;
    claimedInterface_ := v; jAudioFormat_ := jAudioFormat_ s;
    samplingFrequency_ := samplingFrequency_ s; subFrameSize_ := subFrameSize_ s;
    channelCount_ := channelCount_ s; framesPerBurst_ := framesPerBurst_ s;
    bufferCapacityInFrames_ := bufferCapacityInFrames_ s; ringBuffer_ := ringBuffer_ s;
    state_ := state_ s; stopUsbAudioCapture_ := stopUsbAudioCapture_ s;
    audioStreamBuilder_ := audioStreamBuilder_ s; audioStream_ := audioStream_ s;
    streamerStats_ := streamerStats_ s; callbackErrorLoggedAt_ := callbackErrorLoggedAt_ s |}.

Definition set_framesPerBurst (v : Z) (s : t) : t :=
  {| context_ := context_ s; deviceHandle_ := deviceHandle_ s; config_ := config_ s;
    transfers_ := transfers_ s; endpointAddress_ := endpointAddress_ s;
    maxPacketSize_ := maxPacketSize_ s; detachedInterface_ := detachedInterface_ s;
    claimedInterface_ := claimedInterface_ s; jAudioFormat_ := jAudioFormat_ s;
    samplingFrequency_ := samplingFrequency_ s; subFrameSize_ := subFrameSize_ s;
    channelCount_ := channelCount_ s; framesPerBurst_ := v;
    bufferCapacityInFrames_ := bufferCapacityInFrames_ s; ringBuffer_ := ringBuffer_ s;
    state_ := state_ s; stopUsbAudioCapture_ := stopUsbAudioCapture_ s;
    audioStreamBuilder_ := audioStreamBuilder_ s; audioStream_ := audioStream_ s;
    streamerStats_ := streamerStats_ s; callbackErrorLoggedAt_ := callbackErrorLoggedAt_ s |}.

Definition set_bufferCapacityInFrames (v : Z) (s : t) : t :=
  {| context_ := context_ s; deviceHandle_ := deviceHandle_ s; config_ := config_ s;
    transfers_ := transfers_ s; endpointAddress_ := endpointAddress_ s;
    maxPacketSize_ := maxPacketSize_ s; detachedInterface_ := detachedInterface_ s;
    claimedInterface_ := claimedInterface_ s; jAudioFormat_ := jAudioFormat_ s;
    samplingFrequency_ := samplingFrequency_ s; subFrameSize_ := subFrameSize_ s;
    channelCount_ := channelCount_ s; framesPerBurst_ := framesPerBurst_ s;
    bufferCapacityInFrames_ := v; ringBuffer_ := ringBuffer_ s; state_ := state_ s;
    stopUsbAudioCapture_ := stopUsbAudioCapture_ s;
    audioStreamBuilder_ := audioStreamBuilder_ s; audioStream_ := audioStream_ s;
    streamerStats_ := streamerStats_ s; callbackErrorLoggedAt_ := callbackErrorLoggedAt_ s |}.

Definition set_ringBuffer (v : RingBuffer.t Z) (s : t) : t :=
  {| context_ := context_ s; deviceHandle_ := deviceHandle_ s; config_ := config_ s;
    transfers_ := transfers_ s; endpointAddress_ := endpointAddress_ s;
    maxPacketSize_ := maxPacketSize_ s; detachedInterface_ := detachedInterface_ s;
    claimedInterface_ := claimedInterface_ s; jAudioFormat_ := jAudioFormat_ s;
    samplingFrequency_ := samplingFrequency_ s; subFrameSize_ := subFrameSize_ s;
    channelCount_ := channelCount_ s; framesPerBurst_ := framesPerBurst_ s;
    bufferCapacityInFrames_ := bufferCapacityInFrames_ s; ringBuffer_ := v;
    state_ := state_ s; stopUsbAudioCapture_ := stopUsbAudioCapture_ s;
    audioStreamBuilder_ := audioStreamBuilder_ s; audioStream_ := audioStream_ s;
    streamerStats_ := streamerStats_ s; callbackErrorLoggedAt_ := callbackErrorLoggedAt_ s |}.

Definition set_state (v : StreamerState) (s : t) : t :=
  {| context_ := context_ s; deviceHandle_ := deviceHandle_ s; config_ := config_ s;
    transfers_ := transfers_ s; endpointAddress_ := endpointAddress_ s;
    maxPacketSize_ := maxPacketSize_ s; detachedInterface_ := detachedInterface_ s;
    claimedInterface_ := claimedInterface_ s; jAudioFormat_ := jAudioFormat_ s;
    samplingFrequency_ := samplingFrequency_ s; subFrameSize_ := subFrameSize_ s;
    channelCount_ := channelCount_ s; framesPerBurst_ := framesPerBurst_ s;
    bufferCapacityInFrames_ := bufferCapacityInFrames_ s; ringBuffer_ := ringBuffer_ s;
    state_ := v; stopUsbAudioCapture_ := stopUsbAudioCapture_ s;
    audioStreamBuilder_ := audioStreamBuilder_ s; audioStream_ := audioStream_ s;
    streamerStats_ := streamerStats_ s; callbackErrorLoggedAt_ := callbackErrorLoggedAt_ s |}.

Definition set_stopUsbAudioCapture (v : Z) (s : t) : t :=
  {| context_ := context_ s; deviceHandle_ := deviceHandle_ s; config_ := config_ s;
    transfers_ := transfers_ s; endpointAddress_ := endpointAddress_ s;
    maxPacketSize_ := maxPacketSize_ s; detachedInterface_ := detachedInterface_ s;
    claimedInterface_ := claimedInterface_ s; jAudioFormat_ := jAudioFormat_ s;
    samplingFrequency_ := samplingFrequency_ s; subFrameSize_ := subFrameSize_ s;
    channelCount_ := channelCount_ s; framesPerBurst_ := framesPerBurst_ s;
    bufferCapacityInFrames_ := bufferCapacityInFrames_ s; ringBuffer_ := ringBuffer_ s;
    state_ := state_ s; stopUsbAudioCapture_ := v;
    audioStreamBuilder_ := audioStreamBuilder_ s; audioStream_ := audioStream_ s;
    streamerStats_ := streamerStats_ s; callbackErrorLoggedAt_ := callbackErrorLoggedAt_ s |}.

Definition set_audioStreamBuilder (v : bool) (s : t) : t :=
  {| context_ := context_ s; deviceHandle_ := deviceHandle_ s; config_ := config_ s;
    transfers_ := transfers_ s; endpointAddress_ := endpointAddress_ s;
    maxPacketSize_ := maxPacketSize_ s; detachedInterface_ := detachedInterface_ s;
    claimedInterface_ := claimedInterface_ s; jAudioFormat_ := jAudioFormat_ s;
    samplingFrequency_ := samplingFrequency_ s; subFrameSize_ := subFrameSize_ s;
    channelCount_ := channelCount_ s; framesPerBurst_ := framesPerBurst_ s;
    bufferCapacityInFrames_ := bufferCapacityInFrames_ s; ringBuffer_ := ringBuffer_ s;
    state_ := state_ s; stopUsbAudioCapture_ := stopUsbAudioCapture_ s;
    audioStreamBuilder_ := v; audioStream_ := audioStream_ s;
    streamerStats_ := streamerStats_ s; callbackErrorLoggedAt_ := callbackErrorLoggedAt_ s |}.

Definition set_audioStream (v : bool) (s : t) : t :=
  {| context_ := context_ s; deviceHandle_ := deviceHandle_ s; config_ := config_ s;
    transfers_ := transfers_ s; endpointAddress_ := endpointAddress_ s;
    maxPacketSize_ := maxPacketSize_ s; detachedInterface_ := detachedInterface_ s;
    claimedInterface_ := claimedInterface_ s; jAudioFormat_ := jAudioFormat_ s;
    samplingFrequency_ := samplingFrequency_ s; subFrameSize_ := subFrameSize_ s;
    channelCount_ := channelCount_ s; framesPerBurst_ := framesPerBurst_ s;
    bufferCapacityInFrames_ := bufferCapacityInFrames_ s; ringBuffer_ := ringBuffer_ s;
    state_ := state_ s; stopUsbAudioCapture_ := stopUsbAudioCapture_ s;
    audioStreamBuilder_ := audioStreamBuilder_ s; audioStream_ := v;
    streamerStats_ := streamerStats_ s; callbackErrorLoggedAt_ := callbackErrorLoggedAt_ s |}.

Definition set_streamerStats (v : UsbAudioStreamerStats) (s : t) : t :=
  {| context_ := context_ s; deviceHandle_ := deviceHandle_ s; config_ := config_ s;
    transfers_ := transfers_ s; endpointAddress_ := endpointAddress_ s;
    maxPacketSize_ := maxPacketSize_ s; detachedInterface_ := detachedInterface_ s;
    claimedInterface_ := claimedInterface_ s; jAudioFormat_ := jAudioFormat_ s;
    samplingFrequency_ := samplingFrequency_ s; subFrameSize_ := subFrameSize_ s;
    channelCount_ := channelCount_ s; framesPerBurst_ := framesPerBurst_ s;
    bufferCapacityInFrames_ := bufferCapacityInFrames_ s; ringBuffer_ := ringBuffer_ s;
    state_ := state_ s; stopUsbAudioCapture_ := stopUsbAudioCapture_ s;
    audioStreamBuilder_ := audioStreamBuilder_ s; audioStream_ := audioStream_ s;
    streamerStats_ := v; callbackErrorLoggedAt_ := callbackErrorLoggedAt_ s |}.

Definition set_callbackErrorLoggedAt (v : Z) (s : t) : t :=
  {| context_ := context_ s; deviceHandle_ := deviceHandle_ s; config_ := config_ s;
    transfers_ := transfers_ s; endpointAddress_ := endpointAddress_ s;
    maxPacketSize_ := maxPacketSize_ s; detachedInterface_ := detachedInterface_ s;
    claimedInterface_ := claimedInterface_ s; jAudioFormat_ := jAudioFormat_ s;
    samplingFrequency_ := samplingFrequency_ s; subFrameSize_ := subFrameSize_ s;
    channelCount_ := channelCount_ s; framesPerBurst_ := framesPerBurst_ s;
    bufferCapacityInFrames_ := bufferCapacityInFrames_ s; ringBuffer_ := ringBuffer_ s;
    state_ := state_ s; stopUsbAudioCapture_ := stopUsbAudioCapture_ s;
    audioStreamBuilder_ := audioStreamBuilder_ s; audioStream_ := audioStream_ s;
    streamerStats_ := streamerStats_ s; callbackErrorLoggedAt_ := v |}.

Definition set_stats_of (f : UsbAudioStreamerStats -> UsbAudioStreamerStats) (s : t) : t :=
  set_streamerStats (f (streamerStats_ s)) s.

(** [std::count_if] *)
Definition count_if {A} (p : A -> bool) (l : list A) : Z :=
  Z.of_nat (length (List.filter p l)).

Definition bytesInAudioFrames (s : t) (numFrames : Z) : Z :=
  u32 (numFrames * channelCount_ s * subFrameSize_ s).

Definition hasActiveTransfers (s : t) : bool :=
  count_if isSubmitted (transfers_ s) >? 0.

Definition samplesFromByteCount (s : t) (byteCount : Z) : Z :=
  byteCount / channelCount_ s / subFrameSize_ s.

Definition isPlaying (s : t) : bool := bool_decide (state_ s = STARTED).

(** *** resolveAudioInterface *)

Record UsbEnv := {
  kernel_driver_active : Z -> Z;
  detach_kernel_driver : Z -> libusb_error;
  claim_interface : Z -> libusb_error;
  set_interface_alt_setting : Z -> Z -> libusb_error
}.

(** The body run for the first IN endpoint of a streaming interface; every
    path through it returns from [resolveAudioInterface]. *)
Definition claim_endpoint (usb : UsbEnv) (i : Z)
    (interfaceDescriptor : libusb_interface_descriptor)
    (ep : libusb_endpoint_descriptor) (s : t) : bool * t :=
  let interface_number := bInterfaceNumber interfaceDescriptor in
  let s := set_endpointAddress (bEndpointAddress ep) s in
  let s := set_maxPacketSize (wMaxPacketSize ep) s in
  let detach :=
    if kernel_driver_active usb interface_number =? 1
    then Some (detach_kernel_driver usb (bInterfaceNumber interfaceDescriptor))
    else None in
  match detach with
  | Some (LIBUSB_ERROR_NO_DEVICE | LIBUSB_ERROR_OTHER _) => (false, s)
  | _ =>
    let s := match detach with
             | Some _ => set_detachedInterface interface_number s
             | None => s
             end in
    if bool_decide (claim_interface usb interface_number <> LIBUSB_SUCCESS)
    then (false, s)
    else
      let s := set_claimedInterface i s in
      if bool_decide (set_interface_alt_setting usb
                        (bInterfaceNumber interfaceDescriptor)
                        (bAlternateSetting interfaceDescriptor) <> LIBUSB_SUCCESS)
      then (false, s)
      else (true, s)
  end.

(** The three nested loops; [None] means the loop ran to its end. *)
Fixpoint resolve_endpoints (usb : UsbEnv) (i : Z)
    (interfaceDescriptor : libusb_interface_descriptor)
    (eps : list libusb_endpoint_descriptor) (s : t) : option (bool * t) :=
  match eps with
  | [] => None
  | ep :: eps =>
    if negb (Z.land (bEndpointAddress ep) LIBUSB_ENDPOINT_IN =? 0)
    then Some (claim_endpoint usb i interfaceDescriptor ep s)
    else resolve_endpoints usb i interfaceDescriptor eps s
  end.

Fixpoint resolve_altsettings (usb : UsbEnv) (i : Z)
    (alts : list libusb_interface_descriptor) (s : t) : option (bool * t) :=
  match alts with
  | [] => None
  | interfaceDescriptor :: alts =>
    if (bInterfaceClass interfaceDescriptor =? LIBUSB_CLASS_AUDIO)
       && (bInterfaceSubClass interfaceDescriptor =? kInterfaceSubClassStreaming)
       && (bNumEndpoints interfaceDescriptor >? 0)
    then match resolve_endpoints usb i interfaceDescriptor
                 (endpoint interfaceDescriptor) s with
         | Some r => Some r
         | None => resolve_altsettings usb i alts s
         end
    else resolve_altsettings usb i alts s
  end.

Fixpoint resolve_interfaces (usb : UsbEnv) (i : Z)
    (ifs : list libusb_interface) (s : t) : option (bool * t) :=
  match ifs with
  | [] => None
  | itf :: ifs =>
    match resolve_altsettings usb i (altsetting itf) s with
    | Some r => Some r
    | None => resolve_interfaces usb (i + 1) ifs s
    end
  end.

Definition resolveAudioInterface (usb : UsbEnv) (s : t) : bool * t :=
  match config_ s with
  | None => (false, s)
  | Some config =>
    match resolve_interfaces usb 0 (interface config) s with
    | Some r => r
    | None => (false, s)
    end
  end.

(** *** allocateTransferRequests *)

Record AudioStreamEnv := {
  getFramesPerBurst : Z;
  getBufferCapacityInFrames : Z
}.

Record TransferSizing := {
  bytes_per_burst : Z;
  num_packets : Z;
  buffer_size : Z;
  num_transfers : Z;
  ring_buffer_capacity : Z
}.

(** The arithmetic at the head of [allocateTransferRequests].  Every
    operand is promoted to [int], so each step is an [int] operation:
    the result is [None] when a step overflows or divides by zero.  The
    quotient that sizes the ring is converted to [size_t]. *)
Definition transfer_sizing (maxPacketSize framesPerBurst bufferCapacityInFrames
                            subFrameSize channelCount : Z)
  : option TransferSizing :=
  frame_bytes ← int_result (framesPerBurst * subFrameSize);
  bytes_per_burst ← int_result (frame_bytes * channelCount);
  padded ← int_result (bytes_per_burst + maxPacketSize);
  padded ← int_result (padded - 1);
  computed_num_packets ← int_div padded maxPacketSize;
  let num_packets := Z.max 2 computed_num_packets in
  buffer_size ← int_result (maxPacketSize * num_packets);
  padded_frames ← int_result (bufferCapacityInFrames + framesPerBurst);
  padded_frames ← int_result (padded_frames - 1);
  computed_num_transfers ← int_div padded_frames framesPerBurst;
  let num_transfers := Z.max 2 computed_num_transfers in
  pool_bytes ← int_result (buffer_size * num_transfers);
  capacity ← int_div pool_bytes subFrameSize;
  Some {| bytes_per_burst := bytes_per_burst;
          num_packets := num_packets;
          buffer_size := buffer_size;
          num_transfers := num_transfers;
          ring_buffer_capacity := u64 capacity |}.

(** The allocation loop: [alloc i] tells whether [libusb_alloc_transfer]
    returned a transfer at index [i]. *)
Fixpoint allocate_loop (alloc : nat -> bool) (req : libusb_transfer_request)
    (i n : nat) (transfers : list TransferUserData) : list TransferUserData :=
  match n with
  | O => transfers
  | S n =>
    if alloc i
    then allocate_loop alloc req (S i) n
           (transfers ++ [{| transfer := req; isSubmitted := false |}])
    else allocate_loop alloc req (S i) n transfers
  end.

(** [None] stands for a call that does not return: the sizing is
    undefined, or [new T[capacity_]] in the ring buffer's constructor
    throws [std::bad_array_new_length] for a negative length. *)
Definition allocateTransferRequests (audio : AudioStreamEnv) (alloc : nat -> bool)
    (s : t) : option t :=
  let s := set_framesPerBurst (getFramesPerBurst audio) s in
  let s := set_bufferCapacityInFrames (getBufferCapacityInFrames audio) s in
  z ← transfer_sizing (maxPacketSize_ s) (framesPerBurst_ s)
        (bufferCapacityInFrames_ s) (subFrameSize_ s) (channelCount_ s);
  s ← (if negb (u64 (RingBuffer.capacity (ringBuffer_ s)) =? ring_buffer_capacity z)
       then
         let capacity := i32 (ring_buffer_capacity z) in
         if capacity <? 0 then None
         else Some (set_ringBuffer (RingBuffer.make 0 capacity) s)
       else Some s);
  let req := {| tr_endpoint := u8 (endpointAddress_ s);
                tr_length := buffer_size z;
                tr_num_iso_packets := num_packets z;
                tr_timeout := kIsochronousTransferTimeoutMillis;
                tr_packet_length := maxPacketSize_ s |} in
  Some (set_transfers
          (allocate_loop alloc req 0 (Z.to_nat (num_transfers z)) (transfers_ s)) s).

(** *** The constructor *)

Record CtorEnv := {
  init_status : libusb_error;
  set_log_level_status : libusb_error;
  wrap_sys_device_status : libusb_error;
  get_active_config_status : libusb_error;
  active_config : libusb_config_descriptor;
  createStreamBuilder_result : aaudio_result;
  createStreamBuilder_non_null : bool;
  openStream_result : aaudio_result;
  audio_stream : AudioStreamEnv;
  usb : UsbEnv;
  alloc_transfer : nat -> bool;
  clock_now : Z
}.

(** The member initialisers and the constructor's initialiser list.
    [None] as the constructor's result stands for a construction that does
    not return an object: its behaviour is undefined or it throws. *)
Definition initial_members (now jAudioFormat samplingFrequency subFrameSize
                            channelCount framesPerBurst : Z) : t :=
  {| context_ := ContextIndeterminate; deviceHandle_ := false; config_ := None;
     transfers_ := [];
     endpointAddress_ := 0; maxPacketSize_ := 0;
     detachedInterface_ := -1; claimedInterface_ := -1;
     jAudioFormat_ := jAudioFormat; samplingFrequency_ := samplingFrequency;
     subFrameSize_ := subFrameSize; channelCount_ := channelCount;
     framesPerBurst_ := i32 framesPerBurst; bufferCapacityInFrames_ := 0;
     ringBuffer_ := RingBuffer.make 0 3072;
     state_ := INITIAL; stopUsbAudioCapture_ := 0;
     audioStreamBuilder_ := false; audioStream_ := false;
     streamerStats_ :=
       {| total_bytes := 0; usb_cb_counter := 0; player_cb_counter := 0;
          event_loops := 0; t0_10_s := 0; samplingFrequency := 0;
          currentSamplingFrequency := 0; t0_1_s := now |};
     callbackErrorLoggedAt_ := 0 |}.

Definition UsbAudioStreamer (env : CtorEnv)
    (jAudioFormat samplingFrequency subFrameSize channelCount jAudioPerfMode
     framesPerBurst : Z) : option t :=
  let s := initial_members (clock_now env) jAudioFormat samplingFrequency
             subFrameSize channelCount framesPerBurst in
  (* libusb_init: a failure is logged and construction goes on, but
     [context_] was not written: the [libusb_set_option (context_, ...)]
     that follows reads an indeterminate pointer *)
  if bool_decide (init_status env <> LIBUSB_SUCCESS) then None else
  let s := set_context ContextValid s in
  if bool_decide (set_log_level_status env <> LIBUSB_SUCCESS) then Some s else
  if bool_decide (wrap_sys_device_status env <> LIBUSB_SUCCESS) then Some s else
  let s := set_deviceHandle true s in
  if bool_decide (get_active_config_status env <> LIBUSB_SUCCESS) then Some s else
  let s := set_config (Some (active_config env)) s in
  let s := set_audioStreamBuilder (createStreamBuilder_non_null env) s in
  if bool_decide (createStreamBuilder_result env = AAUDIO_OK)
     && audioStreamBuilder_ s
  then
    (* AAudioStreamBuilder_openStream: the result is logged, not tested *)
    let s := set_audioStream (bool_decide (openStream_result env = AAUDIO_OK)) s in
    let s := set_framesPerBurst (getFramesPerBurst (audio_stream env)) s in
    let s := set_bufferCapacityInFrames
               (getBufferCapacityInFrames (audio_stream env)) s in
    let '(resolved, s) := resolveAudioInterface (usb env) s in
    if resolved
    then
      s ← allocateTransferRequests (audio_stream env) (alloc_transfer env) s;
      Some (set_state READY_TO_START s)
    else Some (set_state ERROR s)
  else Some (set_state ERROR s).

(** *** submitTransferRequests and start *)

Definition submitTransferRequests (submit : nat -> libusb_error) (s : t)
  : bool * t * list Call :=
  let transfers :=
    imap (fun i d => set_isSubmitted (bool_decide (submit i = LIBUSB_SUCCESS)) d)
         (transfers_ s) in
  let calls := imap (fun i _ => SubmitTransfer i) (transfers_ s) in
  let s := set_transfers transfers s in
  let submittedTransfers := i32 (count_if isSubmitted (transfers_ s)) in
  if submittedTransfers =? 0
  then (false, set_state ERROR s, calls)
  else (true, s, calls).

Definition ensureTransferRequests (submit : nat -> libusb_error) (s : t)
  : bool * t * list Call :=
  match transfers_ s with
  | _ :: _ => (false, s, [])
  | [] => submitTransferRequests submit s
  end.

Record StartEnv := {
  submit_transfer : nat -> libusb_error;
  requestStart : aaudio_result;
  (* the state AAudioStream_waitForStateChange stores in startAudioPlayer *)
  player_nextState : aaudio_stream_state;
  (* the result of the wait in start itself *)
  waitForStateChange_result : aaudio_result
}.

Definition startAudioPlayer (env : StartEnv) : bool :=
  if bool_decide (requestStart env <> AAUDIO_OK) then false
  else bool_decide (player_nextState env = AAUDIO_STREAM_STATE_STARTED).

Definition reset_for_start (st : UsbAudioStreamerStats) : UsbAudioStreamerStats :=
  {| total_bytes := 0; usb_cb_counter := 0; player_cb_counter := 0;
     event_loops := 0; t0_10_s := 0; samplingFrequency := samplingFrequency st;
     currentSamplingFrequency := currentSamplingFrequency st;
     t0_1_s := t0_1_s st |}.

Definition start (env : StartEnv) (s : t) : bool * t * list Call :=
  if bool_decide (state_ s <> READY_TO_START) then (false, s, []) else
  let s := set_state STARTING s in
  let s := set_stats_of reset_for_start s in
  let s := set_stopUsbAudioCapture 0 s in
  let '(submitted, s, calls) := submitTransferRequests (submit_transfer env) s in
  if negb submitted then (false, s, calls) else
  if negb (startAudioPlayer env) then (false, set_state ERROR s, calls) else
  if bool_decide (waitForStateChange_result env <> AAUDIO_OK)
  then (false, set_state ERROR s, calls)
  else (true, set_state STARTED s, calls).

(** *** transferCallback *)

Record CallbackEnv := {
  (* steady_clock::now() read for packet i when its status is logged *)
  packet_clock : nat -> Z;
  (* the two clock reads of recordSamples *)
  record_clock_test : Z;
  record_clock_reset : Z;
  (* steady_clock::now() of the statistics block *)
  stats_clock : Z;
  resubmit_status : libusb_error
}.

Definition recordSamples (now_test now_reset : Z) (samples : Z)
    (st : UsbAudioStreamerStats) : UsbAudioStreamerStats :=
  let current := u32 (currentSamplingFrequency st + samples) in
  if duration_cast_seconds (now_test - t0_1_s st) >=? 1
  then {| total_bytes := total_bytes st; usb_cb_counter := usb_cb_counter st;
          player_cb_counter := player_cb_counter st; event_loops := event_loops st;
          t0_10_s := t0_10_s st; samplingFrequency := current;
          currentSamplingFrequency := 0; t0_1_s := now_reset |}
  else {| total_bytes := total_bytes st; usb_cb_counter := usb_cb_counter st;
          player_cb_counter := player_cb_counter st; event_loops := event_loops st;
          t0_10_s := t0_10_s st; samplingFrequency := samplingFrequency st;
          currentSamplingFrequency := current; t0_1_s := t0_1_s st |}.

(** The packet loop: returns [len] and the streamer after the writes. *)
Fixpoint copy_packets (env : CallbackEnv) (i : nat)
    (packs : list libusb_iso_packet_descriptor) (len : Z) (s : t) : Z * t :=
  match packs with
  | [] => (len, s)
  | pack :: packs =>
    if bool_decide (pk_status pack <> LIBUSB_TRANSFER_COMPLETED)
    then
      let now := packet_clock env i in
      let s := if now - callbackErrorLoggedAt_ s >? 60 * ticks_per_second
               then set_callbackErrorLoggedAt now s else s in
      copy_packets env (S i) packs len s
    else
      let dataSize := u32 (actual_length pack) / 2 in
      let '(result, rb) :=
        RingBuffer.write (ringBuffer_ s) (Some (packet_buffer pack)) (i32 dataSize) in
      copy_packets env (S i) packs (i32 (u32 (len + actual_length pack)))
        (set_ringBuffer rb s)
  end.

(** The statistics block between the packet loop and the resubmission. *)
Definition update_stats (env : CallbackEnv) (len : Z) (s : t)
    (st : UsbAudioStreamerStats) : UsbAudioStreamerStats :=
  let st := if len >? 0
            then recordSamples (record_clock_test env) (record_clock_reset env)
                   (samplesFromByteCount s (u32 len)) st
            else st in
  let now := stats_clock env in
  let st := if t0_10_s st =? 0
            then {| total_bytes := 0; usb_cb_counter := 0; player_cb_counter := 0;
                    event_loops := event_loops st; t0_10_s := now;
                    samplingFrequency := samplingFrequency st;
                    currentSamplingFrequency := currentSamplingFrequency st;
                    t0_1_s := t0_1_s st |}
            else st in
  let st := {| total_bytes := u32 (total_bytes st + len);
               usb_cb_counter := u16 (usb_cb_counter st + 1);
               player_cb_counter := player_cb_counter st;
               event_loops := event_loops st; t0_10_s := t0_10_s st;
               samplingFrequency := samplingFrequency st;
               currentSamplingFrequency := currentSamplingFrequency st;
               t0_1_s := t0_1_s st |} in
  if duration_cast_seconds (now - t0_10_s st) >=? 10
  then {| total_bytes := 0; usb_cb_counter := 0; player_cb_counter := 0;
          event_loops := 0; t0_10_s := now;
          samplingFrequency := samplingFrequency st;
          currentSamplingFrequency := currentSamplingFrequency st;
          t0_1_s := t0_1_s st |}
  else st.

Definition transferCallback (env : CallbackEnv) (transfer : option libusb_transfer)
    (s : t) : t * list Call :=
  match transfer with
  | None => (s, [])
  | Some transfer =>
    match user_data transfer with
    | None => (s, [])
    | Some slot =>
      let s := set_transfers (alter (set_isSubmitted false) slot (transfers_ s)) s in
      if bool_decide (status transfer = LIBUSB_TRANSFER_NO_DEVICE) then (s, []) else
      let state := state_ s in
      if bool_decide (state = STOPPING)
      then (s, if hasActiveTransfers s then [] else [NotifyStateChange])
      else
      if bool_decide (state = DESTROYING) || bool_decide (state = DESTROYED)
      then (s, [])
      else
        let '(len, s) := copy_packets env 0 (iso_packet_desc transfer) 0 s in
        let s := set_stats_of (update_stats env len s) s in
        let maxExpectedLen := maxPacketSize_ s * num_iso_packets transfer in
        if len >? maxExpectedLen then (s, []) else
        let status := resubmit_status env in
        let s := if bool_decide (status = LIBUSB_SUCCESS)
                 then set_transfers
                        (alter (set_isSubmitted true) slot (transfers_ s)) s
                 else s in
        (s, [SubmitTransfer slot])
    end
  end.

(** *** audioPlaybackCallback *)

(** The completions [libusb_handle_events_timeout_completed] delivers during
    one call, each run through [transferCallback]. *)
Fixpoint handle_events (events : list (CallbackEnv * option libusb_transfer))
    (s : t) : t * list Call :=
  match events with
  | [] => (s, [])
  | (env, transfer) :: events =>
    let '(s, calls) := transferCallback env transfer s in
    let '(s, calls') := handle_events events s in
    (s, calls ++ calls')
  end.

(** [audioData] is a block of bytes; [read] addresses it as [uint16_t]
    (little-endian, as on every Android ABI). *)
Fixpoint u16_view (bytes : list Z) : list Z :=
  match bytes with
  | lo :: hi :: bytes => (lo + 256 * hi) :: u16_view bytes
  | _ => []
  end.

Definition byte_view (samples : list Z) : list Z :=
  flat_map (fun w => [w mod 256; (w / 256) mod 256]) samples.

Definition bump_event_loops (st : UsbAudioStreamerStats) : UsbAudioStreamerStats :=
  {| total_bytes := total_bytes st; usb_cb_counter := usb_cb_counter st;
     player_cb_counter := player_cb_counter st;
     event_loops := u16 (event_loops st + 1); t0_10_s := t0_10_s st;
     samplingFrequency := samplingFrequency st;
     currentSamplingFrequency := currentSamplingFrequency st;
     t0_1_s := t0_1_s st |}.

Definition bump_player_cb_counter (st : UsbAudioStreamerStats) : UsbAudioStreamerStats :=
  {| total_bytes := total_bytes st; usb_cb_counter := usb_cb_counter st;
     player_cb_counter := u16 (player_cb_counter st + 1);
     event_loops := event_loops st; t0_10_s := t0_10_s st;
     samplingFrequency := samplingFrequency st;
     currentSamplingFrequency := currentSamplingFrequency st;
     t0_1_s := t0_1_s st |}.

(** The callback up to the point where it samples [ringBuffer_->size()]. *)
Definition pump_events (events : list (CallbackEnv * option libusb_transfer))
    (s : t) : t * list Call :=
  let s := set_stats_of bump_event_loops s in
  let '(s, calls) := handle_events events s in
  (set_stats_of bump_player_cb_counter s, calls).

Definition audioPlaybackCallback
    (events : list (CallbackEnv * option libusb_transfer))
    (s : t) (audioData : list Z) (numFrames : Z)
  : aaudio_data_callback_result * t * list Z * list Call :=
  let sizeToRead := channelCount_ s * numFrames in
  let bytesToRead := bytesInAudioFrames s numFrames in
  let '(s, calls) := pump_events events s in
  let available := RingBuffer.size (ringBuffer_ s) in
  if available <? u64 sizeToRead
  then (AAUDIO_CALLBACK_RESULT_CONTINUE, s, memset0 audioData bytesToRead, calls)
  else
    let '(movedData, rb, out) :=
      RingBuffer.read (ringBuffer_ s) (Some (u16_view audioData)) sizeToRead in
    let audioData :=
      match out with
      | Some samples => list_inserts 0 (byte_view samples) audioData
      | None => audioData
      end in
    (AAUDIO_CALLBACK_RESULT_CONTINUE, set_ringBuffer rb s, audioData, calls).

(** *** stop *)

(** One invocation of the render callback by the audio thread. *)
Record RenderCall := {
  rc_events : list (CallbackEnv * option libusb_transfer);
  rc_audioData : list Z;
  rc_numFrames : Z
}.

Fixpoint render_thread (calls : list RenderCall) (s : t) : t :=
  match calls with
  | [] => s
  | c :: calls =>
    let '(_, s, _, _) :=
      audioPlaybackCallback (rc_events c) s (rc_audioData c) (rc_numFrames c) in
    render_thread calls s
  end.

Record StopEnv := {
  (* what the audio thread runs while the control thread sits in its
     [tries]-th [wait_for(lk, 100ms)] *)
  during_wait : Z -> list RenderCall;
  (* and between the loop and the last [hasActiveTransfers()] *)
  before_check : list RenderCall;
  requestStop : aaudio_result;
  stop_nextState : aaudio_stream_state
}.

Definition wait_slice_ms : Z := 100.

Definition stopAudioPlayer (env : StopEnv) : bool :=
  if bool_decide (requestStop env <> AAUDIO_OK) then false
  else bool_decide (stop_nextState env = AAUDIO_STREAM_STATE_STOPPED).

(** [while (hasActiveTransfers() && tries++ < 5) wait_for(lk, 100ms)].  The
    recursion is on the budget [5 - tries] that is left; the result carries
    the durations waited. *)
Fixpoint stop_wait_loop (env : StopEnv) (budget : nat) (tries : Z) (s : t)
  : t * list Z :=
  if hasActiveTransfers s then
    match budget with
    | O => (s, [])
    | S budget =>
      let s := render_thread (during_wait env tries) s in
      let '(s, waits) := stop_wait_loop env budget (u8 (tries + 1)) s in
      (s, wait_slice_ms :: waits)
    end
  else (s, []).

(** The object as the last [hasActiveTransfers()] of [stop] sees it. *)
Definition stop_drain (env : StopEnv) (s : t) : t * list Z :=
  let s := set_state STOPPING s in
  let '(s, waits) := stop_wait_loop env 5 0 s in
  let s := set_stopUsbAudioCapture 1 s in
  (render_thread (before_check env) s, waits).

Definition stop (env : StopEnv) (s : t) : bool * t * list Z :=
  let '(s, waits) := stop_drain env s in
  if hasActiveTransfers s || negb (stopAudioPlayer env)
  then (false, set_state ERROR s, waits)
  else (true, set_state READY_TO_START s, waits).

(** *** getUsbDeviceSpeed and the destructor *)

Definition LIBUSB_SPEED_UNKNOWN : Z := 0.

(** [device_speed] is what [libusb_get_device_speed] reports, [None] when
    [libusb_get_device] returns no device. *)
Definition getUsbDeviceSpeed (device_speed : option Z) (s : t) : Z :=
  if negb (deviceHandle_ s) then LIBUSB_SPEED_UNKNOWN
  else match device_speed with
       | Some speed => speed
       | None => LIBUSB_SPEED_UNKNOWN
       end.

(** The resources the destructor gives back, in the order of its calls. *)
Inductive Release :=
  | CloseAudioStream
  | ReleaseInterface (interface_number : Z)
  | AttachKernelDriver (interface_number : Z)
  | CloseDevice
  | FreeTransfer (req : libusb_transfer_request)
  | FreeConfigDescriptor
  | ExitContext
  | FreeRingBuffer.

(** [~UsbAudioStreamer].  [transfers_.clear()] runs [libusb_free_transfer]
    once per slot, in the order in which the library destroys the
    elements: [clear_order] lists the pool in that order.  The statuses of
    the release calls are only logged.  The test of [context_] reads an
    indeterminate pointer when [libusb_init] never stored a context: the
    result is then [None]. *)
Definition destructor
    (clear_order : list TransferUserData -> list TransferUserData) (s : t)
  : option (t * list Release) :=
  let c1 := if audioStream_ s then [CloseAudioStream] else [] in
  let s := if audioStream_ s then set_audioStream false s else s in
  let s := set_state DESTROYING s in
  let c2 := if deviceHandle_ s && negb (claimedInterface_ s =? -1)
            then [ReleaseInterface (claimedInterface_ s)] else [] in
  let c3 := if negb (detachedInterface_ s =? -1)
            then [AttachKernelDriver (detachedInterface_ s)] else [] in
  let c4 := if deviceHandle_ s then [CloseDevice] else [] in
  let s := if deviceHandle_ s then set_deviceHandle false s else s in
  let c5 := map (fun d => FreeTransfer (transfer d))
                (clear_order (transfers_ s)) in
  let s := set_transfers [] s in
  let c6 := match config_ s with
            | Some _ => [FreeConfigDescriptor]
            | None => []
            end in
  match context_ s with
  | ContextIndeterminate => None
  | ContextValid =>
    Some (set_state DESTROYED s,
          c1 ++ c2 ++ c3 ++ c4 ++ c5 ++ c6 ++ [ExitContext] ++ [FreeRingBuffer])
  end.

End UsbAudioStreamer.

(** ** UsbVideoNativeLibrary.cpp: the audio entry points *)

Module UsbVideoNativeLibrary.
Import UsbAudioStreamer.

(** The static [streamer_] is threaded through as an [option]; [None] is
    the empty [unique_ptr].  The [jint] arguments are converted to the
    constructor's parameter types.  An entry point whose constructor or
    destructor call does not return has result [None]. *)
Definition connectUsbAudioStreamingNative (env : CtorEnv)
    (streamer_ : option UsbAudioStreamer.t)
    (jAudioFormat samplingFrequency subFrameSize channelCount jAudioPerfMode
     outputFramesPerBuffer : Z)
  : option (bool * option UsbAudioStreamer.t) :=
  match streamer_ with
  | Some _ => Some (true, streamer_)
  | None =>
    s ← UsbAudioStreamer env (u32 jAudioFormat) (u32 samplingFrequency)
          (u8 subFrameSize) (u8 channelCount) (u32 jAudioPerfMode)
          (u32 outputFramesPerBuffer);
    let streamer_ := Some s in
    Some (bool_decide (streamer_ <> None), streamer_)
  end.

Definition disconnectUsbAudioStreamingNative
    (clear_order : list TransferUserData -> list TransferUserData)
    (streamer_ : option UsbAudioStreamer.t)
  : option (option UsbAudioStreamer.t * list Release) :=
  match streamer_ with
  | Some s => r ← destructor clear_order s; Some (None, r.2)
  | None => Some (streamer_, [])
  end.

Definition startUsbAudioStreamingNative (env : StartEnv)
    (streamer_ : option UsbAudioStreamer.t)
  : option UsbAudioStreamer.t * list Call :=
  match streamer_ with
  | Some s => let '(_, s, calls) := start env s in (Some s, calls)
  | None => (streamer_, [])
  end.

Definition stopUsbAudioStreamingNative (env : StopEnv)
    (streamer_ : option UsbAudioStreamer.t) : option UsbAudioStreamer.t :=
  match streamer_ with
  | Some s => let '(_, s, _) := stop env s in Some s
  | None => streamer_
  end.

Definition getUsbDeviceSpeed (device_speed : option Z)
    (streamer_ : option UsbAudioStreamer.t) : Z :=
  match streamer_ with
  | Some s => UsbAudioStreamer.getUsbDeviceSpeed device_speed s
  | None => 0
  end.

End UsbVideoNativeLibrary.

(** * Specification vocabulary *)

Module RingBufferSpec.
Import RingBuffer.

(** The largest capacity for which the [int] sum [size + len] of [write]
    stays in range. *)
Definition max_capacity : Z := 2 ^ 30.

(** The representation invariant: cursors below the capacity, storage of
    [capacity_] cells. *)
Definition wf {T} (rb : RingBuffer.t T) : Prop :=
  0 < capacity_ rb <= max_capacity /\
  0 <= readPos_ rb < capacity_ rb /\
  0 <= writePos_ rb < capacity_ rb /\
  length (buffer_ rb) = Z.to_nat (capacity_ rb).

(** The states a buffer of capacity [c] goes through under any calls. *)
Inductive reachable {T} (zero : T) (c : Z) : RingBuffer.t T -> Prop :=
  | reach_make : reachable zero c (make zero c)
  | reach_write rb data len :
      reachable zero c rb -> reachable zero c (write rb data len).2
  | reach_read rb data len :
      reachable zero c rb -> reachable zero c (read rb data len).1.2.

(** The storage in ring order, starting at the read cursor. *)
Definition stored {T} (rb : RingBuffer.t T) : list T :=
  rotate (Z.to_nat (readPos_ rb)) (buffer_ rb).

(** The ring offset of cell [j] from cursor [p] in a ring of [c] cells. *)
Definition ring_offset (c p j : nat) : nat :=
  if decide (p <= j)%nat then (j - p)%nat else (j + c - p)%nat.

(** The cell at ring offset [i] from cursor [p]. *)
Definition ring_index (c p i : nat) : nat :=
  if decide (p + i < c)%nat then (p + i)%nat else (p + i - c)%nat.

(** A call sequence on one [RingBufferPcm]: each [Write] passes its whole
    array, each [Read] asks for [len] samples. *)
Inductive op :=
  | Write (data : list Z)
  | Read (len : Z).

Definition run_op (rb : RingBuffer.t Z) (o : op) : RingBuffer.t Z :=
  match o with
  | Write data => (write rb (Some data) (Z.of_nat (length data))).2
  | Read len => (read rb (Some (replicate (Z.to_nat len) 0)) len).1.2
  end.

Definition run (ops : list op) (rb : RingBuffer.t Z) : RingBuffer.t Z :=
  fold_left run_op ops rb.

(** Reference count, following the specification's words: samples written
    minus samples read, kept within [[0, capacity]]; what a write pushes
    beyond the capacity is dropped and no longer counted. *)
Definition ref_size_op (capacity : Z) (n : Z) (o : op) : Z :=
  match o with
  | Write data => Z.min capacity (n + Z.of_nat (length data))
  | Read len => Z.max 0 (n - Z.max 0 len)
  end.

Definition ref_size (capacity : Z) (ops : list op) : Z :=
  fold_left (ref_size_op capacity) ops 0.

(** The call sequences during which the count, starting from [n], stays
    strictly below the capacity. *)
Fixpoint never_full (capacity n : Z) (ops : list op) : Prop :=
  match ops with
  | [] => True
  | o :: ops =>
    match o with
    | Write data => n + Z.of_nat (length data) < capacity
    | Read _ => True
    end /\ never_full capacity (ref_size_op capacity n o) ops
  end.

(** The samples a reader still has to consume, oldest first. *)
Definition content {T} (rb : RingBuffer.t T) : list T :=
  take (Z.to_nat (size rb)) (stored rb).

End RingBufferSpec.

Module StreamerSpec.
Import UsbAudioStreamer.

(** [q] is the ceiling of [a / b]. *)
Definition ceil_div (a b q : Z) : Prop := (q - 1) * b < a <= q * b.

(** A slot is accepted when [libusb_submit_transfer] succeeds for it. *)
Definition some_slot_accepted (submit : nat -> libusb_error) (s : t) : Prop :=
  exists i : nat, (i < length (transfers_ s))%nat /\ submit i = LIBUSB_SUCCESS.

(** The object [start] hands to [submitTransferRequests]. *)
Definition prepared_for_start (s : t) : t :=
  set_stopUsbAudioCapture 0
    (set_stats_of reset_for_start (set_state STARTING s)).

(** *** A device and an audio stream for the examples *)

(** A microphone: interface 1 is an audio control interface, interface 2 an
    audio streaming interface whose alternate setting 1 has the
    isochronous IN endpoint 0x81 with 192-byte packets. *)
Definition mic_config : libusb_config_descriptor :=
  {| interface :=
       [ {| altsetting :=
              [ {| bInterfaceNumber := 1; bAlternateSetting := 0;
                   bInterfaceClass := 1; bInterfaceSubClass := 1;
                   endpoint := [] |} ] |};
         {| altsetting :=
              [ {| bInterfaceNumber := 2; bAlternateSetting := 0;
                   bInterfaceClass := 1; bInterfaceSubClass := 2;
                   endpoint := [] |};
                {| bInterfaceNumber := 2; bAlternateSetting := 1;
                   bInterfaceClass := 1; bInterfaceSubClass := 2;
                   endpoint := [ {| bEndpointAddress := 129;
                                    wMaxPacketSize := 192 |} ] |} ] |} ] |}.

Definition usb_ok : UsbEnv :=
  {| kernel_driver_active := fun _ => 0;
     detach_kernel_driver := fun _ => LIBUSB_SUCCESS;
     claim_interface := fun _ => LIBUSB_SUCCESS;
     set_interface_alt_setting := fun _ _ => LIBUSB_SUCCESS |}.

Definition stream_192_960 : AudioStreamEnv :=
  {| getFramesPerBurst := 192; getBufferCapacityInFrames := 960 |}.

(** Every negotiation step succeeds. *)
Definition ctor_ok : CtorEnv :=
  {| init_status := LIBUSB_SUCCESS;
     set_log_level_status := LIBUSB_SUCCESS;
     wrap_sys_device_status := LIBUSB_SUCCESS;
     get_active_config_status := LIBUSB_SUCCESS;
     active_config := mic_config;
     createStreamBuilder_result := AAUDIO_OK;
     createStreamBuilder_non_null := true;
     openStream_result := AAUDIO_OK;
     audio_stream := stream_192_960;
     usb := usb_ok;
     alloc_transfer := fun _ => true;
     clock_now := 1000 |}.

(** [libusb_wrap_sys_device] fails, everything else would succeed. *)
Definition ctor_wrap_fails : CtorEnv :=
  {| init_status := LIBUSB_SUCCESS;
     set_log_level_status := LIBUSB_SUCCESS;
     wrap_sys_device_status := LIBUSB_ERROR_NO_DEVICE;
     get_active_config_status := LIBUSB_SUCCESS;
     active_config := mic_config;
     createStreamBuilder_result := AAUDIO_OK;
     createStreamBuilder_non_null := true;
     openStream_result := AAUDIO_OK;
     audio_stream := stream_192_960;
     usb := usb_ok;
     alloc_transfer := fun _ => true;
     clock_now := 1000 |}.

(** [AAudioStreamBuilder_openStream] fails, everything else succeeds. *)
Definition ctor_open_fails : CtorEnv :=
  {| init_status := LIBUSB_SUCCESS;
     set_log_level_status := LIBUSB_SUCCESS;
     wrap_sys_device_status := LIBUSB_SUCCESS;
     get_active_config_status := LIBUSB_SUCCESS;
     active_config := mic_config;
     createStreamBuilder_result := AAUDIO_OK;
     createStreamBuilder_non_null := true;
     openStream_result := AAUDIO_ERROR (-896);
     audio_stream := stream_192_960;
     usb := usb_ok;
     alloc_transfer := fun _ => true;
     clock_now := 1000 |}.

(** 16-bit stereo PCM at 48 kHz. *)
Definition construct (env : CtorEnv) : option t :=
  UsbAudioStreamer env 2 48000 2 2 12 192.

(** The streamer that [construct ctor_ok] returns. *)
Definition mic_streamer : t :=
  default (initial_members 0 0 0 0 0 0) (construct ctor_ok).

Definition start_ok : StartEnv :=
  {| submit_transfer := fun _ => LIBUSB_SUCCESS;
     requestStart := AAUDIO_OK;
     player_nextState := AAUDIO_STREAM_STATE_STARTED;
     waitForStateChange_result := AAUDIO_OK |}.

Definition callback_env : CallbackEnv :=
  {| packet_clock := fun _ => 2000;
     record_clock_test := 2000;
     record_clock_reset := 2000;
     stats_clock := 2000;
     resubmit_status := LIBUSB_SUCCESS |}.

(** A completion reporting that the device is gone, for slot 1. *)
Definition lost_transfer : libusb_transfer :=
  {| status := LIBUSB_TRANSFER_NO_DEVICE; user_data := Some 1%nat;
     iso_packet_desc := [] |}.

(** [ep] is an IN endpoint of alternate setting [d] of the [i]-th interface
    of [config], and [d] is an audio streaming setting. *)
Definition streaming_in_endpoint (config : libusb_config_descriptor) (i : nat)
    (d : libusb_interface_descriptor) (ep : libusb_endpoint_descriptor) : Prop :=
  (exists itf, interface config !! i = Some itf /\ d ∈ altsetting itf) /\
  ep ∈ endpoint d /\
  bInterfaceClass d = LIBUSB_CLASS_AUDIO /\
  bInterfaceSubClass d = kInterfaceSubClassStreaming /\
  Z.land (bEndpointAddress ep) LIBUSB_ENDPOINT_IN <> 0.

(** How many of the first [n] calls of [libusb_alloc_transfer] succeed. *)
Definition allocated (alloc : nat -> bool) (n : nat) : nat :=
  length (List.filter alloc (seq 0 n)).

(** The in-flight flags of [l'] are those of [l] with some cleared. *)
Definition flags_shrink (l l' : list TransferUserData) : Prop :=
  length l' = length l /\
  forall j d', l' !! j = Some d' ->
    exists d, l !! j = Some d /\ transfer d' = transfer d /\
              (isSubmitted d' = true -> isSubmitted d = true).

Definition valid_bytes (block : list Z) : Prop :=
  Forall (fun b => 0 <= b < 256) block.


(** The audio thread is silent: no render callback runs during [stop]. *)
Definition quiet_stop (requestStop : aaudio_result)
    (nextState : aaudio_stream_state) : StopEnv :=
  {| during_wait := fun _ => []; before_check := [];
     requestStop := requestStop; stop_nextState := nextState |}.

(** A completed transfer for slot 0 with one good packet of four samples
    and one packet that failed. *)
Definition good_transfer : libusb_transfer :=
  {| status := LIBUSB_TRANSFER_COMPLETED; user_data := Some 0%nat;
     iso_packet_desc :=
       [ {| pk_status := LIBUSB_TRANSFER_COMPLETED; actual_length := 8;
            packet_buffer := [11; 12; 13; 14] |};
         {| pk_status := LIBUSB_TRANSFER_ERROR; actual_length := 0;
            packet_buffer := [] |} ] |}.

Definition started_streamer : t := (start start_ok mic_streamer).1.2.

(** During the first wait of [stop] the audio thread runs one render
    callback in which all five transfers complete. *)
Definition draining_stop : StopEnv :=
  {| during_wait := fun tries =>
       if tries =? 0
       then [ {| rc_events :=
                   map (fun slot =>
                          (callback_env,
                           Some {| status := LIBUSB_TRANSFER_COMPLETED;
                                   user_data := Some slot;
                                   iso_packet_desc := [] |}))
                       [0; 1; 2; 3; 4]%nat;
                 rc_audioData := [0; 0; 0; 0]; rc_numFrames := 1 |} ]
       else [];
     before_check := [];
     requestStop := AAUDIO_OK;
     stop_nextState := AAUDIO_STREAM_STATE_STOPPED |}.




(** The states in which a completion is processed and resubmitted. *)
Definition running (st : StreamerState) : Prop :=
  st <> STOPPING /\ st <> DESTROYING /\ st <> DESTROYED.

(** The transfers a sequence of release calls frees, in order. *)
Definition freed_transfers (calls : list Release)
  : list libusb_transfer_request :=
  omap (fun c => match c with FreeTransfer req => Some req | _ => None end) calls.

(** The ceiling of [a / b], for [0 <= a] and [0 < b]. *)
Definition ceiling (a b : Z) : Z := (a + b - 1) / b.

(** The inputs for which every [int] step of the sizing is defined:
    positive divisors, and sums and products within [int]. *)
Definition sizing_in_range (maxPacketSize framesPerBurst bufferCapacityInFrames
                            subFrameSize channelCount : Z) : Prop :=
  0 < maxPacketSize /\ 0 < framesPerBurst /\ 0 <= bufferCapacityInFrames /\
  0 < subFrameSize /\ 0 <= channelCount /\
  framesPerBurst * subFrameSize < 2 ^ 31 /\
  framesPerBurst * subFrameSize * channelCount + maxPacketSize < 2 ^ 31 /\
  bufferCapacityInFrames + framesPerBurst < 2 ^ 31 /\
  maxPacketSize
  * Z.max 2 (ceiling (framesPerBurst * subFrameSize * channelCount) maxPacketSize)
  * Z.max 2 (ceiling bufferCapacityInFrames framesPerBurst) < 2 ^ 31.

(** The object the control thread sees at its [n]-th test of
    [hasActiveTransfers()] in the loop of [stop]: in state [STOPPING],
    after the audio thread ran during each of the [n] waits before. *)
Fixpoint after_waits (env : StopEnv) (n : nat) (s : t) : t :=
  match n with
  | O => set_state STOPPING s
  | S n => render_thread (during_wait env (Z.of_nat n)) (after_waits env n s)
  end.

(** The library destroys each element of the pool exactly once. *)
Definition clears_each_once
    (clear_order : list TransferUserData -> list TransferUserData) : Prop :=
  forall l, clear_order l ≡ₚ l.

(** Call [a] happens before call [b] whenever both occur. *)
Definition precedes (a b : Release) (calls : list Release) : Prop :=
  forall i j : nat, calls !! i = Some a -> calls !! j = Some b -> (i < j)%nat.

End StreamerSpec.

(** * Properties of RingBuffer *)

(** Three runs of the model on a buffer of capacity 4. *)

Example write3_read3 :
  let '(w, rb) := RingBuffer.write (RingBuffer.make 0 4) (Some [1; 2; 3]) 3 in
  RingBuffer.read rb (Some [9; 9; 9; 9]) 3
  = (3, RingBuffer.mk 4 3 3 [1; 2; 3; 0], Some [1; 2; 3; 9]).
Proof. reflexivity. Qed.

Example write_wraps_around :
  let rb := (RingBuffer.write (RingBuffer.make 0 4) (Some [1; 2; 3]) 3).2 in
  let rb := (RingBuffer.read rb (Some [0; 0]) 2).1.2 in
  let rb := (RingBuffer.write rb (Some [4; 5]) 2).2 in
  rb = RingBuffer.mk 4 2 1 [5; 2; 3; 4] /\
  RingBuffer.read rb (Some [0; 0; 0]) 3
  = (3, RingBuffer.mk 4 1 1 [5; 2; 3; 4], Some [3; 4; 5]).
Proof. split; reflexivity. Qed.

Example write_overflow_empties :
  let rb := (RingBuffer.write (RingBuffer.make 0 4) (Some [1; 2; 3]) 3).2 in
  let rb := (RingBuffer.write rb (Some [4; 5; 6]) 3).2 in
  rb = RingBuffer.mk 4 2 2 [5; 6; 3; 4] /\ RingBuffer.size rb = 0.
Proof. split; reflexivity. Qed.

(** Settles the integer comparisons of the goal that [lia] can decide. *)
Ltac zcmp :=
  rewrite ?Z.gtb_ltb, ?Z.geb_leb;
  repeat match goal with
  | |- context [?a <? ?b] =>
      first [ rewrite (proj2 (Z.ltb_lt a b)) by lia
            | rewrite (proj2 (Z.ltb_ge a b)) by lia ]
  | |- context [?a <=? ?b] =>
      first [ rewrite (proj2 (Z.leb_le a b)) by lia
            | rewrite (proj2 (Z.leb_gt a b)) by lia ]
  | |- context [?a =? ?b] =>
      first [ rewrite (proj2 (Z.eqb_eq a b)) by lia
            | rewrite (proj2 (Z.eqb_neq a b)) by lia ]
  end.

Section MachineIntegers.

Lemma u32_small z : 0 <= z < 2 ^ 32 -> u32 z = z.
Proof. intros. unfold u32. apply Z.mod_small. lia. Qed.

Lemma u64_small z : 0 <= z < 2 ^ 64 -> u64 z = z.
Proof. intros. unfold u64. apply Z.mod_small. lia. Qed.

Lemma i32_small z : - 2 ^ 31 <= z < 2 ^ 31 -> i32 z = z.
Proof. intros. unfold i32. rewrite Z.mod_small; lia. Qed.

Lemma int_result_Some z : - 2 ^ 31 <= z < 2 ^ 31 -> int_result z = Some z.
Proof.
  intros [Hl Hu]. unfold int_result.
  by rewrite (proj2 (Z.leb_le _ _) Hl), (proj2 (Z.ltb_lt _ _) Hu).
Qed.

Lemma int_result_inv z r : int_result z = Some r -> r = z /\ - 2 ^ 31 <= z < 2 ^ 31.
Proof.
  unfold int_result. destruct (_ <=? _) eqn:Hl; [|done].
  destruct (_ <? _) eqn:Hu; [|done]. intros [= <-].
  apply Z.leb_le in Hl. apply Z.ltb_lt in Hu. lia.
Qed.

Lemma int_div_Some a b :
  0 <= a < 2 ^ 31 -> 0 < b -> int_div a b = Some (a / b).
Proof.
  intros Ha Hb. unfold int_div. rewrite (proj2 (Z.eqb_neq b 0)) by lia.
  rewrite Z.quot_div_nonneg by lia. apply int_result_Some.
  pose proof (Z.div_pos a b ltac:(lia) Hb).
  pose proof (Z.div_le_upper_bound a b a Hb ltac:(nia)). lia.
Qed.

Lemma int_div_zero a : int_div a 0 = None.
Proof. reflexivity. Qed.

Lemma int_div_inv a b r :
  int_div a b = Some r -> b <> 0 /\ r = a ÷ b /\ - 2 ^ 31 <= r < 2 ^ 31.
Proof.
  unfold int_div. destruct (b =? 0) eqn:Hb; [done|]. apply Z.eqb_neq in Hb.
  intros H. destruct (int_result_inv _ _ H) as [-> ?]. done.
Qed.

End MachineIntegers.

Section Memcpy.
Context {T : Type}.
Implicit Types dst src : list T.

Lemma length_memcpy dst off src n : length (memcpy dst off src n) = length dst.
Proof. apply length_inserts. Qed.

(** Inside the destination, [memcpy] replaces the cells
    [off .. off + n - 1] and leaves the others. *)
Lemma lookup_memcpy dst off src n (j : nat) :
  0 <= off -> 0 <= n ->
  (Z.to_nat off + Z.to_nat n <= length dst)%nat ->
  (Z.to_nat n <= length src)%nat ->
  memcpy dst off src n !! j =
    if decide (Z.to_nat off <= j < Z.to_nat off + Z.to_nat n)%nat
    then src !! (j - Z.to_nat off)%nat else dst !! j.
Proof.
  intros Hoff Hn Hdst Hsrc. unfold memcpy.
  assert (length (take (Z.to_nat n) src) = Z.to_nat n) as Hlen
    by (rewrite length_take; lia).
  case_decide as Hj.
  - rewrite list_lookup_inserts by (rewrite ?Hlen; lia).
    apply lookup_take_lt. lia.
  - destruct (decide (j < Z.to_nat off)%nat).
    + by apply list_lookup_inserts_lt.
    + apply list_lookup_inserts_ge. rewrite Hlen. lia.
Qed.

End Memcpy.

Section RingBufferFacts.
Import RingBuffer RingBufferSpec.
Context {T : Type} (zero : T).
Implicit Types rb : RingBuffer.t T.

Lemma max_capacity_eq : max_capacity = 1073741824.
Proof. reflexivity. Qed.

(** A cursor expression [x % capacity_] computed in [uint32_t] and stored
    in an [int] or back in a [uint32_t]. *)
Lemma cursor_mod x c :
  0 < c <= max_capacity -> 0 <= x < 2 ^ 32 ->
  u32 x mod u32 c = x mod c /\
  i32 (u32 x mod u32 c) = x mod c /\
  u32 (i32 (u32 x mod u32 c)) = x mod c /\
  0 <= x mod c < c.
Proof.
  intros Hc Hx. rewrite max_capacity_eq in Hc.
  pose proof (Z.mod_pos_bound x c ltac:(lia)).
  rewrite !(u32_small x), !(u32_small c) by lia.
  rewrite i32_small, u32_small by lia. auto.
Qed.

Lemma size_eq rb :
  wf rb ->
  size rb = (writePos_ rb + capacity_ rb - readPos_ rb) mod capacity_ rb /\
  0 <= size rb < capacity_ rb /\ i32 (size rb) = size rb.
Proof.
  intros (Hc & Hr & Hw & _). unfold size.
  pose proof Hc as Hc'. rewrite max_capacity_eq in Hc'.
  destruct (cursor_mod (writePos_ rb + capacity_ rb - readPos_ rb)
              (capacity_ rb) Hc ltac:(lia)) as (-> & _ & _ & ?).
  repeat split; try lia. apply i32_small. lia.
Qed.

Lemma size_empty rb : wf rb -> (size rb = 0 <-> writePos_ rb = readPos_ rb).
Proof.
  intros Hwf. destruct (size_eq rb Hwf) as (-> & _ & _).
  destruct Hwf as (Hc & Hr & Hw & _).
  split; intros H.
  - destruct (Z_le_gt_dec (readPos_ rb) (writePos_ rb)).
    + replace (writePos_ rb + capacity_ rb - readPos_ rb)
        with ((writePos_ rb - readPos_ rb) + 1 * capacity_ rb) in H by lia.
      rewrite Z.mod_add, Z.mod_small in H by lia. lia.
    + rewrite Z.mod_small in H by lia. lia.
  - rewrite H. replace (readPos_ rb + capacity_ rb - readPos_ rb)
      with (0 + 1 * capacity_ rb) by lia.
    rewrite Z.mod_add by lia. apply Z.mod_0_l. lia.
Qed.

Lemma wf_make c : 0 < c <= max_capacity -> wf (make zero c).
Proof.
  intros Hc. unfold wf, make; simpl.
  rewrite length_replicate. repeat split; lia.
Qed.

Lemma wf_write rb data len : wf rb -> wf (write rb data len).2.
Proof.
  intros Hwf. unfold write.
  destruct data as [data|]; [|done].
  destruct (len <=? 0) eqn:Hlen; [done|]. apply Z.leb_gt in Hlen.
  pose proof Hwf as (Hc & Hr & Hw & Hb).
  pose proof Hc as Hc'. rewrite max_capacity_eq in Hc'.
  destruct (size_eq rb Hwf) as (_ & Hsz & Hsz').
  set (dl := if len >? capacity_ rb then _ else _).
  assert (0 < dl.2 <= capacity_ rb) as Hl.
  { subst dl. destruct (len >? capacity_ rb) eqn:E; simpl; lia. }
  destruct dl as [data' len']. simpl in Hl. cbv zeta.
  destruct (cursor_mod (writePos_ rb + len') (capacity_ rb) Hc ltac:(lia))
    as (_ & He & He' & ?).
  unfold wf; cbn [capacity_ readPos_ writePos_ buffer_ snd].
  rewrite He'. repeat split; try lia.
  - case_match; [|lia].
    destruct (cursor_mod (readPos_ rb + i32 (size rb) + len') (capacity_ rb)
                Hc ltac:(lia)) as (-> & _ & _ & ?). lia.
  - case_match; [|lia].
    destruct (cursor_mod (readPos_ rb + i32 (size rb) + len') (capacity_ rb)
                Hc ltac:(lia)) as (-> & _ & _ & ?). lia.
  - case_match; rewrite ?length_memcpy; done.
Qed.

Lemma wf_read rb data len : wf rb -> wf (read rb data len).1.2.
Proof.
  intros Hwf. unfold read.
  destruct data as [data|]; [|done].
  case_match; [done|].
  pose proof Hwf as (Hc & Hr & Hw & Hb).
  pose proof Hc as Hc'. rewrite max_capacity_eq in Hc'.
  destruct (size_eq rb Hwf) as (_ & Hsz & Hsz').
  apply orb_false_iff in H as [H1 H2].
  apply Z.eqb_neq in H1. apply Z.leb_gt in H2.
  cbv zeta. unfold wf; cbn [capacity_ readPos_ writePos_ buffer_ fst snd].
  destruct (cursor_mod (readPos_ rb + Z.min len (i32 (size rb))) (capacity_ rb)
              Hc ltac:(lia)) as (-> & _ & _ & ?).
  repeat split; lia.
Qed.

Lemma reachable_wf c rb :
  0 < c <= max_capacity -> reachable zero c rb -> wf rb /\ capacity_ rb = c.
Proof.
  intros Hc Hr. induction Hr as [|rb data len _ [IH1 IH2]|rb data len _ [IH1 IH2]].
  - split; [by apply wf_make|done].
  - split; [by apply wf_write|].
    unfold write. destruct data; [|done]. repeat case_match; done.
  - split; [by apply wf_read|].
    unfold read. destruct data; [|done]. repeat case_match; done.
Qed.

End RingBufferFacts.

Section RingBufferContent.
Import RingBuffer RingBufferSpec.
Context {T : Type}.
Implicit Types rb : RingBuffer.t T.

Lemma mod_wrap x c :
  0 < c -> 0 <= x < 2 * c -> x mod c = if x <? c then x else x - c.
Proof.
  intros Hc Hx. destruct (x <? c) eqn:E.
  - apply Z.ltb_lt in E. apply Z.mod_small. lia.
  - apply Z.ltb_ge in E. replace x with ((x - c) + 1 * c) at 1 by lia.
    rewrite Z.mod_add by lia. apply Z.mod_small. lia.
Qed.

(** A write that needs no truncation: count returned, cursors, and the
    storage cell by cell. *)
Lemma write_spec rb data len :
  wf rb -> 0 < len <= capacity_ rb -> (Z.to_nat len <= length data)%nat ->
  let res := write rb (Some data) len in
  res.1 = len /\
  capacity_ res.2 = capacity_ rb /\
  writePos_ res.2 = (writePos_ rb + len) mod capacity_ rb /\
  readPos_ res.2 =
    (if capacity_ rb <? size rb + len
     then (readPos_ rb + size rb + len) mod capacity_ rb else readPos_ rb) /\
  forall j : nat, (j < Z.to_nat (capacity_ rb))%nat ->
    buffer_ res.2 !! j =
      let o := ring_offset (Z.to_nat (capacity_ rb)) (Z.to_nat (writePos_ rb)) j in
      if decide (o < Z.to_nat len)%nat then data !! o else buffer_ rb !! j.
Proof.
  intros Hwf Hlen Hdata.
  pose proof Hwf as (Hc & Hr & Hw & Hb).
  pose proof Hc as Hc'. rewrite max_capacity_eq in Hc'.
  destruct (size_eq rb Hwf) as (_ & Hsz & Hsz').
  unfold write. zcmp. cbv zeta.
  destruct (cursor_mod (writePos_ rb + len) (capacity_ rb) Hc ltac:(lia))
    as (_ & He & He' & Hrange).
  cbn [fst snd capacity_ readPos_ writePos_ buffer_].
  rewrite He', He, Hsz'.
  rewrite (i32_small (writePos_ rb)) by lia.
  split; [done|]. split; [done|]. split; [done|]. split.
  { rewrite Z.gtb_ltb. case_match; [|done].
    by destruct (cursor_mod (readPos_ rb + size rb + len) (capacity_ rb)
                   Hc ltac:(lia)) as (-> & _). }
  intros j Hj. unfold ring_offset.
  rewrite mod_wrap by lia.
  destruct (writePos_ rb + len <? capacity_ rb) eqn:E.
  - apply Z.ltb_lt in E. zcmp.
    rewrite lookup_memcpy by lia.
    repeat case_decide; try lia; done.
  - apply Z.ltb_ge in E. zcmp.
    rewrite !lookup_memcpy;
      rewrite ?length_memcpy, ?length_drop; try lia.
    repeat case_decide; try lia.
    + rewrite lookup_drop. f_equal. lia.
    + f_equal.
    + done.
Qed.

(** A read from a buffer that holds something: count returned, cursors,
    and the caller's array cell by cell. *)
Lemma read_spec rb dst len :
  wf rb -> 0 < len -> size rb <> 0 ->
  (Z.to_nat (Z.min len (size rb)) <= length dst)%nat ->
  exists out,
    read rb (Some dst) len =
      (Z.min len (size rb),
       {| capacity_ := capacity_ rb;
          readPos_ := (readPos_ rb + Z.min len (size rb)) mod capacity_ rb;
          writePos_ := writePos_ rb; buffer_ := buffer_ rb |},
       Some out) /\
    length out = length dst /\
    forall i : nat,
      out !! i =
        if decide (i < Z.to_nat (Z.min len (size rb)))%nat
        then buffer_ rb !! ring_index (Z.to_nat (capacity_ rb))
                             (Z.to_nat (readPos_ rb)) i
        else dst !! i.
Proof.
  intros Hwf Hlen Hne Hdst.
  pose proof Hwf as (Hc & Hr & Hw & Hb).
  pose proof Hc as Hc'. rewrite max_capacity_eq in Hc'.
  destruct (size_eq rb Hwf) as (_ & Hsz & Hsz').
  unfold read. rewrite Hsz'. zcmp. cbn [orb]. cbv zeta.
  set (k := Z.min len (size rb)) in *.
  assert (0 < k <= size rb) as Hk by (subst k; lia).
  destruct (cursor_mod (readPos_ rb + k) (capacity_ rb) Hc ltac:(lia))
    as (Hm & He & _ & Hrange).
  rewrite He, Hm. rewrite (i32_small (readPos_ rb)) by lia.
  eexists. split; [reflexivity|].
  split; [case_match; by rewrite ?length_memcpy|].
  intros i. unfold ring_index.
  rewrite mod_wrap by lia.
  destruct (readPos_ rb + k <? capacity_ rb) eqn:E.
  - apply Z.ltb_lt in E. zcmp.
    rewrite lookup_memcpy; rewrite ?length_drop; try lia.
    repeat case_decide; try lia; [|done].
    rewrite lookup_drop. f_equal. lia.
  - apply Z.ltb_ge in E. zcmp.
    rewrite !lookup_memcpy;
      rewrite ?length_memcpy, ?length_drop; try lia.
    repeat case_decide; try lia.
    + f_equal. lia.
    + rewrite lookup_drop. f_equal. lia.
    + done.
Qed.

Lemma write_truncates rb data len :
  capacity_ rb < len -> 0 < capacity_ rb ->
  write rb (Some data) len =
  write rb (Some (drop (Z.to_nat (len - capacity_ rb)) data)) (capacity_ rb).
Proof. intros Hlen Hc. unfold write. zcmp. reflexivity. Qed.

(** Filling an empty buffer below its capacity leaves exactly [n] samples
    to read, and [read] hands them back in order. *)
Lemma write_then_read rb data n dst :
  wf rb -> size rb = 0 -> 0 < n < capacity_ rb ->
  length data = Z.to_nat n -> (Z.to_nat n <= length dst)%nat ->
  exists rb1 rb2 out,
    write rb (Some data) n = (n, rb1) /\ size rb1 = n /\
    read rb1 (Some dst) n = (n, rb2, Some out) /\
    take (Z.to_nat n) out = data /\ size rb2 = 0.
Proof.
  intros Hwf Hempty Hn Hdata Hdst.
  pose proof Hwf as (Hc & Hr & Hw & Hb).
  pose proof (wf_write rb (Some data) n Hwf) as Hwf1.
  destruct (write_spec rb data n Hwf ltac:(lia) ltac:(lia))
    as (Hres & Hcap & Hwp & Hrp & Hbuf).
  destruct (write rb (Some data) n) as [w rb1] eqn:Hwrite.
  cbn [fst snd] in *. subst w.
  rewrite Hempty in Hrp. revert Hrp. zcmp. intros Hrp.
  apply size_empty in Hempty; [|done].
  assert (size rb1 = n) as Hsize.
  { destruct (size_eq rb1 Hwf1) as (-> & _). rewrite Hwp, Hrp, Hcap, Hempty.
    rewrite (mod_wrap (readPos_ rb + n)) by lia.
    case_match; [rewrite Z.ltb_lt in *|rewrite Z.ltb_ge in *].
    - replace (readPos_ rb + n + capacity_ rb - readPos_ rb)
        with (n + 1 * capacity_ rb) by lia.
      rewrite Z.mod_add by lia. apply Z.mod_small. lia.
    - replace (readPos_ rb + n - capacity_ rb + capacity_ rb - readPos_ rb)
        with n by lia.
      apply Z.mod_small. lia. }
  destruct (read_spec rb1 dst n Hwf1 ltac:(lia) ltac:(lia)) as (out & Hread & Hlen & Hout).
  { rewrite Hsize, Z.min_id. lia. }
  rewrite Hsize, Z.min_id in Hread, Hout.
  eexists rb1, _, out. split; [done|]. split; [done|]. split; [exact Hread|].
  split.
  - apply list_eq. intros i. rewrite lookup_take, Hout.
    case_decide as Hi; [|symmetry; apply lookup_ge_None; lia].
    rewrite Hcap, Hrp, <- Hempty.
    rewrite Hbuf by (unfold ring_index; case_decide; lia).
    cbv zeta.
    replace (ring_offset _ _ (ring_index _ _ i)) with i
      by (unfold ring_offset, ring_index; repeat case_decide; lia).
    by rewrite decide_True by lia.
  - apply size_empty.
    { pose proof (wf_read rb1 (Some dst) n Hwf1) as H. by rewrite Hread in H. }
    cbn [readPos_ writePos_]. by rewrite Hwp, Hrp, Hcap, Hempty.
Qed.

(** A write of exactly [capacity_] samples into an empty buffer brings the
    write cursor back onto the read cursor. *)
Lemma write_capacity_empty rb data :
  wf rb -> size rb = 0 -> (Z.to_nat (capacity_ rb) <= length data)%nat ->
  let rb' := (write rb (Some data) (capacity_ rb)).2 in
  (write rb (Some data) (capacity_ rb)).1 = capacity_ rb /\
  writePos_ rb' = readPos_ rb' /\ size rb' = 0 /\
  forall dst len, read rb' (Some dst) len = (0, rb', Some dst).
Proof.
  intros Hwf Hempty Hdata.
  pose proof Hwf as (Hc & Hr & Hw & Hb).
  pose proof (wf_write rb (Some data) (capacity_ rb) Hwf) as Hwf1.
  destruct (write_spec rb data (capacity_ rb) Hwf ltac:(lia) ltac:(lia))
    as (Hres & Hcap & Hwp & Hrp & _).
  cbv zeta. destruct (write rb (Some data) (capacity_ rb)) as [w rb1].
  cbn [fst snd] in *.
  rewrite Hempty in Hrp. revert Hrp. zcmp. intros Hrp.
  apply size_empty in Hempty; [|done].
  assert (writePos_ rb1 = readPos_ rb1) as Heq.
  { rewrite Hwp, Hrp, Hempty.
    replace (readPos_ rb + capacity_ rb) with (readPos_ rb + 1 * capacity_ rb) by lia.
    rewrite Z.mod_add by lia. apply Z.mod_small. lia. }
  assert (size rb1 = 0) as Hsize by by apply size_empty.
  repeat split; try done.
  intros dst len. unfold read. rewrite Hsize. reflexivity.
Qed.

(** A write longer than the capacity: the whole storage, read round from
    the cursors, is the tail of the input. *)
Lemma write_oversized rb data len :
  wf rb -> capacity_ rb < len -> length data = Z.to_nat len ->
  let res := write rb (Some data) len in
  res.1 = capacity_ rb /\
  readPos_ res.2 = writePos_ rb /\ writePos_ res.2 = writePos_ rb /\
  stored res.2 = drop (length data - Z.to_nat (capacity_ rb)) data.
Proof.
  intros Hwf Hlen Hdata.
  pose proof Hwf as (Hc & Hr & Hw & Hb).
  pose proof Hc as Hc'. rewrite max_capacity_eq in Hc'.
  destruct (size_eq rb Hwf) as (Hsz & Hszr & _).
  pose proof (wf_write rb (Some data) len Hwf) as Hwf1.
  cbv zeta. rewrite write_truncates in * by lia.
  set (data' := drop (Z.to_nat (len - capacity_ rb)) data) in *.
  assert (length data' = Z.to_nat (capacity_ rb)) as Hdata'
    by (subst data'; rewrite length_drop; lia).
  destruct (write_spec rb data' (capacity_ rb) Hwf ltac:(lia) ltac:(lia))
    as (Hres & Hcap & Hwp & Hrp & Hbuf).
  destruct (write rb (Some data') (capacity_ rb)) as [w rb1].
  cbn [fst snd] in *.
  assert (writePos_ rb1 = writePos_ rb) as Hw1.
  { rewrite Hwp.
    replace (writePos_ rb + capacity_ rb) with (writePos_ rb + 1 * capacity_ rb) by lia.
    rewrite Z.mod_add by lia. apply Z.mod_small. lia. }
  assert (readPos_ rb1 = writePos_ rb) as Hr1.
  { rewrite Hrp. case_match; [rewrite Z.ltb_lt in *|rewrite Z.ltb_ge in *].
    - rewrite Hsz. rewrite (mod_wrap (writePos_ rb + capacity_ rb - readPos_ rb)) by lia.
      case_match.
      + replace (readPos_ rb + (writePos_ rb + capacity_ rb - readPos_ rb) + capacity_ rb)
          with (writePos_ rb + 2 * capacity_ rb) by lia.
        rewrite Z.mod_add by lia. apply Z.mod_small. lia.
      + replace (readPos_ rb + (writePos_ rb + capacity_ rb - readPos_ rb - capacity_ rb)
                 + capacity_ rb)
          with (writePos_ rb + 1 * capacity_ rb) by lia.
        rewrite Z.mod_add by lia. apply Z.mod_small. lia.
    - symmetry. apply size_empty; [done|lia]. }
  repeat split; try done.
  replace (drop (length data - Z.to_nat (capacity_ rb)) data) with data'
    by (subst data'; f_equal; lia).
  destruct Hwf1 as (_ & _ & _ & Hb1). rewrite Hcap in Hb1.
  unfold stored, rotate. rewrite Hr1, Hb1, Nat.mod_small by lia.
  apply list_eq. intros i.
  destruct (decide (i < Z.to_nat (capacity_ rb))%nat) as [Hi|Hi]; cycle 1.
  { rewrite (lookup_ge_None_2 data') by lia.
    apply lookup_ge_None_2. rewrite length_app, length_drop, length_take. lia. }
  destruct (decide (i < Z.to_nat (capacity_ rb) - Z.to_nat (writePos_ rb))%nat).
  - rewrite lookup_app_l by (rewrite length_drop; lia).
    rewrite lookup_drop, Hbuf by lia. cbv zeta. unfold ring_offset.
    repeat case_decide; try lia. f_equal. lia.
  - rewrite lookup_app_r by (rewrite length_drop; lia).
    rewrite length_drop, lookup_take_lt by lia.
    rewrite Hbuf by lia. cbv zeta. unfold ring_offset.
    repeat case_decide; try lia. f_equal. lia.
Qed.

Lemma size_after_write rb data len :
  wf rb -> 0 < len -> size rb + len < capacity_ rb ->
  (Z.to_nat len <= length data)%nat ->
  size (write rb (Some data) len).2 = size rb + len.
Proof.
  intros Hwf Hlen Hfit Hdata.
  pose proof Hwf as (Hc & Hr & Hw & Hb).
  destruct (size_eq rb Hwf) as (Hsz & Hszr & _).
  pose proof (wf_write rb (Some data) len Hwf) as Hwf1.
  destruct (write_spec rb data len Hwf ltac:(lia) Hdata)
    as (_ & Hcap & Hwp & Hrp & _).
  destruct (size_eq _ Hwf1) as (-> & _). revert Hrp. zcmp. intros Hrp.
  rewrite Hwp, Hrp, Hcap. rewrite Hsz in *.
  rewrite (mod_wrap (writePos_ rb + capacity_ rb - readPos_ rb)) in * by lia.
  rewrite (mod_wrap (writePos_ rb + len)) by (repeat case_match; lia).
  repeat case_match; rewrite ?Z.ltb_lt, ?Z.ltb_ge in *;
    rewrite mod_wrap by lia; case_match;
    rewrite ?Z.ltb_lt, ?Z.ltb_ge in *; lia.
Qed.

Lemma size_after_read rb dst len :
  wf rb -> 0 < len -> (Z.to_nat (Z.min len (size rb)) <= length dst)%nat ->
  size (read rb (Some dst) len).1.2 = size rb - Z.min len (size rb).
Proof.
  intros Hwf Hlen Hdst.
  pose proof Hwf as (Hc & Hr & Hw & Hb).
  destruct (size_eq rb Hwf) as (Hsz & Hszr & Hi).
  destruct (decide (size rb = 0)) as [Hz|Hnz].
  { unfold read. rewrite Hi, Hz. cbn. rewrite Hz. lia. }
  pose proof (wf_read rb (Some dst) len Hwf) as Hwf1.
  destruct (read_spec rb dst len Hwf Hlen Hnz Hdst) as (out & Hread & _).
  rewrite Hread in *. cbn [fst snd] in *.
  destruct (size_eq _ Hwf1) as (-> & _). cbn [capacity_ readPos_ writePos_].
  set (k := Z.min len (size rb)) in *.
  assert (0 < k <= size rb) as Hk by (subst k; lia).
  clearbody k. rewrite Hsz in *.
  rewrite (mod_wrap (writePos_ rb + capacity_ rb - readPos_ rb)) in * by lia.
  rewrite (mod_wrap (readPos_ rb + k)) by (repeat case_match; lia).
  repeat case_match; rewrite ?Z.ltb_lt, ?Z.ltb_ge in *;
    rewrite mod_wrap by lia; case_match;
    rewrite ?Z.ltb_lt, ?Z.ltb_ge in *; lia.
Qed.

End RingBufferContent.

Section RingBufferCount.
Import RingBuffer RingBufferSpec.

Lemma run_op_wf rb o : wf rb -> wf (run_op rb o) /\ capacity_ (run_op rb o) = capacity_ rb.
Proof.
  intros Hwf. destruct o as [data|len]; cbn [run_op].
  - split; [by apply wf_write|]. unfold write. repeat case_match; done.
  - split; [by apply wf_read|]. unfold read. repeat case_match; done.
Qed.

(** While the count stays below the capacity, [size()] is the number of
    samples written minus the number read. *)
Lemma size_tracks_count ops rb :
  wf rb -> never_full (capacity_ rb) (size rb) ops ->
  size (run ops rb) = fold_left (ref_size_op (capacity_ rb)) ops (size rb).
Proof.
  unfold run. revert rb. induction ops as [|o ops IH]; intros rb Hwf Hnf; [done|].
  destruct Hnf as [Ho Hnf]. cbn [fold_left].
  destruct (run_op_wf rb o Hwf) as [Hwf1 Hcap].
  destruct (size_eq rb Hwf) as (_ & Hsz & Hi).
  assert (size (run_op rb o) = ref_size_op (capacity_ rb) (size rb) o) as Hstep.
  { destruct o as [data|len]; cbn [run_op ref_size_op]; cbn beta iota in Ho.
    - destruct (decide (length data = 0%nat)) as [Hz|Hnz].
      + rewrite Hz. change (write rb (Some data) (Z.of_nat 0)).2 with rb.
        cbn [Z.of_nat]. lia.
      + rewrite size_after_write; [lia|done|lia..].
    - destruct (decide (len <= 0)) as [Hz|Hnz].
      + unfold read. zcmp. rewrite orb_true_r. cbn [fst snd]. lia.
      + rewrite size_after_read; [lia|done|lia|].
        rewrite length_replicate. lia. }
  rewrite <- Hstep, <- Hcap. apply IH; [done|]. by rewrite Hstep, Hcap.
Qed.

End RingBufferCount.

(** * Properties of UsbAudioStreamer *)

Section StreamerFacts.
Import UsbAudioStreamer StreamerSpec.
Implicit Types s : UsbAudioStreamer.t.

Lemma count_if_bounds {A} (p : A -> bool) (l : list A) :
  0 <= count_if p l <= Z.of_nat (length l).
Proof.
  unfold count_if. pose proof (List.filter_length_le p l). lia.
Qed.

Lemma count_if_zero {A} (p : A -> bool) (l : list A) :
  count_if p l = 0 <-> Forall (fun x => p x = false) l.
Proof.
  unfold count_if. induction l as [|x l IH]; simpl.
  - split; [constructor|done].
  - destruct (p x) eqn:E; simpl.
    + split; [lia|]. intros H. inversion H; congruence.
    + rewrite IH. split; [by constructor|]. by inversion 1.
Qed.

(** [submitTransferRequests] succeeds exactly when some slot is accepted;
    otherwise it moves the streamer to [ERROR]. *)
Lemma submitTransferRequests_spec submit s :
  Z.of_nat (length (transfers_ s)) < 2 ^ 31 ->
  let '(ok, s', calls) := submitTransferRequests submit s in
  (ok = true <-> some_slot_accepted submit s) /\
  state_ s' = (if ok then state_ s else ERROR) /\
  length (transfers_ s') = length (transfers_ s).
Proof.
  intros Hlen. unfold submitTransferRequests.
  set (l' := imap _ (transfers_ s)).
  assert (length l' = length (transfers_ s)) as Hl' by apply length_imap.
  cbn [transfers_ set_transfers].
  pose proof (count_if_bounds isSubmitted l') as Hb.
  rewrite i32_small by lia.
  assert (count_if isSubmitted l' = 0 <-> ~ some_slot_accepted submit s) as Hz.
  { rewrite count_if_zero, Forall_lookup. unfold some_slot_accepted. split.
    - intros H (i & Hi & Hs).
      destruct (lookup_lt_is_Some_2 (transfers_ s) i Hi) as [d Hd].
      specialize (H i (set_isSubmitted (bool_decide (submit i = LIBUSB_SUCCESS)) d)).
      subst l'. rewrite list_lookup_imap, Hd in H. specialize (H eq_refl).
      cbn in H. by rewrite bool_decide_eq_false in H.
    - intros H i x Hx. subst l'. rewrite list_lookup_imap in Hx.
      destruct (transfers_ s !! i) as [d|] eqn:Hd; [|done].
      injection Hx as <-. cbn. apply bool_decide_eq_false. intros Hs.
      apply H. exists i. split; [|done]. by eapply lookup_lt_Some. }
  destruct (count_if isSubmitted l' =? 0) eqn:E.
  - apply Z.eqb_eq in E. apply Hz in E. cbn. split; [|done]. split; [done|tauto].
  - apply Z.eqb_neq in E. cbn. split; [|done]. split; [intros _|done].
    rewrite count_if_zero in E. apply not_Forall_Exists in E; [|apply _].
    apply Exists_exists in E as (x & Hx & Hp).
    apply list_elem_of_lookup in Hx as [i Hx]. subst l'.
    rewrite list_lookup_imap in Hx.
    destruct (transfers_ s !! i) as [d|] eqn:Hd; [|done].
    injection Hx as <-. cbn in Hp. exists i. split; [by eapply lookup_lt_Some|].
    destruct (decide (submit i = LIBUSB_SUCCESS)) as [|Hne]; [done|].
    exfalso. apply Hp. by apply bool_decide_eq_false.
Qed.

(** **** The constructor *)

Lemma claim_endpoint_keeps usb i d ep s :
  transfers_ (claim_endpoint usb i d ep s).2 = transfers_ s /\
  state_ (claim_endpoint usb i d ep s).2 = state_ s.
Proof. unfold claim_endpoint. repeat case_match; done. Qed.

Lemma resolve_endpoints_keeps usb i d eps s r :
  resolve_endpoints usb i d eps s = Some r ->
  transfers_ r.2 = transfers_ s /\ state_ r.2 = state_ s.
Proof.
  induction eps as [|ep eps IH]; simpl; [done|].
  case_match; [|done]. intros [= <-]. apply claim_endpoint_keeps.
Qed.

Lemma resolve_altsettings_keeps usb i alts s r :
  resolve_altsettings usb i alts s = Some r ->
  transfers_ r.2 = transfers_ s /\ state_ r.2 = state_ s.
Proof.
  induction alts as [|d alts IH]; simpl; [done|].
  case_match; [|done].
  destruct (resolve_endpoints usb i d (endpoint d) s) eqn:E; [|done].
  intros [= <-]. by eapply resolve_endpoints_keeps.
Qed.

Lemma resolve_interfaces_keeps usb i ifs s r :
  resolve_interfaces usb i ifs s = Some r ->
  transfers_ r.2 = transfers_ s /\ state_ r.2 = state_ s.
Proof.
  revert i. induction ifs as [|itf ifs IH]; intros i; simpl; [done|].
  destruct (resolve_altsettings usb i (altsetting itf) s) eqn:E; [|by apply IH].
  intros [= <-]. by eapply resolve_altsettings_keeps.
Qed.

Lemma resolveAudioInterface_keeps usb s :
  transfers_ (resolveAudioInterface usb s).2 = transfers_ s /\
  state_ (resolveAudioInterface usb s).2 = state_ s.
Proof.
  unfold resolveAudioInterface. destruct (config_ s); [|done].
  destruct (resolve_interfaces usb 0 _ s) eqn:E; [|done].
  by eapply resolve_interfaces_keeps.
Qed.

(** Transfers are allocated on the one path that ends in
    [READY_TO_START]; every other path leaves the pool empty, in state
    [INITIAL] or [ERROR]. *)
Lemma constructor_pool env a b c d e f s :
  UsbAudioStreamer env a b c d e f = Some s ->
  state_ s = READY_TO_START \/
  ((state_ s = INITIAL \/ state_ s = ERROR) /\ transfers_ s = []).
Proof.
  unfold UsbAudioStreamer.
  repeat (case_match; try done;
          try (intros [= <-]; right; split; [by auto|done])); subst.
  - destruct (allocateTransferRequests _ _ _); [|done]. intros [= <-]. by left.
  - intros [= <-]. right. split; [by right|]. cbn.
    match goal with H : resolveAudioInterface ?u ?s0 = _ |- _ =>
      pose proof (resolveAudioInterface_keeps u s0) as [Ht _];
      rewrite H in Ht; exact Ht end.
Qed.

(** The sizing is defined on the inputs in range, where it computes the
    two ceilings. *)
Lemma ceiling_bounds a b :
  0 <= a -> 0 < b -> ceil_div a b (ceiling a b) /\ 0 <= ceiling a b <= a.
Proof.
  intros Ha Hb. unfold ceil_div, ceiling.
  pose proof (Z.div_mod (a + b - 1) b ltac:(lia)).
  pose proof (Z.mod_pos_bound (a + b - 1) b Hb).
  pose proof (Z.div_pos (a + b - 1) b ltac:(lia) Hb).
  set (q := (a + b - 1) / b) in *.
  assert (q <= a); [|split; [nia|lia]].
  destruct (decide (q <= a)) as [|Hq]; [done|].
  assert (b * (a + 1) <= b * q) by (apply Z.mul_le_mono_nonneg_l; lia). nia.
Qed.

Lemma transfer_sizing_in_range mps fpb cap sfs cc :
  sizing_in_range mps fpb cap sfs cc ->
  transfer_sizing mps fpb cap sfs cc
  = Some {| bytes_per_burst := fpb * sfs * cc;
            num_packets := Z.max 2 (ceiling (fpb * sfs * cc) mps);
            buffer_size := mps * Z.max 2 (ceiling (fpb * sfs * cc) mps);
            num_transfers := Z.max 2 (ceiling cap fpb);
            ring_buffer_capacity :=
              mps * Z.max 2 (ceiling (fpb * sfs * cc) mps)
              * Z.max 2 (ceiling cap fpb) / sfs |}.
Proof.
  intros (Hmps & Hfpb & Hcap & Hsfs & Hcc & Hfs & Hb & Hf & Hp).
  assert (0 <= fpb * sfs) as Hfs0 by nia.
  assert (0 <= fpb * sfs * cc) as Hbytes by nia.
  destruct (ceiling_bounds (fpb * sfs * cc) mps Hbytes Hmps) as [_ Hc1].
  destruct (ceiling_bounds cap fpb Hcap Hfpb) as [_ Hc2].
  unfold ceiling in *.
  set (np := Z.max 2 ((fpb * sfs * cc + mps - 1) / mps)) in *.
  set (nt := Z.max 2 ((cap + fpb - 1) / fpb)) in *.
  assert (2 <= np) by lia. assert (2 <= nt) by lia.
  assert (0 <= mps * np <= mps * np * nt) by nia.
  unfold transfer_sizing.
  rewrite (int_result_Some (fpb * sfs)) by lia. cbn [mbind option_bind].
  rewrite (int_result_Some (fpb * sfs * cc)) by lia. cbn [mbind option_bind].
  rewrite (int_result_Some (fpb * sfs * cc + mps)) by lia. cbn [mbind option_bind].
  rewrite (int_result_Some (fpb * sfs * cc + mps - 1)) by lia.
  cbn [mbind option_bind].
  rewrite int_div_Some by lia. cbn [mbind option_bind]. fold np.
  rewrite (int_result_Some (mps * np)) by lia. cbn [mbind option_bind].
  rewrite (int_result_Some (cap + fpb)) by lia. cbn [mbind option_bind].
  rewrite (int_result_Some (cap + fpb - 1)) by lia. cbn [mbind option_bind].
  rewrite int_div_Some by lia. cbn [mbind option_bind]. fold nt.
  rewrite (int_result_Some (mps * np * nt)) by lia. cbn [mbind option_bind].
  rewrite int_div_Some by lia. cbn [mbind option_bind].
  do 2 f_equal. apply u64_small.
  pose proof (Z.div_pos (mps * np * nt) sfs ltac:(lia) Hsfs).
  pose proof (Z.div_le_upper_bound (mps * np * nt) sfs (mps * np * nt) Hsfs
                ltac:(nia)).
  lia.
Qed.

(** The sizing is undefined when a divisor is zero. *)
Lemma transfer_sizing_zero_divisor mps fpb cap sfs cc :
  mps = 0 \/ fpb = 0 \/ sfs = 0 -> transfer_sizing mps fpb cap sfs cc = None.
Proof.
  intros Hz. unfold transfer_sizing.
  repeat (match goal with
          | |- context [int_result ?z] => destruct (int_result z); cbn
          | |- context [int_div ?a ?b] =>
              destruct (int_div a b) eqn:?; cbn
          end; try done).
  repeat match goal with
         | H : int_div _ _ = Some _ |- _ => apply int_div_inv in H
         end.
  lia.
Qed.

(** **** stop *)

Lemma stop_wait_loop_waits env budget tries s :
  (length (stop_wait_loop env budget tries s).2 <= budget)%nat /\
  Forall (fun w => w = wait_slice_ms) (stop_wait_loop env budget tries s).2.
Proof.
  revert tries s. induction budget as [|budget IH]; intros tries s; simpl.
  - case_match; simpl; split; (lia || constructor).
  - case_match; simpl; [|split; [lia|constructor]].
    specialize (IH (u8 (tries + 1)) (render_thread (during_wait env tries) s)).
    destruct (stop_wait_loop _ _ _ _) as [s' waits]. simpl in *.
    destruct IH. split; [lia|by constructor].
Qed.

(** **** The callbacks leave [state_] to the control thread *)

Lemma copy_packets_state env i packs len s :
  state_ (copy_packets env i packs len s).2 = state_ s.
Proof.
  revert i len s. induction packs as [|pack packs IH]; intros i len s; [done|].
  cbn [copy_packets]. case_match.
  - rewrite IH. by case_match.
  - destruct (RingBuffer.write _ _ _) as [result rb]. by rewrite IH.
Qed.

Lemma transferCallback_state env transfer s :
  state_ (transferCallback env transfer s).1 = state_ s.
Proof.
  unfold transferCallback.
  destruct transfer as [tr|]; [|done]. destruct (user_data tr); [|done].
  repeat (case_match; try done).
  all: match goal with
       | H : copy_packets ?e ?i ?p ?l ?s0 = _ |- _ =>
         pose proof (copy_packets_state e i p l s0) as Hs; rewrite H in Hs
       end; cbn in *; congruence.
Qed.

Lemma handle_events_state events s :
  state_ (handle_events events s).1 = state_ s.
Proof.
  revert s. induction events as [|[env tr] events IH]; intros s; [done|].
  cbn [handle_events].
  pose proof (transferCallback_state env tr s) as H1.
  destruct (transferCallback env tr s) as [s1 calls].
  specialize (IH s1). destruct (handle_events events s1) as [s2 calls'].
  cbn in *. congruence.
Qed.

Lemma audioPlaybackCallback_state events s audioData numFrames :
  state_ (audioPlaybackCallback events s audioData numFrames).1.1.2 = state_ s.
Proof.
  unfold audioPlaybackCallback, pump_events.
  pose proof (handle_events_state events (set_stats_of bump_event_loops s)) as H.
  destruct (handle_events _ _) as [s1 calls]. cbn in H.
  case_match; [done|].
  destruct (RingBuffer.read _ _ _) as [[moved rb] out]. done.
Qed.

Lemma render_thread_state calls s : state_ (render_thread calls s) = state_ s.
Proof.
  revert s. induction calls as [|c calls IH]; intros s; [done|].
  cbn [render_thread].
  pose proof (audioPlaybackCallback_state (rc_events c) s (rc_audioData c)
                (rc_numFrames c)) as H.
  destruct (audioPlaybackCallback _ _ _ _) as [[[r s1] block] cs].
  cbn in H. by rewrite IH.
Qed.

(** Until its last assignment, [stop] keeps the state at [STOPPING]. *)
Lemma stop_drain_state env s : state_ (stop_drain env s).1 = STOPPING.
Proof.
  unfold stop_drain.
  assert (forall budget tries s0,
            state_ (stop_wait_loop env budget tries s0).1 = state_ s0) as Hloop.
  { induction budget as [|budget IH]; intros tries s0; cbn [stop_wait_loop].
    - by case_match.
    - case_match; [|done].
      specialize (IH (u8 (tries + 1)) (render_thread (during_wait env tries) s0)).
      destruct (stop_wait_loop _ _ _ _) as [s1 waits]. cbn in *.
      by rewrite IH, render_thread_state. }
  specialize (Hloop 5%nat 0 (set_state STOPPING s)).
  destruct (stop_wait_loop _ _ _ _) as [s1 waits]. cbn in *.
  by rewrite render_thread_state.
Qed.

End StreamerFacts.

(** * The checked properties *)

Section RingBufferClaims.
Import RingBuffer RingBufferSpec.

(** C1.  The round trip of [write] and [read] at [n = capacity]: in a
    [RingBufferPcm] of capacity 4, writing the four samples 1, 2, 3, 4
    into the fresh buffer reports 4 samples stored, yet the following
    [read] of 4 samples returns 0 and leaves the caller's array
    untouched.  (For [0 < n < capacity] the samples come back in order:
    [write_then_read].) *)
Theorem C1_full_write_cannot_be_read_back :
  let res := write (make 0 4) (Some [1; 2; 3; 4]) 4 in
  res.1 = 4 /\
  read res.2 (Some [0; 0; 0; 0]) 4 = (0, res.2, Some [0; 0; 0; 0]).
Proof. split; reflexivity. Qed.

(** C2.  [size()] departs from the count of samples written minus samples
    read, saturated at the capacity: after one write of 4 samples into a
    fresh buffer of capacity 4 it is 0 where the count is 4, and after two
    writes of 3 samples it is 0 where the saturated count is 4.  (While the
    count stays below the capacity the two agree: [size_tracks_count].) *)
Theorem C2_size_is_not_the_saturated_count :
  size (run [Write [1; 2; 3; 4]] (make 0 4)) = 0 /\
  ref_size 4 [Write [1; 2; 3; 4]] = 4 /\
  size (run [Write [1; 2; 3]; Write [4; 5; 6]] (make 0 4)) = 0 /\
  ref_size 4 [Write [1; 2; 3]; Write [4; 5; 6]] = 4.
Proof. repeat split; reflexivity. Qed.

(** C9.  An oversized write returns the capacity and fills the storage
    with the last [capacity] elements of [data], but it leaves the read
    cursor on the write cursor, so the buffer reports itself empty and
    none of the samples kept can be read.  On a buffer of capacity 4,
    fresh or holding three samples, [write] of the six samples 1..6
    returns 4 and stores 3, 4, 5, 6; afterwards [size()] is 0 and a [read]
    of 4 samples returns 0 and copies nothing. *)
Theorem C9_oversized_write_leaves_nothing_to_read :
  (let res := write (make 0 4) (Some [1; 2; 3; 4; 5; 6]) 6 in
   res.1 = 4 /\ stored res.2 = [3; 4; 5; 6] /\
   size res.2 = 0 /\ content res.2 = [] /\
   read res.2 (Some [0; 0; 0; 0]) 4 = (0, res.2, Some [0; 0; 0; 0])) /\
  (let rb := (write (make 0 4) (Some [7; 8; 9]) 3).2 in
   let res := write rb (Some [1; 2; 3; 4; 5; 6]) 6 in
   size rb = 3 /\ res.1 = 4 /\ stored res.2 = [3; 4; 5; 6] /\
   size res.2 = 0 /\ content res.2 = [] /\
   read res.2 (Some [0; 0; 0; 0]) 4 = (0, res.2, Some [0; 0; 0; 0])).
Proof. repeat split; vm_compute; reflexivity. Qed.

(** C10.  In every state a buffer of capacity [c] reaches, [size()] is
    strictly below the capacity; and when the buffer is empty, writing
    exactly [c] samples brings the write cursor onto the read cursor, so
    that [size()] is 0 again and every [read] returns 0 samples. *)
Theorem C10_size_stays_below_capacity {T} (zero : T) (c : Z) (rb : RingBuffer.t T) :
  0 < c <= max_capacity -> reachable zero c rb ->
  0 <= size rb < capacity rb /\
  (size rb = 0 -> forall data, length data = Z.to_nat c ->
     let res := write rb (Some data) c in
     res.1 = c /\ writePos_ res.2 = readPos_ res.2 /\ size res.2 = 0 /\
     forall dst len, read res.2 (Some dst) len = (0, res.2, Some dst)).
Proof.
  intros Hc Hreach. destruct (reachable_wf zero c rb Hc Hreach) as [Hwf Hcap].
  destruct (size_eq rb Hwf) as (_ & Hsz & _). split; [exact Hsz|].
  intros Hempty data Hdata. subst c.
  apply (write_capacity_empty rb data Hwf Hempty). lia.
Qed.

Lemma C10_size_stays_below_capacity_witness :
  (0 < 4 <= max_capacity /\ reachable 0 4 (make 0 4)) /\
  0 <= size (make 0 4) < 4 /\
  let res := write (make 0 4) (Some [1; 2; 3; 4]) 4 in
  res.1 = 4 /\ writePos_ res.2 = readPos_ res.2 /\ size res.2 = 0 /\
  forall dst len, read res.2 (Some dst) len = (0, res.2, Some dst).
Proof.
  assert (0 < 4 <= max_capacity) as Hc by (rewrite max_capacity_eq; lia).
  split; [split; [exact Hc|constructor]|].
  destruct (C10_size_stays_below_capacity 0 4 (make 0 4) Hc (reach_make 0 4))
    as [Hsize Hfull].
  split; [exact Hsize|].
  exact (Hfull eq_refl [1; 2; 3; 4] eq_refl).
Defined.

End RingBufferClaims.

Section StreamerClaims.
Import UsbAudioStreamer StreamerSpec.
Implicit Types s : UsbAudioStreamer.t.

(** C3.  A failed negotiation step does not always end in [ERROR]: when
    [libusb_wrap_sys_device] fails the constructor returns with the state
    still [INITIAL] (the pool is empty), and when
    [AAudioStreamBuilder_openStream] fails while the other steps succeed
    the constructor goes on to allocate the five transfers and ends in
    [READY_TO_START]. *)
Theorem C3_failed_negotiation_is_not_always_error :
  (state_ <$> construct ctor_wrap_fails = Some INITIAL /\
   transfers_ <$> construct ctor_wrap_fails = Some []) /\
  (audioStream_ <$> construct ctor_open_fails = Some false /\
   state_ <$> construct ctor_open_fails = Some READY_TO_START /\
   length ∘ transfers_ <$> construct ctor_open_fails = Some 5%nat).
Proof. repeat split; vm_compute; reflexivity. Qed.

Lemma ceil_div_quot a b :
  0 <= a -> 0 < b -> ceil_div a b ((a + b - 1) ÷ b).
Proof.
  intros Ha Hb. unfold ceil_div.
  rewrite Z.quot_div_nonneg by lia.
  pose proof (Z.div_mod (a + b - 1) b ltac:(lia)).
  pose proof (Z.mod_pos_bound (a + b - 1) b Hb).
  nia.
Qed.

(** C4.  With [maxPacketSize = 192], [framesPerBurst = 192],
    [bufferCapacityInFrames = 960], [subFrameSize = 2] and
    [channelCount = 2] the sizing gives 768 bytes per burst, 4 packets,
    a 768-byte transfer buffer, 5 transfers and a ring of 1920 samples,
    and [allocateTransferRequests] builds that ring and that pool.  In
    general, for inputs on which no [int] step overflows or divides by
    zero, the sizing is defined, the packets per transfer are the ceiling
    of [bytes_per_burst / maxPacketSize], at least 2; the pool size is the
    ceiling of [bufferCapacityInFrames / framesPerBurst], at least 2; and
    the ring capacity is [buffer_size * num_transfers / subFrameSize]. *)
Theorem C4_pool_sizing :
  transfer_sizing 192 192 960 2 2 =
    Some {| bytes_per_burst := 768; num_packets := 4; buffer_size := 768;
            num_transfers := 5; ring_buffer_capacity := 1920 |} /\
  (construct ctor_ok = Some mic_streamer /\
   RingBuffer.capacity (ringBuffer_ mic_streamer) = 1920 /\
   length (transfers_ mic_streamer) = 5%nat) /\
  forall maxPacketSize framesPerBurst bufferCapacityInFrames subFrameSize
         channelCount,
    sizing_in_range maxPacketSize framesPerBurst bufferCapacityInFrames
      subFrameSize channelCount ->
    exists z,
      transfer_sizing maxPacketSize framesPerBurst bufferCapacityInFrames
        subFrameSize channelCount = Some z /\
      bytes_per_burst z = framesPerBurst * subFrameSize * channelCount /\
      (exists p, ceil_div (bytes_per_burst z) maxPacketSize p /\
                 num_packets z = Z.max 2 p) /\
      buffer_size z = maxPacketSize * num_packets z /\
      (exists q, ceil_div bufferCapacityInFrames framesPerBurst q /\
                 num_transfers z = Z.max 2 q) /\
      ring_buffer_capacity z = buffer_size z * num_transfers z ÷ subFrameSize.
Proof.
  split; [vm_compute; reflexivity|].
  split; [split; [vm_compute; reflexivity|split; vm_compute; reflexivity]|].
  intros mps fpb cap sfs cc Hrange.
  eexists. split; [by apply transfer_sizing_in_range|].
  destruct Hrange as (Hmps & Hfpb & Hcap & Hsfs & Hcc & Hfs & Hb & Hf & Hp).
  assert (0 <= fpb * sfs * cc) as Hbytes by nia.
  destruct (ceiling_bounds (fpb * sfs * cc) mps Hbytes Hmps) as [Hc1 ?].
  destruct (ceiling_bounds cap fpb Hcap Hfpb) as [Hc2 ?].
  cbn [bytes_per_burst num_packets buffer_size num_transfers
       ring_buffer_capacity].
  split; [done|]. split; [by eexists|]. split; [done|]. split; [by eexists|].
  rewrite Z.quot_div_nonneg; [done|nia|lia].
Qed.

Lemma C4_pool_sizing_witness :
  sizing_in_range 192 96 960 2 1 /\
  exists z, transfer_sizing 192 96 960 2 1 = Some z /\
    (exists p, ceil_div 192 192 p /\ num_packets z = Z.max 2 p) /\
    (exists q, ceil_div 960 96 q /\ num_transfers z = Z.max 2 q) /\
    ring_buffer_capacity z = buffer_size z * num_transfers z ÷ 2.
Proof.
  destruct C4_pool_sizing as (_ & _ & Hgen).
  assert (sizing_in_range 192 96 960 2 1) as Hrange
    by (unfold sizing_in_range, ceiling; vm_compute; intuition discriminate).
  destruct (Hgen 192 96 960 2 1 Hrange) as (z & Hz & Hb & Hp & _ & Hq & Hring).
  split; [exact Hrange|]. exists z. split; [exact Hz|].
  rewrite Hb in Hp. split; [exact Hp|]. split; [exact Hq|exact Hring].
Defined.

(** C6.  In a state other than [READY_TO_START], [start] returns [false]
    and leaves the object as it was, issuing no call to the USB stack.
    From [READY_TO_START] it returns [true] in state [STARTED] when a
    slot was accepted, the audio player started and the wait for the
    state change succeeded; when no slot is accepted, or the player does
    not start, or the wait fails, it returns [false] in state [ERROR]. *)
Theorem C6_start (env : StartEnv) s :
  Z.of_nat (length (transfers_ s)) < 2 ^ 31 ->
  (state_ s <> READY_TO_START -> start env s = (false, s, [])) /\
  (state_ s = READY_TO_START ->
     let '(ok, s', calls) := start env s in
     let confirmed :=
       startAudioPlayer env = true /\ waitForStateChange_result env = AAUDIO_OK in
     (some_slot_accepted (submit_transfer env) s /\ confirmed ->
        ok = true /\ state_ s' = STARTED) /\
     (~ some_slot_accepted (submit_transfer env) s \/ ~ confirmed ->
        ok = false /\ state_ s' = ERROR)).
Proof.
  intros Hlen. unfold start. split.
  - intros Hne. by rewrite bool_decide_eq_true_2.
  - intros Heq. rewrite bool_decide_eq_false_2 by (by intros []).
    pose proof (submitTransferRequests_spec (submit_transfer env)
                  (prepared_for_start s) Hlen) as Hsub.
    fold (prepared_for_start s).
    destruct (submitTransferRequests _ _) as [[ok1 s1] calls].
    destruct Hsub as (Hok & Hst & _).
    change (some_slot_accepted (submit_transfer env) (prepared_for_start s))
      with (some_slot_accepted (submit_transfer env) s) in Hok.
    destruct ok1; cbn [negb].
    + destruct (startAudioPlayer env); cbn [negb].
      * destruct (decide (waitForStateChange_result env = AAUDIO_OK)) as [Hr|Hr].
        -- rewrite bool_decide_eq_false_2 by (by intros []).
           split; [done|]. intros [H|H]; [|tauto]. destruct H. by apply Hok.
        -- rewrite bool_decide_eq_true_2 by done. split; [tauto|done].
      * split; [|done]. by intros (_ & ? & _).
    + split; [|done]. intros [H _]. apply Hok in H. done.
Qed.

Lemma C6_start_witness :
  (Z.of_nat (length (transfers_ mic_streamer)) < 2 ^ 31 /\
   state_ mic_streamer = READY_TO_START) /\
  (start start_ok (set_state STARTED mic_streamer)
     = (false, set_state STARTED mic_streamer, [])) /\
  (start start_ok mic_streamer).1.1 = true /\
  state_ (start start_ok mic_streamer).1.2 = STARTED.
Proof.
  assert (Z.of_nat (length (transfers_ mic_streamer)) < 2 ^ 31) as Hlen
    by reflexivity.
  split; [split; [exact Hlen|reflexivity]|]. split.
  - apply (C6_start start_ok (set_state STARTED mic_streamer) Hlen).
    discriminate.
  - pose proof (proj2 (C6_start start_ok mic_streamer Hlen) eq_refl) as H.
    destruct (start start_ok mic_streamer) as [[ok s'] calls].
    apply H. split; [|split; reflexivity].
    exists 0%nat. split; [|reflexivity]. vm_compute. lia.
Defined.

(** C7.  When the completed transfer's status is [NO_DEVICE], the
    callback only marks the transfer's slot not in flight: it issues no
    resubmission, and the ring buffer, the statistics and the state are
    as before. *)
Theorem C7_device_lost_callback (env : CallbackEnv) (tr : libusb_transfer)
    (slot : nat) s :
  status tr = LIBUSB_TRANSFER_NO_DEVICE -> user_data tr = Some slot ->
  let '(s', calls) := transferCallback env (Some tr) s in
  calls = [] /\
  s' = set_transfers (alter (set_isSubmitted false) slot (transfers_ s)) s /\
  (forall d, transfers_ s' !! slot = Some d -> isSubmitted d = false) /\
  (forall j, j <> slot -> transfers_ s' !! j = transfers_ s !! j) /\
  ringBuffer_ s' = ringBuffer_ s /\
  streamerStats_ s' = streamerStats_ s /\
  state_ s' = state_ s.
Proof.
  intros Hst Hud. unfold transferCallback. rewrite Hud, Hst.
  rewrite bool_decide_eq_true_2 by done. cbn.
  repeat split; try done.
  - intros d. rewrite list_lookup_alter, decide_True by done.
    destruct (transfers_ s !! slot); intros; by simplify_eq/=.
  - intros j Hj. by rewrite list_lookup_alter_ne.
Qed.

Lemma C7_device_lost_callback_witness :
  let s := (start start_ok mic_streamer).1.2 in
  (status lost_transfer = LIBUSB_TRANSFER_NO_DEVICE /\
   user_data lost_transfer = Some 1%nat) /\
  let '(s', calls) := transferCallback callback_env (Some lost_transfer) s in
  calls = [] /\
  isSubmitted <$> transfers_ s' = [true; false; true; true; true] /\
  ringBuffer_ s' = ringBuffer_ s /\ streamerStats_ s' = streamerStats_ s.
Proof.
  cbv zeta. split; [split; reflexivity|].
  pose proof (C7_device_lost_callback callback_env lost_transfer 1
                (start start_ok mic_streamer).1.2 eq_refl eq_refl) as H.
  destruct (transferCallback _ _ _) as [s' calls].
  destruct H as (Hc & Hs & _ & _ & Hrb & Hstats & _).
  split; [exact Hc|]. split; [by rewrite Hs|]. split; [exact Hrb|exact Hstats].
Defined.


(** C8.  When the render callback asks for [k = channelCount * numFrames]
    samples and the ring buffer it then inspects (after the event pump
    has run the due completions) holds fewer than [k], the first
    [bytesInAudioFrames(numFrames)] bytes of the output block are zero and
    the rest of the block is untouched, the ring buffer is left exactly as
    inspected (equal to the buffer on entry when no completion was due),
    and the callback returns [CONTINUE]. *)
Theorem C8_underrun_renders_silence
    (events : list (CallbackEnv * option libusb_transfer)) s
    (audioData : list Z) (numFrames : Z) :
  let k := channelCount_ s * numFrames in
  let bytes := Z.to_nat (bytesInAudioFrames s numFrames) in
  let inspected := (pump_events events s).1 in
  0 <= k < 2 ^ 31 ->
  RingBuffer.size (ringBuffer_ inspected) < k ->
  (bytes <= length audioData)%nat ->
  let '(result, s', block, calls) :=
    audioPlaybackCallback events s audioData numFrames in
  result = AAUDIO_CALLBACK_RESULT_CONTINUE /\
  block = replicate bytes 0 ++ drop bytes audioData /\
  length block = length audioData /\
  ringBuffer_ s' = ringBuffer_ inspected /\
  (events = [] -> ringBuffer_ s' = ringBuffer_ s).
Proof.
  intros k bytes inspected Hk Hsize Hbytes.
  subst k bytes inspected. unfold audioPlaybackCallback.
  assert (events = [] -> ringBuffer_ (pump_events events s).1 = ringBuffer_ s)
    as Hnone by (by intros ->).
  destruct (pump_events events s) as [s1 calls]. cbn [fst] in *.
  rewrite u64_small by lia.
  rewrite (proj2 (Z.ltb_lt _ _) Hsize).
  unfold memset0.
  repeat split; try done.
  rewrite length_app, length_replicate, length_drop. lia.
Qed.

Lemma C8_underrun_renders_silence_witness :
  let s := (start start_ok mic_streamer).1.2 in
  let audioData := [1; 2; 3; 4; 5; 6; 7; 8; 9; 10] in
  (0 <= channelCount_ s * 2 < 2 ^ 31 /\
   RingBuffer.size (ringBuffer_ (pump_events [] s).1) < channelCount_ s * 2 /\
   (Z.to_nat (bytesInAudioFrames s 2) <= length audioData)%nat) /\
  let '(result, s', block, calls) := audioPlaybackCallback [] s audioData 2 in
  result = AAUDIO_CALLBACK_RESULT_CONTINUE /\
  block = [0; 0; 0; 0; 0; 0; 0; 0; 9; 10] /\
  ringBuffer_ s' = ringBuffer_ s.
Proof.
  cbv zeta.
  assert (0 <= channelCount_ (start start_ok mic_streamer).1.2 * 2 < 2 ^ 31)
    as H1 by (vm_compute; split; [discriminate|reflexivity]).
  assert (RingBuffer.size
            (ringBuffer_ (pump_events [] (start start_ok mic_streamer).1.2).1)
          < channelCount_ (start start_ok mic_streamer).1.2 * 2)
    as H2 by reflexivity.
  assert (Z.to_nat (bytesInAudioFrames (start start_ok mic_streamer).1.2 2)
          <= length [1; 2; 3; 4; 5; 6; 7; 8; 9; 10])%nat
    as H3 by (vm_compute; lia).
  split; [split; [exact H1|split; [exact H2|exact H3]]|].
  pose proof (C8_underrun_renders_silence [] (start start_ok mic_streamer).1.2
                [1; 2; 3; 4; 5; 6; 7; 8; 9; 10] 2 H1 H2 H3) as H.
  destruct (audioPlaybackCallback _ _ _ _) as [[[result s'] block] calls].
  destruct H as (Hr & Hb & _ & _ & Hrb).
  split; [exact Hr|]. split; [exact Hb|]. exact (Hrb eq_refl).
Defined.

End StreamerClaims.

(** * Further properties of RingBuffer *)

Section RingBufferQueue.
Import RingBuffer RingBufferSpec.
Context {T : Type}.
Implicit Types rb : RingBuffer.t T.

Lemma content_lookup rb (i : nat) :
  wf rb ->
  content rb !! i =
    if decide (i < Z.to_nat (size rb))%nat
    then buffer_ rb !! ring_index (Z.to_nat (capacity_ rb)) (Z.to_nat (readPos_ rb)) i
    else None.
Proof.
  intros Hwf. pose proof Hwf as (Hc & Hr & Hw & Hb).
  destruct (size_eq rb Hwf) as (_ & Hsz & _).
  unfold content, stored, rotate. rewrite lookup_take.
  case_decide as Hi; [|done].
  rewrite Hb, Nat.mod_small by lia. unfold ring_index.
  case_decide.
  - rewrite lookup_app_l by (rewrite length_drop; lia).
    by rewrite lookup_drop.
  - rewrite lookup_app_r by (rewrite length_drop; lia).
    rewrite length_drop, lookup_take_lt by lia. f_equal. lia.
Qed.

Lemma length_content rb : wf rb -> length (content rb) = Z.to_nat (size rb).
Proof.
  intros Hwf. pose proof Hwf as (Hc & Hr & Hw & Hb).
  destruct (size_eq rb Hwf) as (_ & Hsz & _).
  unfold content, stored. rewrite length_take, length_rotate. lia.
Qed.

(** The cursors as natural numbers: the write cursor is [size] cells ahead
    of the read cursor, round the ring. *)
Lemma cursor_distance rb :
  wf rb ->
  (Z.to_nat (readPos_ rb) <= Z.to_nat (writePos_ rb) /\
   Z.to_nat (size rb) = Z.to_nat (writePos_ rb) - Z.to_nat (readPos_ rb))%nat \/
  (Z.to_nat (writePos_ rb) < Z.to_nat (readPos_ rb) /\
   Z.to_nat (size rb) = Z.to_nat (writePos_ rb) + Z.to_nat (capacity_ rb)
                        - Z.to_nat (readPos_ rb))%nat.
Proof.
  intros Hwf. pose proof Hwf as (Hc & Hr & Hw & Hb).
  destruct (size_eq rb Hwf) as (-> & _).
  rewrite mod_wrap by lia. case_match; rewrite ?Z.ltb_lt, ?Z.ltb_ge in *; lia.
Qed.

Lemma content_after_write rb data len :
  wf rb -> 0 < len -> size rb + len < capacity_ rb ->
  (Z.to_nat len <= length data)%nat ->
  content (write rb (Some data) len).2 = content rb ++ take (Z.to_nat len) data.
Proof.
  intros Hwf Hlen Hfit Hdata.
  pose proof Hwf as (Hc & Hr & Hw & Hb).
  destruct (size_eq rb Hwf) as (_ & Hsz & _).
  pose proof (wf_write rb (Some data) len Hwf) as Hwf1.
  pose proof (size_after_write rb data len Hwf Hlen Hfit Hdata) as Hsize.
  destruct (write_spec rb data len Hwf ltac:(lia) Hdata)
    as (_ & Hcap & _ & Hrp & Hbuf).
  revert Hrp. zcmp. intros Hrp.
  pose proof (cursor_distance rb Hwf) as Hdist.
  apply list_eq. intros i.
  rewrite content_lookup, Hsize, Hcap, Hrp by done.
  destruct (decide (i < Z.to_nat (size rb))%nat) as [Hi|Hi].
  - rewrite lookup_app_l by (rewrite length_content by done; lia).
    rewrite content_lookup, !decide_True by (done || lia).
    unfold ring_index in *.
    case_decide; (rewrite Hbuf by lia); cbv zeta; unfold ring_offset;
      repeat case_decide; try lia; done.
  - rewrite lookup_app_r by (rewrite length_content by done; lia).
    rewrite length_content by done.
    case_decide as Hi'.
    + rewrite lookup_take_lt by lia. unfold ring_index in *.
      case_decide; (rewrite Hbuf by lia); cbv zeta; unfold ring_offset;
        repeat case_decide; try lia; f_equal; lia.
    + symmetry. apply lookup_ge_None_2. rewrite length_take. lia.
Qed.

Lemma mod_eq_of a b c :
  0 < c -> 0 <= b < c -> (exists q, a = b + q * c) -> a mod c = b.
Proof.
  intros Hc Hb [q ->]. rewrite Z.mod_add by lia. apply Z.mod_small. lia.
Qed.

Lemma read_empty rb dst len :
  size rb = 0 -> read rb (Some dst) len = (0, rb, Some dst).
Proof. intros H. unfold read. by rewrite H. Qed.

Lemma content_after_read rb dst len :
  wf rb -> 0 < len ->
  (Z.to_nat (Z.min len (size rb)) <= length dst)%nat ->
  let k := Z.to_nat (Z.min len (size rb)) in
  exists rb' out,
    read rb (Some dst) len = (Z.min len (size rb), rb', Some out) /\
    take k out = take k (content rb) /\
    drop k out = drop k dst /\
    content rb' = drop k (content rb) /\
    size rb' = size rb - Z.min len (size rb) /\
    buffer_ rb' = buffer_ rb /\ writePos_ rb' = writePos_ rb.
Proof.
  intros Hwf Hlen Hdst k.
  pose proof Hwf as (Hc & Hr & Hw & Hb).
  destruct (size_eq rb Hwf) as (_ & Hsz & _).
  destruct (decide (size rb = 0)) as [Hz|Hnz].
  { exists rb, dst. subst k. rewrite read_empty by done.
    rewrite Hz, Z.min_r by lia. cbn [Z.to_nat]. rewrite !take_0, !drop_0.
    repeat split; done. }
  pose proof (wf_read rb (Some dst) len Hwf) as Hwf1.
  pose proof (size_after_read rb dst len Hwf Hlen Hdst) as Hsize.
  destruct (read_spec rb dst len Hwf Hlen Hnz Hdst) as (out & Hread & Hlen' & Hout).
  rewrite Hread in Hwf1, Hsize. cbn [fst snd] in Hwf1, Hsize.
  eexists _, out. split; [exact Hread|].
  fold k in Hout.
  assert (k <= Z.to_nat (size rb))%nat as Hk by (subst k; lia).
  assert (0 < k)%nat as Hk0 by (subst k; lia).
  split; [|split; [|split; [|split; [exact Hsize|done]]]].
  - apply list_eq. intros i. rewrite !lookup_take, Hout.
    case_decide; [|done]. rewrite content_lookup by done.
    by rewrite decide_True by lia.
  - apply list_eq. intros i. rewrite !lookup_drop, Hout.
    by rewrite decide_False by lia.
  - apply list_eq. intros i.
    rewrite lookup_drop, !content_lookup, Hsize by done.
    cbn [capacity_ readPos_ buffer_].
    replace (Z.to_nat (size rb - Z.min len (size rb)))
      with (Z.to_nat (size rb) - k)%nat by (subst k; lia).
    rewrite mod_wrap by lia. unfold ring_index.
    destruct (readPos_ rb + Z.min len (size rb) <? capacity_ rb) eqn:E;
      [apply Z.ltb_lt in E|apply Z.ltb_ge in E]; subst k;
      repeat case_decide; try lia; try done; f_equal; lia.
Qed.

(** The cursors after a write that needs no truncation; the input array
    plays no part in them. *)
Lemma write_cursors rb data len :
  wf rb -> 0 < len <= capacity_ rb ->
  let res := write rb (Some data) len in
  res.1 = len /\
  writePos_ res.2 = (writePos_ rb + len) mod capacity_ rb /\
  readPos_ res.2 =
    (if capacity_ rb <? size rb + len
     then (readPos_ rb + size rb + len) mod capacity_ rb else readPos_ rb).
Proof.
  intros Hwf Hlen.
  pose proof Hwf as (Hc & Hr & Hw & Hb).
  pose proof Hc as Hc'. rewrite max_capacity_eq in Hc'.
  destruct (size_eq rb Hwf) as (_ & Hsz & Hsz').
  unfold write. zcmp. cbv zeta.
  destruct (cursor_mod (writePos_ rb + len) (capacity_ rb) Hc ltac:(lia))
    as (_ & He & He' & Hrange).
  cbn [fst snd capacity_ readPos_ writePos_ buffer_].
  rewrite He', Hsz'. split; [done|]. split; [done|].
  rewrite Z.gtb_ltb. case_match; [|done].
  by destruct (cursor_mod (readPos_ rb + size rb + len) (capacity_ rb)
                 Hc ltac:(lia)) as (-> & _).
Qed.

Lemma write_filling_empties rb data len :
  wf rb -> 0 < len -> capacity_ rb <= size rb + Z.min len (capacity_ rb) ->
  let res := write rb (Some data) len in
  res.1 = Z.min len (capacity_ rb) /\
  readPos_ res.2 = writePos_ res.2 /\ size res.2 = 0.
Proof.
  intros Hwf Hlen Hfull.
  pose proof Hwf as (Hc & Hr & Hw & Hb).
  destruct (size_eq rb Hwf) as (Hsz & Hszr & _).
  pose proof (wf_write rb (Some data) len Hwf) as Hwf1.
  cbv zeta.
  assert (exists data' len', write rb (Some data) len = write rb (Some data') len'
            /\ len' = Z.min len (capacity_ rb)) as (data' & len' & Heq & Hlen').
  { destruct (decide (capacity_ rb < len)).
    - eexists _, _. split; [by apply write_truncates; lia|lia].
    - exists data, len. split; [done|lia]. }
  rewrite Heq in *.
  destruct (write_cursors rb data' len' Hwf ltac:(lia)) as (H1 & Hwp & Hrp).
  assert (readPos_ (write rb (Some data') len').2
          = writePos_ (write rb (Some data') len').2) as Hsame.
  { rewrite Hrp, Hwp. clear Hrp Hwp H1 Heq.
    rewrite Hsz in *.
    rewrite (mod_wrap (writePos_ rb + capacity_ rb - readPos_ rb)) in * by lia.
    rewrite (mod_wrap (writePos_ rb + len')) by lia.
    repeat case_match; rewrite ?Z.ltb_lt, ?Z.ltb_ge in *; try lia;
      (apply mod_eq_of; [lia|lia|];
       first [by exists 0; lia | by exists 1; lia | by exists 2; lia]). }
  split; [lia|]. split; [done|]. by apply size_empty.
Qed.

End RingBufferQueue.

Section RingBufferMore.
Import RingBuffer RingBufferSpec.

(** Every state a buffer of capacity [c] can reach keeps its capacity, has
    both cursors below it and a storage of exactly [c] cells. *)
Theorem ring_invariant {T} (zero : T) (c : Z) (rb : RingBuffer.t T) :
  0 < c <= max_capacity -> reachable zero c rb ->
  capacity rb = c /\
  0 <= readPos_ rb < c /\ 0 <= writePos_ rb < c /\
  length (buffer_ rb) = Z.to_nat c.
Proof.
  intros Hc Hreach.
  destruct (reachable_wf zero c rb Hc Hreach) as [(_ & Hr & Hw & Hb) Hcap].
  unfold capacity. rewrite Hcap in *. done.
Qed.

Lemma ring_invariant_witness :
  let rb := (write (read (write (make 0 4) (Some [1; 2; 3]) 3).2
                      (Some [0; 0]) 2).1.2 (Some [4; 5; 6]) 3).2 in
  (0 < 4 <= max_capacity /\ reachable 0 4 rb) /\
  capacity rb = 4 /\ 0 <= readPos_ rb < 4 /\ 0 <= writePos_ rb < 4 /\
  length (buffer_ rb) = 4%nat.
Proof.
  assert (0 < 4 <= max_capacity) as Hc by (rewrite max_capacity_eq; lia).
  assert (reachable 0 4
            (write (read (write (make 0 4) (Some [1; 2; 3]) 3).2
                      (Some [0; 0]) 2).1.2 (Some [4; 5; 6]) 3).2) as Hreach
    by (repeat constructor).
  split; [split; [exact Hc|exact Hreach]|].
  exact (ring_invariant 0 4 _ Hc Hreach).
Defined.

(** [write] ignores a null array or a count that is not positive, and
    [read] a null array, a count that is not positive or an empty buffer:
    each returns 0 and leaves the buffer and the caller's array as they
    were. *)
Theorem ignored_calls {T} (rb : RingBuffer.t T) (data : option (list T))
    (dst : list T) (len : Z) :
  (len <= 0 -> write rb data len = (0, rb) /\ read rb data len = (0, rb, data)) /\
  write rb None len = (0, rb) /\
  read rb None len = (0, rb, None) /\
  (size rb = 0 -> read rb (Some dst) len = (0, rb, Some dst)).
Proof.
  repeat split; try done.
  - unfold write. destruct data; [|done]. by zcmp.
  - unfold read. destruct data; [|done]. zcmp. by rewrite orb_true_r.
  - apply read_empty.
Qed.

Lemma ignored_calls_witness :
  let rb := (write (make 0 4) (Some [1; 2]) 2).2 in
  (-1 <= 0 /\ size (make 0 4) = 0) /\
  write rb (Some [7; 8]) (-1) = (0, rb) /\
  read rb (Some [7; 8]) (-1) = (0, rb, Some [7; 8]) /\
  read (make 0 4) (Some [7; 8]) 2 = (0, make 0 4, Some [7; 8]).
Proof.
  cbv zeta. split; [split; [discriminate|reflexivity]|].
  destruct (ignored_calls (write (make 0 4) (Some [1; 2]) 2).2
              (Some [7; 8]) [7; 8] (-1)) as (Hneg & _).
  destruct (Hneg ltac:(discriminate)) as [Hw Hr].
  split; [exact Hw|]. split; [exact Hr|].
  exact (proj2 (proj2 (proj2 (ignored_calls (make 0 4) None [7; 8] 2))) eq_refl).
Defined.

(** A write that leaves the buffer short of full appends its samples to the
    queue: the samples still to be read are the old ones followed by the
    new ones, and [size()] grows by the count written. *)
Theorem write_appends {T} (rb : RingBuffer.t T) (data : list T) (len : Z) :
  wf rb -> 0 < len -> size rb + len < capacity rb ->
  (Z.to_nat len <= length data)%nat ->
  let res := write rb (Some data) len in
  res.1 = len /\
  content res.2 = content rb ++ take (Z.to_nat len) data /\
  size res.2 = size rb + len.
Proof.
  intros Hwf Hlen Hfit Hdata. unfold capacity in *. cbv zeta.
  destruct (size_eq rb Hwf) as (_ & Hsz & _).
  destruct (write_cursors rb data len Hwf ltac:(lia)) as (H1 & _).
  split; [exact H1|]. split.
  - by apply content_after_write.
  - by apply size_after_write.
Qed.

Lemma write_appends_witness :
  let rb := (read (write (make 0 4) (Some [1; 2; 3]) 3).2 (Some [0; 0]) 2).1.2 in
  (wf rb /\ size rb + 2 < capacity rb) /\
  content rb = [3] /\
  let res := write rb (Some [4; 5]) 2 in
  res.1 = 2 /\ content res.2 = [3; 4; 5] /\ size res.2 = 3.
Proof.
  cbv zeta.
  assert (wf (read (write (make 0 4) (Some [1; 2; 3]) 3).2 (Some [0; 0]) 2).1.2)
    as Hwf.
  { apply wf_read, wf_write, wf_make. rewrite max_capacity_eq. lia. }
  split; [split; [exact Hwf|reflexivity]|]. split; [reflexivity|].
  exact (write_appends _ [4; 5] 2 Hwf eq_refl eq_refl (le_n 2)).
Defined.

(** [read] takes from the front of the queue.  It returns
    [min(len, size())]; that many of the oldest samples are copied, in
    order, to the start of the caller's array, whose other cells are left
    alone; the samples still to be read are the remaining ones; the
    storage and the write cursor are not touched. *)
Theorem read_takes_oldest {T} (rb : RingBuffer.t T) (dst : list T) (len : Z) :
  wf rb -> 0 < len ->
  (Z.to_nat (Z.min len (size rb)) <= length dst)%nat ->
  let k := Z.to_nat (Z.min len (size rb)) in
  exists rb' out,
    read rb (Some dst) len = (Z.min len (size rb), rb', Some out) /\
    take k out = take k (content rb) /\
    drop k out = drop k dst /\
    content rb' = drop k (content rb) /\
    size rb' = size rb - Z.min len (size rb) /\
    buffer_ rb' = buffer_ rb /\ writePos_ rb' = writePos_ rb.
Proof. apply content_after_read. Qed.

Lemma read_takes_oldest_witness :
  let rb := (write (make 0 4) (Some [1; 2; 3]) 3).2 in
  (wf rb /\ (Z.to_nat (Z.min 2 (size rb)) <= length [9; 9; 9])%nat) /\
  exists rb' out,
    read rb (Some [9; 9; 9]) 2 = (2, rb', Some out) /\
    out = [1; 2; 9] /\ content rb' = [3].
Proof.
  cbv zeta.
  assert (wf (write (make 0 4) (Some [1; 2; 3]) 3).2) as Hwf.
  { apply wf_write, wf_make. rewrite max_capacity_eq. lia. }
  assert (Z.to_nat (Z.min 2 (size (write (make 0 4) (Some [1; 2; 3]) 3).2))
          <= length [9; 9; 9])%nat as Hdst by (vm_compute; lia).
  split; [split; [exact Hwf|exact Hdst]|].
  destruct (read_takes_oldest _ [9; 9; 9] 2 Hwf eq_refl Hdst)
    as (rb' & out & Hread & _ & _ & Hc & _).
  exists rb', out. split; [exact Hread|].
  split; [|exact Hc]. vm_compute in Hread. by simplify_eq.
Defined.

(** Writing [n < capacity] samples into an empty buffer and reading [n]
    gives the samples back in order and leaves the buffer empty. *)
Theorem round_trip_below_capacity {T} (rb : RingBuffer.t T) (data dst : list T)
    (n : Z) :
  wf rb -> size rb = 0 -> 0 < n < capacity rb ->
  length data = Z.to_nat n -> (Z.to_nat n <= length dst)%nat ->
  exists rb1 rb2 out,
    write rb (Some data) n = (n, rb1) /\ size rb1 = n /\
    read rb1 (Some dst) n = (n, rb2, Some out) /\
    take (Z.to_nat n) out = data /\ size rb2 = 0.
Proof. apply write_then_read. Qed.

Lemma round_trip_below_capacity_witness :
  (wf (make 0 4) /\ size (make 0 4) = 0 /\ 0 < 3 < capacity (make 0 4)) /\
  exists rb1 rb2 out,
    write (make 0 4) (Some [1; 2; 3]) 3 = (3, rb1) /\ size rb1 = 3 /\
    read rb1 (Some [0; 0; 0]) 3 = (3, rb2, Some out) /\
    take 3 out = [1; 2; 3] /\ size rb2 = 0.
Proof.
  assert (wf (make 0 4)) as Hwf by (apply wf_make; rewrite max_capacity_eq; lia).
  split; [split; [exact Hwf|split; [reflexivity|split; reflexivity]]|].
  exact (round_trip_below_capacity (make 0 4) [1; 2; 3] [0; 0; 0] 3 Hwf eq_refl
           (conj eq_refl eq_refl) eq_refl (le_n 3)).
Defined.

(** For a call sequence on a fresh buffer during which the count of
    samples written minus samples read stays below the capacity, [size()]
    is that count. *)
Theorem size_is_count_below_capacity (c : Z) (ops : list op) :
  0 < c <= max_capacity -> never_full c 0 ops ->
  size (run ops (make 0 c)) = ref_size c ops.
Proof.
  intros Hc Hnf. pose proof (wf_make 0 c Hc) as Hwf.
  pose proof (size_tracks_count ops (make 0 c) Hwf) as H.
  assert (size (make 0 c) = 0) as Hz by (by apply size_empty).
  rewrite Hz in H. apply H. exact Hnf.
Qed.

Lemma size_is_count_below_capacity_witness :
  let ops := [Write [1; 2]; Read 1; Write [3; 4]; Read 5; Write [6]] in
  (0 < 4 <= max_capacity /\ never_full 4 0 ops) /\
  size (run ops (make 0 4)) = 1 /\ ref_size 4 ops = 1.
Proof.
  cbv zeta.
  assert (0 < 4 <= max_capacity) as Hc by (rewrite max_capacity_eq; lia).
  assert (never_full 4 0 [Write [1; 2]; Read 1; Write [3; 4]; Read 5; Write [6]])
    as Hnf by (cbn; repeat split; reflexivity).
  split; [split; [exact Hc|exact Hnf]|].
  split; [|reflexivity].
  rewrite (size_is_count_below_capacity 4 _ Hc Hnf). reflexivity.
Defined.

(** A write that reaches or passes the free room ([size() + len] at least
    the capacity, [len] counted after truncation) leaves the read cursor on
    the write cursor: [size()] is 0 afterwards, although the call reports
    the samples as stored. *)
Theorem write_reaching_capacity_empties {T} (rb : RingBuffer.t T)
    (data : list T) (len : Z) :
  wf rb -> 0 < len -> capacity rb <= size rb + Z.min len (capacity rb) ->
  let res := write rb (Some data) len in
  res.1 = Z.min len (capacity rb) /\
  readPos_ res.2 = writePos_ res.2 /\ size res.2 = 0 /\ content res.2 = [].
Proof.
  intros Hwf Hlen Hfull. unfold capacity in *.
  destruct (write_filling_empties rb data len Hwf Hlen Hfull) as (H1 & H2 & H3).
  cbv zeta. repeat split; try done.
  unfold content. by rewrite H3.
Qed.

Lemma write_reaching_capacity_empties_witness :
  let rb := (write (make 0 4) (Some [1; 2; 3]) 3).2 in
  (wf rb /\ capacity rb <= size rb + Z.min 2 (capacity rb)) /\
  let res := write rb (Some [4; 5]) 2 in
  res.1 = 2 /\ readPos_ res.2 = writePos_ res.2 /\ size res.2 = 0 /\
  content res.2 = [].
Proof.
  cbv zeta.
  assert (wf (write (make 0 4) (Some [1; 2; 3]) 3).2) as Hwf.
  { apply wf_write, wf_make. rewrite max_capacity_eq. lia. }
  assert (capacity (write (make 0 4) (Some [1; 2; 3]) 3).2
          <= size (write (make 0 4) (Some [1; 2; 3]) 3).2
             + Z.min 2 (capacity (write (make 0 4) (Some [1; 2; 3]) 3).2)) as Hfull
    by (vm_compute; discriminate).
  split; [split; [exact Hwf|exact Hfull]|].
  exact (write_reaching_capacity_empties _ [4; 5] 2 Hwf eq_refl Hfull).
Defined.

End RingBufferMore.

(** * Further properties of UsbAudioStreamer *)

Section CallbackFacts.
Import UsbAudioStreamer StreamerSpec RingBufferSpec.
Implicit Types s : UsbAudioStreamer.t.

Lemma write_capacity {T} (rb : RingBuffer.t T) data len :
  RingBuffer.capacity_ (RingBuffer.write rb data len).2 = RingBuffer.capacity_ rb.
Proof. unfold RingBuffer.write. repeat case_match; done. Qed.


(** The packet loop touches the ring buffer and the time of the last error
    log, nothing else. *)
Lemma copy_packets_frame env i packs len s :
  exists rb logged,
    (copy_packets env i packs len s).2
    = set_callbackErrorLoggedAt logged (set_ringBuffer rb s).
Proof.
  revert i len s. induction packs as [|pack packs IH]; intros i len s.
  - exists (ringBuffer_ s), (callbackErrorLoggedAt_ s). by destruct s.
  - cbn [copy_packets]. case_match.
    + case_match.
      * destruct (IH (S i) len (set_callbackErrorLoggedAt (packet_clock env i) s))
          as (rb & logged & ->).
        exists rb, logged. by destruct s.
      * apply IH.
    + destruct (RingBuffer.write _ _ _) as [result rb0].
      destruct (IH (S i) (i32 (u32 (len + actual_length pack))) (set_ringBuffer rb0 s))
        as (rb & logged & ->).
      exists rb, logged. by destruct s.
Qed.

Lemma copy_packets_ring env i packs len s :
  wf (ringBuffer_ s) ->
  wf (ringBuffer_ (copy_packets env i packs len s).2) /\
  RingBuffer.capacity_ (ringBuffer_ (copy_packets env i packs len s).2)
  = RingBuffer.capacity_ (ringBuffer_ s).
Proof.
  revert i len s. induction packs as [|pack packs IH]; intros i len s Hwf; [done|].
  cbn [copy_packets]. case_match.
  - case_match;
      [exact (IH (S i) len (set_callbackErrorLoggedAt (packet_clock env i) s) Hwf)
      |by apply IH].
  - pose proof (wf_write (ringBuffer_ s) (Some (packet_buffer pack))
                  (i32 (u32 (actual_length pack) / 2)) Hwf) as Hwf1.
    pose proof (write_capacity (ringBuffer_ s) (Some (packet_buffer pack))
                  (i32 (u32 (actual_length pack) / 2))) as Hcap.
    destruct (RingBuffer.write _ _ _) as [result rb0]. cbn [snd] in *.
    destruct (IH (S i) (i32 (u32 (len + actual_length pack)))
                (set_ringBuffer rb0 s) Hwf1) as [H1 H2].
    split; [done|]. by rewrite H2.
Qed.




Lemma copy_packets_all_failed env i packs len s :
  Forall (fun pack => pk_status pack <> LIBUSB_TRANSFER_COMPLETED) packs ->
  (copy_packets env i packs len s).1 = len /\
  ringBuffer_ (copy_packets env i packs len s).2 = ringBuffer_ s.
Proof.
  revert i len s. induction packs as [|pack packs IH]; intros i len s Hf; [done|].
  inversion Hf; subst. cbn [copy_packets].
  rewrite bool_decide_eq_true_2 by done.
  case_match;
    [exact (IH (S i) len (set_callbackErrorLoggedAt (packet_clock env i) s)
              ltac:(done))
    |by apply IH].
Qed.

(** The callback in a state where completions are processed. *)
Lemma transferCallback_running env tr slot s :
  running (state_ s) -> status tr <> LIBUSB_TRANSFER_NO_DEVICE ->
  user_data tr = Some slot ->
  transferCallback env (Some tr) s =
    let s0 := set_transfers (alter (set_isSubmitted false) slot (transfers_ s)) s in
    let '(len, s1) := copy_packets env 0 (iso_packet_desc tr) 0 s0 in
    let s2 := set_stats_of (update_stats env len s1) s1 in
    if len >? maxPacketSize_ s2 * num_iso_packets tr then (s2, [])
    else
      (if bool_decide (resubmit_status env = LIBUSB_SUCCESS)
       then set_transfers (alter (set_isSubmitted true) slot (transfers_ s2)) s2
       else s2,
       [SubmitTransfer slot]).
Proof.
  intros (H1 & H2 & H3) Hst Hud. unfold transferCallback. rewrite Hud.
  rewrite (bool_decide_eq_false_2 (status tr = _)) by done.
  cbn [state_ set_transfers].
  rewrite !bool_decide_eq_false_2 by done. cbn [orb].
  by destruct (copy_packets _ _ _ _ _).
Qed.

(** The callback in a state where completions are abandoned. *)
Lemma transferCallback_abandons env tr slot s :
  ~ running (state_ s) -> user_data tr = Some slot ->
  transferCallback env (Some tr) s =
    let s0 := set_transfers (alter (set_isSubmitted false) slot (transfers_ s)) s in
    (s0,
     if bool_decide (status tr <> LIBUSB_TRANSFER_NO_DEVICE)
        && bool_decide (state_ s = STOPPING) && negb (hasActiveTransfers s0)
     then [NotifyStateChange] else []).
Proof.
  intros Hrun Hud. unfold transferCallback, running in *. rewrite Hud. cbv zeta.
  cbn [state_ set_transfers].
  destruct (decide (status tr = LIBUSB_TRANSFER_NO_DEVICE)) as [Hs|Hs].
  { rewrite bool_decide_eq_true_2 by done.
    by rewrite (bool_decide_eq_false_2 (status tr <> _)) by (by intros ?). }
  rewrite bool_decide_eq_false_2, (bool_decide_eq_true_2 (status tr <> _)) by done.
  cbn [andb].
  destruct (state_ s) eqn:E; cbn; try (exfalso; apply Hrun; done);
    by destruct (hasActiveTransfers _).
Qed.

Lemma length_alter_flag b slot (l : list TransferUserData) :
  length (alter (set_isSubmitted b) slot l) = length l.
Proof. apply length_alter. Qed.

(** The part of the callback's frame that the event pump relies on. *)
Lemma callback_inv env transfer s :
  wf (ringBuffer_ s) ->
  let '(s', calls) := transferCallback env transfer s in
  state_ s' = state_ s /\
  length (transfers_ s') = length (transfers_ s) /\
  wf (ringBuffer_ s') /\
  RingBuffer.capacity_ (ringBuffer_ s') = RingBuffer.capacity_ (ringBuffer_ s).
Proof.
  intros Hwf.
  destruct transfer as [tr|]; [|done].
  destruct (user_data tr) as [slot|] eqn:Hud; cycle 1.
  { unfold transferCallback. by rewrite Hud. }
  destruct (decide (status tr = LIBUSB_TRANSFER_NO_DEVICE)) as [Hnd|Hnd].
  { unfold transferCallback. rewrite Hud, Hnd, bool_decide_eq_true_2 by done.
    cbn. by rewrite length_alter. }
  destruct (decide (running (state_ s))) as [Hrun|Hrun]; cycle 1.
  { rewrite (transferCallback_abandons env tr slot s Hrun Hud). cbn.
    by rewrite length_alter. }
  rewrite (transferCallback_running env tr slot s Hrun Hnd Hud). cbv zeta.
  set (s0 := set_transfers _ s).
  destruct (copy_packets_frame env 0 (iso_packet_desc tr) 0 s0) as (rb & logged & Hfr).
  destruct (copy_packets_ring env 0 (iso_packet_desc tr) 0 s0 Hwf) as [Hwf1 Hcap1].
  destruct (copy_packets env 0 (iso_packet_desc tr) 0 s0) as [len s1].
  cbn [snd] in *. subst s1. cbn in Hwf1, Hcap1.
  destruct (len >? _);
    [|destruct (bool_decide (resubmit_status env = LIBUSB_SUCCESS))];
    cbn; rewrite ?length_alter; done.
Qed.

End CallbackFacts.

Section CallbackProperties.
Import UsbAudioStreamer StreamerSpec RingBufferSpec.
Implicit Types s : UsbAudioStreamer.t.



Lemma started_streamer_ring :
  ringBuffer_ started_streamer = RingBuffer.make 0 1920.
Proof. vm_compute. reflexivity. Qed.

Lemma started_streamer_wf : wf (ringBuffer_ started_streamer).
Proof.
  rewrite started_streamer_ring. apply wf_make. rewrite max_capacity_eq. lia.
Qed.


(** In state [STOPPING], [DESTROYING] or [DESTROYED] a completion only
    clears its slot's in-flight flag: nothing is written to the ring
    buffer, nothing is counted and nothing is resubmitted.  The control
    thread is woken exactly when the state is [STOPPING], the device is
    still there and no slot is left in flight. *)
Theorem callback_while_shutting_down (env : CallbackEnv) (tr : libusb_transfer)
    (slot : nat) s :
  state_ s = STOPPING \/ state_ s = DESTROYING \/ state_ s = DESTROYED ->
  user_data tr = Some slot ->
  let '(s', calls) := transferCallback env (Some tr) s in
  s' = set_transfers (alter (set_isSubmitted false) slot (transfers_ s)) s /\
  ringBuffer_ s' = ringBuffer_ s /\ streamerStats_ s' = streamerStats_ s /\
  (forall j, SubmitTransfer j ∉ calls) /\
  (NotifyStateChange ∈ calls <->
     state_ s = STOPPING /\ status tr <> LIBUSB_TRANSFER_NO_DEVICE /\
     hasActiveTransfers s' = false).
Proof.
  intros Hst Hud.
  assert (~ running (state_ s)) as Hrun.
  { unfold running. intros (H1 & H2 & H3). by destruct Hst as [?|[?|?]]. }
  rewrite (transferCallback_abandons env tr slot s Hrun Hud). cbv zeta.
  split; [done|]. split; [done|]. split; [done|].
  destruct (bool_decide _ && bool_decide _ && negb _) eqn:Hb.
  - apply andb_prop in Hb as [Hb H3]. apply andb_prop in Hb as [H1 H2].
    apply bool_decide_eq_true in H1, H2. apply negb_true_iff in H3.
    split; [by intros j ?%list_elem_of_singleton|].
    split; [done|]. intros _. apply list_elem_of_singleton. done.
  - split; [by intros j ?%elem_of_nil|].
    split; [by intros ?%elem_of_nil|]. intros (H1 & H2 & H3).
    rewrite H3 in Hb. rewrite !bool_decide_eq_true_2 in Hb by done. done.
Qed.

Lemma callback_while_shutting_down_witness :
  let s := set_transfers (alter (set_isSubmitted true) 0%nat
                            (transfers_ mic_streamer))
             (set_state STOPPING mic_streamer) in
  ((state_ s = STOPPING \/ state_ s = DESTROYING \/ state_ s = DESTROYED) /\
   user_data good_transfer = Some 0%nat) /\
  let '(s', calls) := transferCallback callback_env (Some good_transfer) s in
  ringBuffer_ s' = ringBuffer_ s /\ hasActiveTransfers s' = false /\
  NotifyStateChange ∈ calls.
Proof.
  cbv zeta. split; [split; [by left|reflexivity]|].
  pose proof (callback_while_shutting_down callback_env good_transfer 0
                (set_transfers (alter (set_isSubmitted true) 0%nat
                                  (transfers_ mic_streamer))
                   (set_state STOPPING mic_streamer))
                (or_introl eq_refl) eq_refl) as H.
  destruct (transferCallback _ _ _) as [s' calls].
  destruct H as (Hs & Hrb & _ & _ & Hn).
  assert (hasActiveTransfers s' = false) as Hidle by (rewrite Hs; reflexivity).
  split; [exact Hrb|]. split; [exact Hidle|].
  apply Hn. split; [reflexivity|]. split; [discriminate|exact Hidle].
Defined.





(** A transfer none of whose packets completed leaves the ring buffer as it
    was and, in a state where completions are processed, is resubmitted. *)
Theorem callback_all_packets_failed (env : CallbackEnv) (tr : libusb_transfer)
    (slot : nat) s :
  running (state_ s) -> status tr <> LIBUSB_TRANSFER_NO_DEVICE ->
  user_data tr = Some slot -> 0 <= maxPacketSize_ s ->
  Forall (fun pack => pk_status pack <> LIBUSB_TRANSFER_COMPLETED)
         (iso_packet_desc tr) ->
  let '(s', calls) := transferCallback env (Some tr) s in
  ringBuffer_ s' = ringBuffer_ s /\ calls = [SubmitTransfer slot].
Proof.
  intros Hrun Hnd Hud Hmps Hf.
  rewrite (transferCallback_running env tr slot s Hrun Hnd Hud). cbv zeta.
  set (s0 := set_transfers _ s).
  destruct (copy_packets_frame env 0 (iso_packet_desc tr) 0 s0) as (rb & logged & Hfr).
  destruct (copy_packets_all_failed env 0 (iso_packet_desc tr) 0 s0 Hf) as [Hlen Hrb].
  destruct (copy_packets env 0 (iso_packet_desc tr) 0 s0) as [len s1].
  cbn [fst snd] in *. subst len.
  assert (maxPacketSize_ (set_stats_of (update_stats env 0 s1) s1) = maxPacketSize_ s)
    as -> by (by subst s1).
  unfold num_iso_packets.
  replace (0 >? maxPacketSize_ s * Z.of_nat (length (iso_packet_desc tr)))
    with false by (symmetry; rewrite Z.gtb_ltb; apply Z.ltb_ge; nia).
  case_bool_decide; by cbn.
Qed.

Lemma callback_all_packets_failed_witness :
  let tr := {| status := LIBUSB_TRANSFER_TIMED_OUT; user_data := Some 2%nat;
               iso_packet_desc :=
                 [ {| pk_status := LIBUSB_TRANSFER_TIMED_OUT; actual_length := 0;
                      packet_buffer := [] |} ] |} in
  (running (state_ started_streamer) /\ 0 <= maxPacketSize_ started_streamer) /\
  let '(s', calls) := transferCallback callback_env (Some tr) started_streamer in
  ringBuffer_ s' = ringBuffer_ started_streamer /\ calls = [SubmitTransfer 2].
Proof.
  cbv zeta.
  assert (running (state_ started_streamer)) as Hrun by (by repeat split).
  assert (0 <= maxPacketSize_ started_streamer) as Hmps by (vm_compute; discriminate).
  split; [split; [exact Hrun|exact Hmps]|].
  apply (callback_all_packets_failed callback_env _ 2 started_streamer Hrun);
    [discriminate|reflexivity|exact Hmps|repeat constructor; discriminate].
Defined.

End CallbackProperties.

Section RenderProperties.
Import UsbAudioStreamer StreamerSpec RingBufferSpec.
Implicit Types s : UsbAudioStreamer.t.

Lemma pair_induction {A} (P : list A -> Prop) :
  P [] -> (forall x, P [x]) -> (forall x y l, P l -> P (x :: y :: l)) ->
  forall l, P l.
Proof.
  intros H0 H1 H2 l.
  cut (P l /\ forall x, P (x :: l)); [tauto|].
  induction l as [|a l [IH1 IH2]]; [by split|].
  split; [apply IH2|]. intros x. by apply H2.
Qed.

Lemma length_byte_view l : length (byte_view l) = (2 * length l)%nat.
Proof. unfold byte_view. induction l; cbn [flat_map length app]; lia. Qed.

Lemma byte_view_app l1 l2 : byte_view (l1 ++ l2) = byte_view l1 ++ byte_view l2.
Proof. apply flat_map_app. Qed.

Lemma byte_view_drop k l : byte_view (drop k l) = drop (2 * k) (byte_view l).
Proof.
  revert l. induction k as [|k IH]; intros l; [done|].
  destruct l as [|w l]; [done|].
  replace (2 * S k)%nat with (S (S (2 * k))) by lia. cbn. apply IH.
Qed.

Lemma length_u16_view a : length (u16_view a) = (length a / 2)%nat.
Proof.
  induction a as [| |x y l IH] using pair_induction; [done..|].
  cbn [u16_view length]. rewrite IH.
  change (S (S (length l))) with (1 * 2 + length l)%nat.
  rewrite Nat.div_add_l by lia. lia.
Qed.

(** Seen as samples and written back, a block of bytes is unchanged but
    for a last odd byte, which no sample covers. *)
Lemma byte_view_u16_view a :
  valid_bytes a -> byte_view (u16_view a) = take (2 * (length a / 2)) a.
Proof.
  unfold valid_bytes.
  induction a as [| |x y l IH] using pair_induction; intros Hv; [done..|].
  inversion Hv as [|? ? Hx Hv']; subst. inversion Hv' as [|? ? Hy Hv'']; subst.
  cbn [u16_view byte_view flat_map length].
  change (S (S (length l))) with (1 * 2 + length l)%nat.
  rewrite Nat.div_add_l by lia.
  replace (2 * (1 + length l / 2))%nat with (S (S (2 * (length l / 2)))) by lia.
  cbn [take app]. fold (byte_view (u16_view l)). rewrite IH by done.
  f_equal; [|f_equal].
  - replace (x + 256 * y) with (x + y * 256) by lia.
    rewrite Z.mod_add by lia. apply Z.mod_small. lia.
  - replace (x + 256 * y) with (x + y * 256) by lia.
    rewrite Z.div_add, (Z.div_small x) by lia. apply Z.mod_small. lia.
Qed.

(** Writing back a sample array whose first [k] samples were replaced. *)
Lemma overlay_samples (a samples : list Z) (k : nat) :
  valid_bytes a -> length samples = k -> (2 * k <= length a)%nat ->
  list_inserts 0 (byte_view (samples ++ drop k (u16_view a))) a
  = byte_view samples ++ drop (2 * k) a.
Proof.
  intros Hv Hk Hlen.
  assert (2 * (length a / 2) <= length a)%nat as Hm by (apply Nat.Div0.mul_div_le).
  assert (k <= length a / 2)%nat as Hk2 by (apply Nat.div_le_lower_bound; lia).
  rewrite byte_view_app, byte_view_drop, byte_view_u16_view by done.
  set (m := (2 * (length a / 2))%nat) in *.
  transitivity (list_inserts 0 (byte_view samples ++ drop (2 * k) (take m a))
                  (take m a ++ drop m a)); [by rewrite take_drop|].
  rewrite list_inserts_0_r.
  - rewrite <- app_assoc. f_equal. apply drop_take_drop. lia.
  - rewrite length_app, length_byte_view, Hk, length_drop, !length_take. lia.
Qed.

(** When the ring buffer the render callback inspects holds at least the
    [k = channelCount * numFrames] samples asked for, the callback copies
    the [k] oldest samples, in order and as little-endian byte pairs, to
    the start of the output block, leaves the rest of the block alone,
    removes those samples from the queue and returns [CONTINUE]. *)
Theorem render_serves_oldest_samples
    (events : list (CallbackEnv * option libusb_transfer)) s
    (audioData : list Z) (numFrames : Z) :
  let k := channelCount_ s * numFrames in
  let inspected := (pump_events events s).1 in
  wf (ringBuffer_ inspected) ->
  0 < k < 2 ^ 31 -> k <= RingBuffer.size (ringBuffer_ inspected) ->
  valid_bytes audioData -> (2 * Z.to_nat k <= length audioData)%nat ->
  let '(result, s', block, calls) :=
    audioPlaybackCallback events s audioData numFrames in
  result = AAUDIO_CALLBACK_RESULT_CONTINUE /\
  block = byte_view (take (Z.to_nat k) (content (ringBuffer_ inspected)))
          ++ drop (2 * Z.to_nat k) audioData /\
  content (ringBuffer_ s') = drop (Z.to_nat k) (content (ringBuffer_ inspected)) /\
  RingBuffer.size (ringBuffer_ s') = RingBuffer.size (ringBuffer_ inspected) - k.
Proof.
  intros k inspected Hwf Hk Hsize Hv Hlen. subst inspected.
  unfold audioPlaybackCallback. fold k.
  destruct (pump_events events s) as [s1 calls]. cbn [fst] in *.
  rewrite u64_small by lia.
  rewrite (proj2 (Z.ltb_ge _ _) Hsize).
  assert (length (u16_view audioData) = (length audioData / 2)%nat) as Hl16
    by apply length_u16_view.
  assert (Z.to_nat k <= length audioData / 2)%nat as Hk2.
  { apply Nat.div_le_lower_bound; lia. }
  assert (2 * (length audioData / 2) <= length audioData)%nat as Hm
    by (apply Nat.Div0.mul_div_le).
  destruct (content_after_read (ringBuffer_ s1) (u16_view audioData) k Hwf
              ltac:(lia)) as (rb' & out & Hread & Htake & Hdrop & Hcont & Hsz & _).
  { rewrite Z.min_l by lia. lia. }
  rewrite Z.min_l in * by lia. rewrite Hread. cbn [ringBuffer_ set_ringBuffer].
  split; [done|]. split; [|split; [exact Hcont|exact Hsz]].
  assert (length (take (Z.to_nat k) (content (ringBuffer_ s1))) = Z.to_nat k)
    as Hlt by (rewrite length_take, length_content by done; lia).
  assert (out = take (Z.to_nat k) (content (ringBuffer_ s1))
                ++ drop (Z.to_nat k) (u16_view audioData)) as ->
    by (by rewrite <- (take_drop (Z.to_nat k) out), Htake, Hdrop).
  by apply overlay_samples.
Qed.

Lemma render_serves_oldest_samples_witness :
  let s := (transferCallback callback_env (Some good_transfer)
              started_streamer).1 in
  let audioData := [1; 2; 3; 4; 5; 6; 7; 8; 9; 10] in
  (wf (ringBuffer_ (pump_events [] s).1) /\
   0 < channelCount_ s * 2 < 2 ^ 31 /\
   channelCount_ s * 2 <= RingBuffer.size (ringBuffer_ (pump_events [] s).1) /\
   valid_bytes audioData) /\
  let '(result, s', block, calls) := audioPlaybackCallback [] s audioData 2 in
  result = AAUDIO_CALLBACK_RESULT_CONTINUE /\
  block = [11; 0; 12; 0; 13; 0; 14; 0; 9; 10] /\
  content (ringBuffer_ s') = [].
Proof.
  cbv zeta.
  set (s := (transferCallback callback_env (Some good_transfer)
               started_streamer).1).
  assert (wf (ringBuffer_ (pump_events [] s).1)) as Hwf.
  { pose proof (callback_inv callback_env (Some good_transfer) started_streamer
                  started_streamer_wf) as H.
    subst s. destruct (transferCallback _ _ _) as [s0 c].
    by destruct H as (_ & _ & H & _). }
  assert (0 < channelCount_ s * 2 < 2 ^ 31) as Hk by (by vm_compute).
  assert (channelCount_ s * 2 <= RingBuffer.size (ringBuffer_ (pump_events [] s).1))
    as Hsize by (vm_compute; discriminate).
  assert (valid_bytes [1; 2; 3; 4; 5; 6; 7; 8; 9; 10]) as Hv
    by (repeat constructor; lia).
  split; [split; [exact Hwf|split; [exact Hk|split; [exact Hsize|exact Hv]]]|].
  pose proof (render_serves_oldest_samples [] s [1; 2; 3; 4; 5; 6; 7; 8; 9; 10] 2
                Hwf Hk Hsize Hv ltac:(vm_compute; lia)) as H.
  destruct (audioPlaybackCallback _ _ _ _) as [[[result s'] block] calls].
  destruct H as (Hr & Hb & Hc & _).
  split; [exact Hr|]. split; [exact Hb|exact Hc].
Defined.



End RenderProperties.

Section LifecycleFacts.
Import UsbAudioStreamer StreamerSpec RingBufferSpec.
Implicit Types s : UsbAudioStreamer.t.

Lemma flags_shrink_refl l : flags_shrink l l.
Proof. split; [done|]. intros j d' H. by exists d'. Qed.

Lemma flags_shrink_trans l1 l2 l3 :
  flags_shrink l1 l2 -> flags_shrink l2 l3 -> flags_shrink l1 l3.
Proof.
  intros [Hl1 H1] [Hl2 H2]. split; [congruence|].
  intros j d3 Hd3. destruct (H2 j d3 Hd3) as (d2 & Hd2 & Ht2 & Hf2).
  destruct (H1 j d2 Hd2) as (d1 & Hd1 & Ht1 & Hf1).
  exists d1. split; [done|]. split; [congruence|tauto].
Qed.

Lemma flags_shrink_clear slot l :
  flags_shrink l (alter (set_isSubmitted false) slot l).
Proof.
  split; [apply length_alter|]. intros j d' Hd'.
  rewrite list_lookup_alter in Hd'. case_decide; subst.
  - destruct (l !! j) as [d|]; [|done]. cbn in Hd'. injection Hd' as <-.
    exists d. by cbn.
  - by exists d'.
Qed.

Lemma flags_shrink_idle l l' :
  flags_shrink l l' -> count_if isSubmitted l = 0 -> count_if isSubmitted l' = 0.
Proof.
  intros [_ H]. rewrite !count_if_zero, !Forall_lookup. intros Hl j d' Hd'.
  destruct (H j d' Hd') as (d & Hd & _ & Hf).
  specialize (Hl j d Hd). cbn in Hl. destruct (isSubmitted d'); [|done].
  by rewrite Hf in Hl.
Qed.

Lemma hasActiveTransfers_false s :
  hasActiveTransfers s = false <-> count_if isSubmitted (transfers_ s) = 0.
Proof.
  unfold hasActiveTransfers. pose proof (count_if_bounds isSubmitted (transfers_ s)).
  rewrite Z.gtb_ltb, Z.ltb_ge. lia.
Qed.

(** Once the state is no longer one in which completions are processed,
    the callbacks can only clear in-flight flags and leave the
    cancellation flag alone. *)
Lemma transferCallback_winding_down env transfer s :
  ~ running (state_ s) ->
  let s' := (transferCallback env transfer s).1 in
  flags_shrink (transfers_ s) (transfers_ s') /\
  stopUsbAudioCapture_ s' = stopUsbAudioCapture_ s.
Proof.
  intros Hrun. cbv zeta.
  destruct transfer as [tr|]; [|split; [apply flags_shrink_refl|done]].
  destruct (user_data tr) as [slot|] eqn:Hud; cycle 1.
  { unfold transferCallback. rewrite Hud. split; [apply flags_shrink_refl|done]. }
  rewrite (transferCallback_abandons env tr slot s Hrun Hud). cbn.
  split; [apply flags_shrink_clear|done].
Qed.

Lemma handle_events_winding_down events s :
  ~ running (state_ s) ->
  flags_shrink (transfers_ s) (transfers_ (handle_events events s).1) /\
  stopUsbAudioCapture_ (handle_events events s).1 = stopUsbAudioCapture_ s.
Proof.
  revert s. induction events as [|[env tr] events IH]; intros s Hrun.
  { split; [apply flags_shrink_refl|done]. }
  cbn [handle_events].
  pose proof (transferCallback_winding_down env tr s Hrun) as [H1 H2].
  pose proof (transferCallback_state env tr s) as Hst.
  destruct (transferCallback env tr s) as [s1 c1]. cbn [fst] in *.
  destruct (IH s1 ltac:(by rewrite Hst)) as [I1 I2].
  destruct (handle_events events s1) as [s2 c2]. cbn [fst] in *.
  split; [by eapply flags_shrink_trans|congruence].
Qed.

Lemma audioPlaybackCallback_winding_down events s audioData numFrames :
  ~ running (state_ s) ->
  let s' := (audioPlaybackCallback events s audioData numFrames).1.1.2 in
  flags_shrink (transfers_ s) (transfers_ s') /\
  stopUsbAudioCapture_ s' = stopUsbAudioCapture_ s.
Proof.
  intros Hrun. cbv zeta. unfold audioPlaybackCallback, pump_events.
  pose proof (handle_events_winding_down events (set_stats_of bump_event_loops s)
                Hrun) as [H1 H2].
  destruct (handle_events _ _) as [s1 calls]. cbn [fst] in *.
  destruct (RingBuffer.size _ <? _); [by cbn|].
  destruct (RingBuffer.read _ _ _) as [[moved rb] out]. by cbn.
Qed.

Lemma render_thread_winding_down calls s :
  ~ running (state_ s) ->
  flags_shrink (transfers_ s) (transfers_ (render_thread calls s)) /\
  stopUsbAudioCapture_ (render_thread calls s) = stopUsbAudioCapture_ s.
Proof.
  revert s. induction calls as [|c calls IH]; intros s Hrun.
  { split; [apply flags_shrink_refl|done]. }
  cbn [render_thread].
  pose proof (audioPlaybackCallback_winding_down (rc_events c) s (rc_audioData c)
                (rc_numFrames c) Hrun) as [H1 H2].
  pose proof (audioPlaybackCallback_state (rc_events c) s (rc_audioData c)
                (rc_numFrames c)) as Hst.
  destruct (audioPlaybackCallback _ _ _ _) as [[[r s1] block] cs]. cbn [fst snd] in *.
  destruct (IH s1 ltac:(by rewrite Hst)) as [I1 I2].
  split; [by eapply flags_shrink_trans|congruence].
Qed.

Lemma stopping_not_running s : state_ s = STOPPING -> ~ running (state_ s).
Proof. intros H (H1 & _). done. Qed.

Lemma stop_wait_loop_shrinks env budget tries s :
  state_ s = STOPPING ->
  let s' := (stop_wait_loop env budget tries s).1 in
  state_ s' = STOPPING /\
  flags_shrink (transfers_ s) (transfers_ s') /\
  stopUsbAudioCapture_ s' = stopUsbAudioCapture_ s.
Proof.
  revert tries s. induction budget as [|budget IH]; intros tries s Hst; cbv zeta.
  - cbn [stop_wait_loop]. case_match; (split; [done|split; [apply flags_shrink_refl|done]]).
  - cbn [stop_wait_loop]. case_match;
      [|split; [done|split; [apply flags_shrink_refl|done]]].
    pose proof (render_thread_winding_down (during_wait env tries) s
                  (stopping_not_running s Hst)) as [H1 H2].
    pose proof (render_thread_state (during_wait env tries) s) as Hst1.
    specialize (IH (u8 (tries + 1)) (render_thread (during_wait env tries) s)
                  ltac:(congruence)).
    destruct (stop_wait_loop _ _ _ _) as [s1 waits]. cbn [fst] in *.
    destruct IH as (I0 & I1 & I2).
    split; [done|]. split; [by eapply flags_shrink_trans|congruence].
Qed.

(** What [stop_drain] hands to the last test of [stop]. *)
Lemma stop_drain_shrinks env s :
  let s' := (stop_drain env s).1 in
  state_ s' = STOPPING /\
  flags_shrink (transfers_ s) (transfers_ s') /\
  stopUsbAudioCapture_ s' = 1.
Proof.
  cbv zeta. unfold stop_drain.
  pose proof (stop_wait_loop_shrinks env 5 0 (set_state STOPPING s) eq_refl)
    as (H0 & H1 & H2).
  destruct (stop_wait_loop _ _ _ _) as [s1 waits]. cbn [fst] in *.
  pose proof (render_thread_winding_down (before_check env)
                (set_stopUsbAudioCapture 1 s1)
                (stopping_not_running _ H0)) as [R1 R2].
  pose proof (render_thread_state (before_check env) (set_stopUsbAudioCapture 1 s1))
    as Hst.
  split; [by rewrite Hst|]. split; [|by rewrite R2].
  eapply flags_shrink_trans; [exact H1|exact R1].
Qed.

End LifecycleFacts.

Section StopClaim.
Import UsbAudioStreamer StreamerSpec RingBufferSpec.
Implicit Types s : UsbAudioStreamer.t.

Lemma after_waits_state env n s : state_ (after_waits env n s) = STOPPING.
Proof.
  induction n as [|n IH]; [done|]. cbn [after_waits].
  by rewrite render_thread_state.
Qed.

(** The loop of [stop] leaves at the first test that finds no slot in
    flight, and after five waits at the latest. *)
Lemma stop_wait_loop_after_waits env s (budget tries : nat) :
  (tries + budget = 5)%nat ->
  exists n : nat,
    (tries <= n <= 5)%nat /\
    stop_wait_loop env budget (Z.of_nat tries) (after_waits env tries s)
    = (after_waits env n s, replicate (n - tries) wait_slice_ms) /\
    (forall i, (tries <= i < n)%nat ->
               hasActiveTransfers (after_waits env i s) = true) /\
    ((n < 5)%nat -> hasActiveTransfers (after_waits env n s) = false).
Proof.
  revert tries. induction budget as [|budget IH]; intros tries Hsum.
  - exists tries. cbn [stop_wait_loop]. rewrite Nat.sub_diag.
    split; [lia|]. split; [by destruct (hasActiveTransfers _)|].
    split; intros; lia.
  - cbn [stop_wait_loop].
    destruct (hasActiveTransfers (after_waits env tries s)) eqn:Hactive.
    + destruct (IH (S tries) ltac:(lia)) as (n & Hn & Hloop & Hbefore & Hlast).
      assert (u8 (Z.of_nat tries + 1) = Z.of_nat (S tries)) as ->.
      { unfold u8. rewrite Z.mod_small; lia. }
      change (render_thread (during_wait env (Z.of_nat tries))
                (after_waits env tries s)) with (after_waits env (S tries) s).
      rewrite Hloop. exists n. split; [lia|]. split.
      { replace (n - tries)%nat with (S (n - S tries)) by lia. done. }
      split; [|done]. intros i Hi.
      destruct (decide (i = tries)) as [->|]; [done|]. apply Hbefore. lia.
    + exists tries. rewrite Nat.sub_diag. split; [lia|]. split; [done|].
      split; [intros; lia|done].
Qed.

(** C5.  From whatever state [stop] is called and whatever the audio
    thread does meanwhile, [stop] returns with the state
    [READY_TO_START] or [ERROR] and the cancellation flag set.  It returns
    [true] exactly when the state is [READY_TO_START], which is exactly
    when no slot is in flight at its return and the audio output
    confirmed the stop; the state is [ERROR] exactly when a slot is still
    in flight or the output did not confirm.  A slot is still in flight
    only after the full budget of five waits of 100 ms.  The number [n]
    of waits is that of the tests of [hasActiveTransfers()] that found a
    slot in flight: every test before the [n]-th did, and when [n < 5] the
    [n]-th did not; the object returned is the one the audio thread left
    after these waits and before the last test, with the final state. *)
Theorem C5_stop_ends_ready_or_error (env : StopEnv) s :
  let '(ok, s', waits) := stop env s in
  (state_ s' = READY_TO_START \/ state_ s' = ERROR) /\
  (ok = true <-> state_ s' = READY_TO_START) /\
  (ok = false <-> state_ s' = ERROR) /\
  (state_ s' = READY_TO_START <->
     hasActiveTransfers s' = false /\ stopAudioPlayer env = true) /\
  (state_ s' = ERROR <->
     hasActiveTransfers s' = true \/ stopAudioPlayer env = false) /\
  (hasActiveTransfers s' = true -> waits = [100; 100; 100; 100; 100]) /\
  (hasActiveTransfers s = false -> waits = []) /\
  (length waits <= 5)%nat /\ Forall (fun w => w = 100) waits /\
  stopUsbAudioCapture_ s' = 1 /\
  exists n : nat,
    (n <= 5)%nat /\ waits = replicate n 100 /\
    (forall i, (i < n)%nat -> hasActiveTransfers (after_waits env i s) = true) /\
    ((n < 5)%nat -> hasActiveTransfers (after_waits env n s) = false) /\
    s' = set_state (if ok then READY_TO_START else ERROR)
           (render_thread (before_check env)
              (set_stopUsbAudioCapture 1 (after_waits env n s))).
Proof.
  unfold stop, stop_drain.
  destruct (stop_wait_loop_after_waits env s 5 0 eq_refl)
    as (n & Hn & Hloop & Hbefore & Hlast).
  change (after_waits env 0 s) with (set_state STOPPING s) in Hloop.
  change (Z.of_nat 0) with 0 in Hloop. rewrite Hloop, Nat.sub_0_r. clear Hloop.
  assert (~ running (state_ (set_stopUsbAudioCapture 1 (after_waits env n s))))
    as Hrun.
  { apply stopping_not_running. cbn. apply after_waits_state. }
  pose proof (render_thread_winding_down (before_check env) _ Hrun)
    as [Hshrink Hflag].
  cbn [stopUsbAudioCapture_ set_stopUsbAudioCapture transfers_] in Hshrink, Hflag.
  remember (render_thread (before_check env)
              (set_stopUsbAudioCapture 1 (after_waits env n s))) as s2 eqn:Hs2.
  assert (hasActiveTransfers s2 = true -> n = 5%nat) as Hfull.
  { intros Hactive. destruct (decide (n < 5)%nat) as [Hlt|]; [|lia].
    specialize (Hlast Hlt). apply hasActiveTransfers_false in Hlast.
    assert (hasActiveTransfers s2 = false); [|congruence].
    apply hasActiveTransfers_false.
    eapply flags_shrink_idle; [exact Hshrink|done]. }
  assert (hasActiveTransfers s = false -> n = 0%nat) as Hidle.
  { intros Hs. destruct n as [|n]; [done|].
    specialize (Hbefore 0%nat ltac:(lia)). cbn in Hbefore.
    unfold hasActiveTransfers in *. cbn in Hbefore. congruence. }
  assert (wait_slice_ms = 100) as Hslice by done.
  assert (Forall (fun w => w = 100) (replicate n wait_slice_ms)) as Hall
    by (by apply Forall_replicate).
  assert (length (replicate n wait_slice_ms) <= 5)%nat as Hlen
    by (rewrite length_replicate; lia).
  assert (forall i, (i < n)%nat -> hasActiveTransfers (after_waits env i s) = true)
    as Hbefore' by (intros i Hi; apply Hbefore; lia).
  destruct (hasActiveTransfers s2) eqn:Hactive; cbn [orb].
  - assert (n = 5%nat) as -> by auto.
    cbn [state_ set_state stopUsbAudioCapture_].
    change (hasActiveTransfers (set_state ERROR s2)) with (hasActiveTransfers s2).
    rewrite Hactive.
    split; [by right|]. split; [done|]. split; [done|].
    split; [split; [done|by intros [? _]]|]. split; [split; [by left|done]|].
    split; [done|]. split; [by intros ?%Hidle|]. split; [done|].
    split; [done|]. split; [done|].
    exists 5%nat. rewrite Hs2. split_and!; first [done | lia | intros; lia].
  - destruct (stopAudioPlayer env) eqn:Hplayer; cbn [negb];
      cbn [state_ set_state stopUsbAudioCapture_].
    + change (hasActiveTransfers (set_state READY_TO_START s2))
        with (hasActiveTransfers s2).
      rewrite Hactive.
      split; [by left|]. split; [done|]. split; [done|].
      split; [done|]. split; [split; [done|by intros [?|?]]|].
      split; [done|]. split; [by intros ->%Hidle|]. split; [done|].
      split; [done|]. split; [done|].
      exists n. rewrite Hs2. split_and!; first [done | lia | intros; lia].
    + change (hasActiveTransfers (set_state ERROR s2))
        with (hasActiveTransfers s2).
      rewrite Hactive.
      split; [by right|]. split; [done|]. split; [done|].
      split; [split; [done|by intros [_ ?]]|]. split; [split; [by right|done]|].
      split; [done|]. split; [by intros ->%Hidle|]. split; [done|].
      split; [done|]. split; [done|].
      exists n. rewrite Hs2. split_and!; first [done | lia | intros; lia].
Qed.

Lemma C5_stop_ends_ready_or_error_witness :
  let quiet := quiet_stop AAUDIO_OK AAUDIO_STREAM_STATE_STOPPED in
  (let '(ok, s', waits) := stop quiet started_streamer in
   hasActiveTransfers s' = true /\ ok = false /\ state_ s' = ERROR /\
   waits = [100; 100; 100; 100; 100]) /\
  (let '(ok, s', waits) := stop draining_stop started_streamer in
   hasActiveTransfers s' = false /\ ok = true /\ state_ s' = READY_TO_START /\
   waits = [100]).
Proof.
  cbv zeta. split.
  - assert (hasActiveTransfers
              (stop (quiet_stop AAUDIO_OK AAUDIO_STREAM_STATE_STOPPED)
                 started_streamer).1.2 = true) as Hactive
      by (vm_compute; reflexivity).
    pose proof (C5_stop_ends_ready_or_error
                  (quiet_stop AAUDIO_OK AAUDIO_STREAM_STATE_STOPPED)
                  started_streamer) as H.
    destruct (stop _ started_streamer) as [[ok s'] waits]. cbn [fst snd] in Hactive.
    destruct H as (_ & _ & Hfalse & _ & Herror & Hwaits & _).
    split; [exact Hactive|]. split; [apply Hfalse, Herror; by left|].
    split; [apply Herror; by left|exact (Hwaits Hactive)].
  - assert (hasActiveTransfers (stop draining_stop started_streamer).1.2 = false)
      as Hidle by (vm_compute; reflexivity).
    assert ((stop draining_stop started_streamer).2 = [100]) as Hw
      by (vm_compute; reflexivity).
    pose proof (C5_stop_ends_ready_or_error draining_stop started_streamer) as H.
    destruct (stop draining_stop started_streamer) as [[ok s'] waits].
    cbn [fst snd] in Hidle, Hw.
    destruct H as (_ & Htrue & _ & Hready & _).
    assert (state_ s' = READY_TO_START) as Hst
      by (apply Hready; split; [exact Hidle|reflexivity]).
    split; [exact Hidle|]. split; [by apply Htrue|]. split; [exact Hst|exact Hw].
Defined.

End StopClaim.

Section LifecycleProperties.
Import UsbAudioStreamer StreamerSpec RingBufferSpec.
Implicit Types s : UsbAudioStreamer.t.

(** Whatever the audio thread does meanwhile, [stop] never puts a slot in
    flight: the pool keeps its slots and their transfers, in-flight flags
    can only have been cleared, the cancellation flag is 1 afterwards, and
    when [stop] returns [true] no slot is in flight. *)
Theorem stop_never_resubmits (env : StopEnv) s :
  let '(ok, s', waits) := stop env s in
  flags_shrink (transfers_ s) (transfers_ s') /\
  stopUsbAudioCapture_ s' = 1 /\
  (ok = true -> hasActiveTransfers s' = false).
Proof.
  unfold stop.
  pose proof (stop_drain_shrinks env s) as (_ & H1 & H2).
  destruct (stop_drain env s) as [s1 waits]. cbn [fst] in *.
  destruct (hasActiveTransfers s1) eqn:Ha; cbn [orb]; [by split_and!|].
  destruct (stopAudioPlayer env); cbn [negb]; by split_and!.
Qed.

Lemma stop_never_resubmits_witness :
  hasActiveTransfers started_streamer = true /\
  let '(ok, s', waits) := stop draining_stop started_streamer in
  ok = true /\ hasActiveTransfers s' = false /\ stopUsbAudioCapture_ s' = 1 /\
  length (transfers_ s') = length (transfers_ started_streamer).
Proof.
  split; [reflexivity|].
  assert ((stop draining_stop started_streamer).1.1 = true) as Hok
    by (vm_compute; reflexivity).
  pose proof (stop_never_resubmits draining_stop started_streamer) as H.
  destruct (stop draining_stop started_streamer) as [[ok s'] waits].
  cbn [fst] in Hok. destruct H as ([Hlen _] & Hflag & Hidle).
  split; [exact Hok|]. split; [exact (Hidle Hok)|]. split; [exact Hflag|].
  exact Hlen.
Defined.

(** With no slot in flight, [stop] does not wait at all: it succeeds or
    fails with the audio output's confirmation alone. *)
Theorem stop_on_idle_pool (env : StopEnv) s :
  hasActiveTransfers s = false ->
  let '(ok, s', waits) := stop env s in
  waits = [] /\ ok = stopAudioPlayer env /\
  state_ s' = if stopAudioPlayer env then READY_TO_START else ERROR.
Proof.
  intros Hidle. unfold stop.
  pose proof (stop_drain_shrinks env s) as (_ & H1 & _).
  assert ((stop_drain env s).2 = []) as Hw.
  { unfold stop_drain. cbn [stop_wait_loop].
    change (hasActiveTransfers (set_state STOPPING s)) with (hasActiveTransfers s).
    by rewrite Hidle. }
  destruct (stop_drain env s) as [s1 waits]. cbn [fst snd] in *. subst waits.
  assert (hasActiveTransfers s1 = false) as ->.
  { apply hasActiveTransfers_false. eapply flags_shrink_idle; [exact H1|].
    by apply hasActiveTransfers_false. }
  cbn [orb]. by destruct (stopAudioPlayer env).
Qed.

Lemma stop_on_idle_pool_witness :
  hasActiveTransfers mic_streamer = false /\
  let '(ok, s', waits) :=
    stop (quiet_stop AAUDIO_OK AAUDIO_STREAM_STATE_STOPPED) mic_streamer in
  waits = [] /\ ok = true /\ state_ s' = READY_TO_START.
Proof.
  split; [reflexivity|].
  pose proof (stop_on_idle_pool (quiet_stop AAUDIO_OK AAUDIO_STREAM_STATE_STOPPED)
                mic_streamer eq_refl) as H.
  destruct (stop _ _) as [[ok s'] waits]. exact H.
Defined.

(** When slots are in flight and no completion arrives, [stop] waits five
    times 100 ms, then gives up: it returns [false] in state [ERROR], with
    the slots still marked in flight. *)
Theorem stop_times_out (env : StopEnv) s :
  hasActiveTransfers s = true ->
  (forall tries, during_wait env tries = []) -> before_check env = [] ->
  stop env s =
    (false,
     set_state ERROR (set_stopUsbAudioCapture 1 (set_state STOPPING s)),
     [100; 100; 100; 100; 100]).
Proof.
  intros Hact Hquiet Hcheck. unfold stop, stop_drain.
  cbn [stop_wait_loop]. rewrite !Hquiet, Hcheck. cbn [render_thread].
  change (hasActiveTransfers (set_state STOPPING s)) with (hasActiveTransfers s).
  rewrite Hact.
  change (hasActiveTransfers (set_stopUsbAudioCapture 1 (set_state STOPPING s)))
    with (hasActiveTransfers s).
  by rewrite Hact.
Qed.

Lemma stop_times_out_witness :
  hasActiveTransfers started_streamer = true /\
  stop (quiet_stop AAUDIO_OK AAUDIO_STREAM_STATE_STOPPED) started_streamer =
    (false,
     set_state ERROR
       (set_stopUsbAudioCapture 1 (set_state STOPPING started_streamer)),
     [100; 100; 100; 100; 100]).
Proof.
  split; [reflexivity|].
  exact (stop_times_out (quiet_stop AAUDIO_OK AAUDIO_STREAM_STATE_STOPPED)
           started_streamer eq_refl (fun _ => eq_refl) eq_refl).
Defined.

(** A successful [start] makes [isPlaying] true and a second [start] is
    then rejected without effect; a successful [stop] after it brings the
    streamer back to [READY_TO_START] with the same pool, no slot in
    flight and [isPlaying] false, so that [start] is accepted again. *)
Theorem start_stop_cycle (env1 : StartEnv) (env2 : StopEnv) s s1 s2 calls waits :
  start env1 s = (true, s1, calls) -> stop env2 s1 = (true, s2, waits) ->
  state_ s = READY_TO_START /\
  isPlaying s1 = true /\
  (forall env, start env s1 = (false, s1, [])) /\
  state_ s2 = READY_TO_START /\ isPlaying s2 = false /\
  hasActiveTransfers s2 = false /\
  length (transfers_ s2) = length (transfers_ s) /\
  transfer <$> transfers_ s2 = transfer <$> transfers_ s.
Proof.
  intros Hstart Hstop.
  assert (state_ s = READY_TO_START /\ state_ s1 = STARTED /\
          length (transfers_ s1) = length (transfers_ s) /\
          transfer <$> transfers_ s1 = transfer <$> transfers_ s)
    as (Hs & Hs1 & Hl1 & Ht1).
  { unfold start in Hstart.
    destruct (decide (state_ s = READY_TO_START)) as [Hr|Hr];
      [|by rewrite bool_decide_eq_true_2 in Hstart].
    rewrite bool_decide_eq_false_2 in Hstart by (by intros []).
    unfold submitTransferRequests in Hstart. cbn [transfers_ set_transfers
      set_stopUsbAudioCapture set_stats_of set_streamerStats set_state] in Hstart.
    set (l' := imap _ (transfers_ s)) in *.
    assert (length l' = length (transfers_ s)) as Hl by apply length_imap.
    assert (transfer <$> l' = transfer <$> transfers_ s) as Ht.
    { apply list_eq. intros i. subst l'.
      rewrite !list_lookup_fmap, list_lookup_imap.
      by destruct (transfers_ s !! i). }
    destruct (i32 _ =? 0); [done|]. cbn [negb] in Hstart.
    destruct (startAudioPlayer env1); [|done]. cbn [negb] in Hstart.
    destruct (bool_decide _); [done|].
    injection Hstart as <- _. done. }
  pose proof (stop_drain_shrinks env2 s1) as Hshrink.
  unfold stop in Hstop. destruct (stop_drain env2 s1) as [sd wd]. cbn [fst] in *.
  destruct Hshrink as (_ & [Hl2 Hf2] & _).
  destruct (hasActiveTransfers sd) eqn:Ha; [done|]. cbn [orb] in Hstop.
  destruct (stopAudioPlayer env2); [|done]. cbn [negb] in Hstop.
  injection Hstop as <- _.
  split; [done|]. split; [by apply bool_decide_eq_true_2|].
  split.
  { intros env. unfold start. by rewrite bool_decide_eq_true_2 by (by rewrite Hs1). }
  split; [done|]. split; [done|]. split; [exact Ha|].
  split; [cbn; congruence|]. cbn. rewrite <- Ht1.
  apply list_eq. intros i. rewrite !list_lookup_fmap.
  destruct (transfers_ sd !! i) as [d'|] eqn:Hd'.
  - destruct (Hf2 i d' Hd') as (d & -> & Ht & _). cbn. by rewrite Ht.
  - apply lookup_ge_None in Hd'. rewrite lookup_ge_None_2; [done|lia].
Qed.

Lemma start_stop_cycle_witness :
  let s1 := (start start_ok mic_streamer).1.2 in
  let s2 := (stop draining_stop s1).1.2 in
  (start start_ok mic_streamer = (true, s1, (start start_ok mic_streamer).2) /\
   stop draining_stop s1 = (true, s2, [100])) /\
  isPlaying s1 = true /\ state_ s2 = READY_TO_START /\
  hasActiveTransfers s2 = false /\ length (transfers_ s2) = 5%nat.
Proof.
  cbv zeta.
  assert (start start_ok mic_streamer
          = (true, (start start_ok mic_streamer).1.2,
             (start start_ok mic_streamer).2)) as Hstart by (vm_compute; reflexivity).
  assert (stop draining_stop (start start_ok mic_streamer).1.2
          = (true, (stop draining_stop (start start_ok mic_streamer).1.2).1.2,
             [100])) as Hstop by (vm_compute; reflexivity).
  split; [split; [exact Hstart|exact Hstop]|].
  destruct (start_stop_cycle start_ok draining_stop mic_streamer _ _ _ _
              Hstart Hstop) as (_ & Hp & _ & Hr & _ & Hi & Hl & _).
  split; [exact Hp|]. split; [exact Hr|]. split; [exact Hi|exact Hl].
Defined.

(** [submitTransferRequests] hands every slot to [libusb_submit_transfer]
    once, in pool order; afterwards a slot is in flight exactly if its
    submission succeeded.  The call returns [true] exactly when some slot
    was accepted, which is when a slot is in flight; otherwise it moves
    the streamer to [ERROR]. *)
Theorem submit_marks_slots (submit : nat -> libusb_error) s :
  Z.of_nat (length (transfers_ s)) < 2 ^ 31 ->
  let '(ok, s', calls) := submitTransferRequests submit s in
  calls = SubmitTransfer <$> seq 0 (length (transfers_ s)) /\
  length (transfers_ s') = length (transfers_ s) /\
  (forall i d', transfers_ s' !! i = Some d' ->
     isSubmitted d' = bool_decide (submit i = LIBUSB_SUCCESS) /\
     exists d, transfers_ s !! i = Some d /\ transfer d' = transfer d) /\
  ok = hasActiveTransfers s' /\
  (ok = true <-> some_slot_accepted submit s) /\
  state_ s' = (if ok then state_ s else ERROR).
Proof.
  intros Hlen.
  pose proof (submitTransferRequests_spec submit s Hlen) as Hspec.
  unfold submitTransferRequests in *.
  set (l' := imap _ (transfers_ s)) in *.
  assert (length l' = length (transfers_ s)) as Hl' by apply length_imap.
  cbn [transfers_ set_transfers] in *.
  pose proof (count_if_bounds isSubmitted l') as Hb.
  rewrite i32_small in * by lia.
  assert (imap (fun (i : nat) (_ : TransferUserData) => SubmitTransfer i)
            (transfers_ s)
          = SubmitTransfer <$> seq 0 (length (transfers_ s))) as Hcalls.
  { apply list_eq. intros i.
    rewrite list_lookup_imap, list_lookup_fmap.
    destruct (transfers_ s !! i) as [d|] eqn:Hd; cbn.
    - by rewrite lookup_seq_lt by (by eapply lookup_lt_Some).
    - by rewrite lookup_seq_ge by (by apply lookup_ge_None). }
  assert (forall i d', l' !! i = Some d' ->
            isSubmitted d' = bool_decide (submit i = LIBUSB_SUCCESS) /\
            exists d, transfers_ s !! i = Some d /\ transfer d' = transfer d) as Hflags.
  { intros i d' Hd'. subst l'. rewrite list_lookup_imap in Hd'.
    destruct (transfers_ s !! i) as [d|]; [|done].
    injection Hd' as <-. split; [done|]. by exists d. }
  destruct (count_if isSubmitted l' =? 0) eqn:E.
  - apply Z.eqb_eq in E. destruct Hspec as (H1 & H2 & _).
    unfold hasActiveTransfers.
    cbn [fst snd state_ transfers_ set_state set_transfers] in *.
    split_and!; try done. by rewrite E.
  - apply Z.eqb_neq in E. destruct Hspec as (H1 & H2 & _).
    unfold hasActiveTransfers.
    cbn [fst snd state_ transfers_ set_state set_transfers] in *.
    split_and!; try done.
    symmetry. rewrite Z.gtb_ltb. apply Z.ltb_lt. lia.
Qed.

Lemma submit_marks_slots_witness :
  let submit := fun i : nat => if Nat.even i then LIBUSB_SUCCESS
                               else LIBUSB_ERROR_OTHER (-1) in
  Z.of_nat (length (transfers_ mic_streamer)) < 2 ^ 31 /\
  let '(ok, s', calls) := submitTransferRequests submit mic_streamer in
  calls = [SubmitTransfer 0; SubmitTransfer 1; SubmitTransfer 2;
           SubmitTransfer 3; SubmitTransfer 4] /\
  isSubmitted <$> transfers_ s' = [true; false; true; false; true] /\
  ok = true /\ state_ s' = READY_TO_START.
Proof.
  cbv zeta. split; [reflexivity|].
  pose proof (submit_marks_slots
                (fun i : nat => if Nat.even i then LIBUSB_SUCCESS
                                else LIBUSB_ERROR_OTHER (-1))
                mic_streamer eq_refl) as H.
  assert (isSubmitted <$> transfers_
            (submitTransferRequests
               (fun i : nat => if Nat.even i then LIBUSB_SUCCESS
                               else LIBUSB_ERROR_OTHER (-1)) mic_streamer).1.2
          = [true; false; true; false; true]) as Hflags by (vm_compute; reflexivity).
  destruct (submitTransferRequests _ _) as [[ok s'] calls].
  destruct H as (Hc & _ & _ & Hok & _ & Hst). cbn [fst snd] in Hflags.
  split; [exact Hc|]. split; [exact Hflags|].
  assert (ok = true) as Hok'.
  { rewrite Hok. unfold hasActiveTransfers, count_if.
    rewrite Z.gtb_ltb. apply Z.ltb_lt.
    destruct (transfers_ s') as [|d l]; [by simplify_eq/=|].
    cbn in Hflags. injection Hflags as Hd _.
    cbn [List.filter]. rewrite Hd. cbn [length]. lia. }
  split; [exact Hok'|]. rewrite Hok' in Hst. exact Hst.
Defined.

(** [ensureTransferRequests] never returns [true] and never submits
    anything: with a non-empty pool it returns [false] at once, and with an
    empty pool the submission finds no slot, which moves the streamer to
    [ERROR]. *)
Theorem ensure_never_succeeds (submit : nat -> libusb_error) s :
  let '(ok, s', calls) := ensureTransferRequests submit s in
  ok = false /\ calls = [] /\ transfers_ s' = transfers_ s /\
  state_ s' = match transfers_ s with [] => ERROR | _ :: _ => state_ s end.
Proof.
  unfold ensureTransferRequests.
  destruct (transfers_ s) eqn:E; [|by rewrite E].
  unfold submitTransferRequests. rewrite E. by cbn.
Qed.

End LifecycleProperties.

Section ConstructionProperties.
Import UsbAudioStreamer StreamerSpec RingBufferSpec.
Implicit Types s : UsbAudioStreamer.t.

(** On inputs for which no [int] step overflows or divides by zero the
    sizing is defined: every transfer has at least two packets and room
    for one audio burst, the pool has at least two transfers and together
    covers the audio stream's buffer, and the ring capacity fits [int].
    With a zero packet size, burst size or sample size the sizing divides
    by zero and is undefined. *)
Theorem sizing_covers_demand
    (maxPacketSize framesPerBurst bufferCapacityInFrames subFrameSize
     channelCount : Z) :
  (sizing_in_range maxPacketSize framesPerBurst bufferCapacityInFrames
     subFrameSize channelCount ->
   exists z,
     transfer_sizing maxPacketSize framesPerBurst bufferCapacityInFrames
       subFrameSize channelCount = Some z /\
     2 <= num_packets z /\ 2 <= num_transfers z /\
     bytes_per_burst z <= buffer_size z /\
     2 * maxPacketSize <= buffer_size z /\
     bufferCapacityInFrames <= num_transfers z * framesPerBurst /\
     0 <= ring_buffer_capacity z < 2 ^ 31) /\
  (maxPacketSize = 0 \/ framesPerBurst = 0 \/ subFrameSize = 0 ->
   transfer_sizing maxPacketSize framesPerBurst bufferCapacityInFrames
     subFrameSize channelCount = None).
Proof.
  split; [|apply transfer_sizing_zero_divisor].
  intros Hrange. eexists. split; [by apply transfer_sizing_in_range|].
  destruct Hrange as (Hm & Hf & Hc & Hs & Hcc & Hfs & Hb & Hcf & Hp).
  assert (0 <= framesPerBurst * subFrameSize * channelCount) as Hbytes by nia.
  destruct (ceiling_bounds _ _ Hbytes Hm) as [[_ Hc1] ?].
  destruct (ceiling_bounds _ _ Hc Hf) as [[_ Hc2] ?].
  cbn [bytes_per_burst num_packets buffer_size num_transfers
       ring_buffer_capacity].
  set (np := Z.max 2 (ceiling _ maxPacketSize)) in *.
  set (nt := Z.max 2 (ceiling bufferCapacityInFrames _)) in *.
  assert (0 <= maxPacketSize * np * nt) by nia.
  pose proof (Z.div_pos (maxPacketSize * np * nt) subFrameSize ltac:(lia) Hs).
  pose proof (Z.div_le_upper_bound (maxPacketSize * np * nt) subFrameSize
                (maxPacketSize * np * nt) Hs ltac:(nia)).
  split_and!; nia.
Qed.

Lemma sizing_covers_demand_witness :
  sizing_in_range 200 100 950 2 2 /\
  (exists z, transfer_sizing 200 100 950 2 2 = Some z /\
     num_packets z = 2 /\ num_transfers z = 10 /\
     bytes_per_burst z <= buffer_size z /\ 950 <= num_transfers z * 100) /\
  transfer_sizing 0 100 950 2 2 = None.
Proof.
  assert (sizing_in_range 200 100 950 2 2) as Hrange
    by (unfold sizing_in_range, ceiling; vm_compute; intuition discriminate).
  split; [exact Hrange|].
  destruct (sizing_covers_demand 200 100 950 2 2) as [Hdef _].
  destruct (sizing_covers_demand 0 100 950 2 2) as [_ Hzero].
  split; [|exact (Hzero (or_introl eq_refl))].
  destruct (Hdef Hrange) as (z & Hz & _ & _ & Hb & _ & Hc & _).
  exists z. split; [exact Hz|].
  assert (Some z = Some {| bytes_per_burst := 400; num_packets := 2;
                           buffer_size := 400; num_transfers := 10;
                           ring_buffer_capacity := 2000 |}) as Hval
    by (rewrite <- Hz; vm_compute; reflexivity).
  injection Hval as ->. split; [reflexivity|]. split; [reflexivity|].
  split; [exact Hb|exact Hc].
Defined.

Lemma allocate_loop_spec alloc req i n l :
  allocate_loop alloc req i n l
  = l ++ replicate (length (List.filter alloc (seq i n)))
           {| transfer := req; isSubmitted := false |}.
Proof.
  revert i l. induction n as [|n IH]; intros i l; [by rewrite app_nil_r|].
  cbn [allocate_loop seq List.filter]. destruct (alloc i).
  - rewrite IH, <- app_assoc. done.
  - apply IH.
Qed.

(** On inputs for which the sizing is defined,
    [allocateTransferRequests] returns; it keeps the slots already in the
    pool and appends one idle slot per successful [libusb_alloc_transfer],
    at most [num_transfers]; each carries a buffer of [num_packets]
    packets of [maxPacketSize_] bytes.  The ring buffer has the computed
    capacity afterwards: the old one is kept, samples included, when its
    capacity already matches, and replaced by an empty one otherwise.
    When the sizing is undefined the call does not return. *)
Theorem allocate_builds_pool (audio : AudioStreamEnv) (alloc : nat -> bool) s :
  let sizing :=
    transfer_sizing (maxPacketSize_ s) (getFramesPerBurst audio)
      (getBufferCapacityInFrames audio) (subFrameSize_ s) (channelCount_ s) in
  (sizing_in_range (maxPacketSize_ s) (getFramesPerBurst audio)
     (getBufferCapacityInFrames audio) (subFrameSize_ s) (channelCount_ s) ->
   0 <= RingBuffer.capacity (ringBuffer_ s) < 2 ^ 31 ->
   exists z s',
     sizing = Some z /\ allocateTransferRequests audio alloc s = Some s' /\
     transfers_ s'
     = transfers_ s
       ++ replicate (allocated alloc (Z.to_nat (num_transfers z)))
            {| transfer :=
                 {| tr_endpoint := u8 (endpointAddress_ s);
                    tr_length := maxPacketSize_ s * num_packets z;
                    tr_num_iso_packets := num_packets z;
                    tr_timeout := 500;
                    tr_packet_length := maxPacketSize_ s |};
               isSubmitted := false |} /\
     (allocated alloc (Z.to_nat (num_transfers z))
      <= Z.to_nat (num_transfers z))%nat /\
     RingBuffer.capacity (ringBuffer_ s') = ring_buffer_capacity z /\
     ringBuffer_ s'
     = (if decide (RingBuffer.capacity (ringBuffer_ s) = ring_buffer_capacity z)
        then ringBuffer_ s else RingBuffer.make 0 (ring_buffer_capacity z)) /\
     state_ s' = state_ s) /\
  (sizing = None -> allocateTransferRequests audio alloc s = None).
Proof.
  cbv zeta. split.
  - intros Hrange Hcap.
    pose proof (transfer_sizing_in_range _ _ _ _ _ Hrange) as Hz.
    match type of Hz with _ = Some ?v => set (z := v) in * end.
    assert (0 <= ring_buffer_capacity z < 2 ^ 31) as Hring.
    { destruct Hrange as (Hm & Hf & Hc & Hs & Hcc & Hfs & Hb & Hcf & Hp).
      subst z. cbn [ring_buffer_capacity].
      set (n := _ * Z.max 2 _ * Z.max 2 _) in *.
      assert (0 <= n).
      { subst n. apply Z.mul_nonneg_nonneg; [apply Z.mul_nonneg_nonneg|]; lia. }
      pose proof (Z.div_pos n _ ltac:(lia) Hs).
      pose proof (Z.div_le_upper_bound n _ n Hs ltac:(nia)). lia. }
    exists z. unfold allocateTransferRequests, RingBuffer.capacity in *.
    cbn [maxPacketSize_ framesPerBurst_ bufferCapacityInFrames_ subFrameSize_
         channelCount_ set_framesPerBurst set_bufferCapacityInFrames ringBuffer_].
    rewrite Hz. cbn [mbind option_bind].
    rewrite (u64_small (RingBuffer.capacity_ (ringBuffer_ s))) by lia.
    rewrite i32_small by lia.
    rewrite (proj2 (Z.ltb_ge _ _)) by lia.
    assert (allocated alloc (Z.to_nat (num_transfers z))
            <= Z.to_nat (num_transfers z))%nat as Hle.
    { unfold allocated. etransitivity; [apply List.filter_length_le|].
      by rewrite length_seq. }
    destruct (decide (RingBuffer.capacity_ (ringBuffer_ s)
                      = ring_buffer_capacity z)) as [He|He].
    + rewrite (proj2 (Z.eqb_eq _ _) He). cbn [negb mbind option_bind].
      eexists. split; [done|]. split; [done|].
      cbn [transfers_ set_transfers ringBuffer_ state_ endpointAddress_
           maxPacketSize_ set_framesPerBurst set_bufferCapacityInFrames].
      rewrite allocate_loop_spec. by split_and!.
    + rewrite (proj2 (Z.eqb_neq _ _) He). cbn [negb mbind option_bind].
      eexists. split; [done|]. split; [done|].
      cbn [transfers_ set_transfers ringBuffer_ state_ endpointAddress_
           maxPacketSize_ set_framesPerBurst set_bufferCapacityInFrames
           set_ringBuffer].
      rewrite allocate_loop_spec. by split_and!.
  - intros Hnone. unfold allocateTransferRequests.
    cbn [maxPacketSize_ framesPerBurst_ bufferCapacityInFrames_ subFrameSize_
         channelCount_ set_framesPerBurst set_bufferCapacityInFrames].
    by rewrite Hnone.
Qed.

Lemma allocate_builds_pool_witness :
  let alloc := fun i : nat => (i <? 3)%nat in
  (sizing_in_range (maxPacketSize_ mic_streamer) 192 960
     (subFrameSize_ mic_streamer) (channelCount_ mic_streamer) /\
   0 <= RingBuffer.capacity (ringBuffer_ mic_streamer) < 2 ^ 31) /\
  (exists s', allocateTransferRequests stream_192_960 alloc mic_streamer = Some s' /\
     length (transfers_ s') = 8%nat /\
     take 5 (transfers_ s') = transfers_ mic_streamer /\
     ringBuffer_ s' = ringBuffer_ mic_streamer) /\
  allocateTransferRequests stream_192_960 alloc
    (set_maxPacketSize 0 mic_streamer) = None.
Proof.
  cbv zeta.
  assert (sizing_in_range (maxPacketSize_ mic_streamer) 192 960
            (subFrameSize_ mic_streamer) (channelCount_ mic_streamer)) as Hrange
    by (unfold sizing_in_range, ceiling; vm_compute; intuition discriminate).
  assert (0 <= RingBuffer.capacity (ringBuffer_ mic_streamer) < 2 ^ 31) as Hcap
    by (vm_compute; split; [discriminate|reflexivity]).
  split; [split; [exact Hrange|exact Hcap]|].
  destruct (allocate_builds_pool stream_192_960 (fun i : nat => (i <? 3)%nat)
              mic_streamer) as [Hdef _].
  destruct (allocate_builds_pool stream_192_960 (fun i : nat => (i <? 3)%nat)
              (set_maxPacketSize 0 mic_streamer)) as [_ Hundef].
  split; [|apply Hundef; vm_compute; reflexivity].
  destruct (Hdef Hrange Hcap) as (z & s' & Hz & Hs' & Ht & _ & _ & Hrb & _).
  assert (Some z = Some {| bytes_per_burst := 768; num_packets := 4;
                           buffer_size := 768; num_transfers := 5;
                           ring_buffer_capacity := 1920 |}) as Hval
    by (rewrite <- Hz; vm_compute; reflexivity).
  injection Hval as ->.
  exists s'. split; [exact Hs'|]. split; [rewrite Ht; vm_compute; reflexivity|].
  split; [|exact Hrb].
  rewrite Ht. vm_compute. reflexivity.
Defined.

(** **** resolveAudioInterface *)

Lemma claim_endpoint_true usb i d ep s s' :
  claim_endpoint usb i d ep s = (true, s') ->
  endpointAddress_ s' = bEndpointAddress ep /\
  maxPacketSize_ s' = wMaxPacketSize ep /\
  claimedInterface_ s' = i /\
  claim_interface usb (bInterfaceNumber d) = LIBUSB_SUCCESS /\
  set_interface_alt_setting usb (bInterfaceNumber d) (bAlternateSetting d)
  = LIBUSB_SUCCESS /\
  config_ s' = config_ s /\ deviceHandle_ s' = deviceHandle_ s.
Proof.
  unfold claim_endpoint. intros H.
  repeat case_match; try done; injection H as <-; cbn;
    repeat match goal with
    | H : bool_decide _ = false |- _ => apply bool_decide_eq_false in H
    end;
    split_and!; try done;
    match goal with
    | H : ~ (?x <> ?y) |- ?x = ?y => by destruct (decide (x = y))
    end.
Qed.

Lemma resolve_endpoints_true usb i d eps s s' :
  resolve_endpoints usb i d eps s = Some (true, s') ->
  exists ep, ep ∈ eps /\
    Z.land (bEndpointAddress ep) LIBUSB_ENDPOINT_IN <> 0 /\
    claim_endpoint usb i d ep s = (true, s').
Proof.
  induction eps as [|ep eps IH]; cbn [resolve_endpoints]; [done|].
  destruct (Z.land (bEndpointAddress ep) LIBUSB_ENDPOINT_IN =? 0) eqn:E; cbn [negb].
  - intros H. destruct (IH H) as (ep' & Hin & Hrest).
    exists ep'. split; [by right|done].
  - intros [= H]. exists ep. split; [by left|]. split; [by apply Z.eqb_neq|done].
Qed.

Lemma resolve_altsettings_true usb i alts s s' :
  resolve_altsettings usb i alts s = Some (true, s') ->
  exists d ep, d ∈ alts /\ ep ∈ endpoint d /\
    bInterfaceClass d = LIBUSB_CLASS_AUDIO /\
    bInterfaceSubClass d = kInterfaceSubClassStreaming /\
    Z.land (bEndpointAddress ep) LIBUSB_ENDPOINT_IN <> 0 /\
    claim_endpoint usb i d ep s = (true, s').
Proof.
  induction alts as [|d alts IH]; cbn [resolve_altsettings]; [done|].
  assert (resolve_altsettings usb i alts s = Some (true, s') ->
          exists d0 ep, d0 ∈ d :: alts /\ ep ∈ endpoint d0 /\
            bInterfaceClass d0 = LIBUSB_CLASS_AUDIO /\
            bInterfaceSubClass d0 = kInterfaceSubClassStreaming /\
            Z.land (bEndpointAddress ep) LIBUSB_ENDPOINT_IN <> 0 /\
            claim_endpoint usb i d0 ep s = (true, s')) as Hrest.
  { intros H. destruct (IH H) as (d0 & ep & Hin & Hr).
    exists d0, ep. split; [by right|done]. }
  destruct (_ && _ && _) eqn:E; [|done].
  apply andb_prop in E as [E _]. apply andb_prop in E as [E1 E2].
  apply Z.eqb_eq in E1, E2.
  destruct (resolve_endpoints usb i d (endpoint d) s) as [r|] eqn:Er; [|done].
  intros [= ->]. destruct (resolve_endpoints_true _ _ _ _ _ _ Er) as (ep & Hin & Hr).
  exists d, ep. split; [by left|done].
Qed.

Lemma resolve_interfaces_true usb i ifs s s' :
  resolve_interfaces usb i ifs s = Some (true, s') ->
  exists (j : nat) itf d ep, ifs !! j = Some itf /\ d ∈ altsetting itf /\
    ep ∈ endpoint d /\
    bInterfaceClass d = LIBUSB_CLASS_AUDIO /\
    bInterfaceSubClass d = kInterfaceSubClassStreaming /\
    Z.land (bEndpointAddress ep) LIBUSB_ENDPOINT_IN <> 0 /\
    claim_endpoint usb (i + Z.of_nat j) d ep s = (true, s').
Proof.
  revert i. induction ifs as [|itf ifs IH]; intros i; cbn [resolve_interfaces]; [done|].
  destruct (resolve_altsettings usb i (altsetting itf) s) as [r|] eqn:Er.
  - intros [= ->].
    destruct (resolve_altsettings_true _ _ _ _ _ Er) as (d & ep & Hin & Hr).
    exists 0%nat, itf, d, ep. rewrite Z.add_0_r. split; [done|]. split; done.
  - intros H. destruct (IH _ H) as (j & itf' & d & ep & Hj & Hr).
    exists (S j), itf', d, ep. split; [done|].
    replace (i + Z.of_nat (S j)) with (i + 1 + Z.of_nat j) by lia. done.
Qed.

Lemma resolve_endpoints_none usb i d eps s :
  Forall (fun ep => Z.land (bEndpointAddress ep) LIBUSB_ENDPOINT_IN = 0) eps ->
  resolve_endpoints usb i d eps s = None.
Proof.
  induction 1 as [|ep eps Hep _ IH]; cbn [resolve_endpoints]; [done|].
  by rewrite Hep.
Qed.

Lemma resolve_interfaces_none usb i ifs s :
  (forall itf d ep, itf ∈ ifs -> d ∈ altsetting itf -> ep ∈ endpoint d ->
     bInterfaceClass d = LIBUSB_CLASS_AUDIO ->
     bInterfaceSubClass d = kInterfaceSubClassStreaming ->
     Z.land (bEndpointAddress ep) LIBUSB_ENDPOINT_IN = 0) ->
  resolve_interfaces usb i ifs s = None.
Proof.
  revert i. induction ifs as [|itf ifs IH]; intros i Hno; cbn [resolve_interfaces];
    [done|].
  assert (resolve_altsettings usb i (altsetting itf) s = None) as ->.
  { assert (forall d, d ∈ altsetting itf -> d ∈ altsetting itf) as Hsub by done.
    revert Hsub. generalize (altsetting itf) at 1 3.
    induction l as [|d alts IHa]; intros Hsub; cbn [resolve_altsettings]; [done|].
    destruct (_ && _ && _) eqn:E.
    - apply andb_prop in E as [E _]. apply andb_prop in E as [E1 E2].
      apply Z.eqb_eq in E1, E2.
      rewrite resolve_endpoints_none.
      + apply IHa. intros d' Hd'. apply Hsub. by right.
      + apply Forall_forall. intros ep Hep.
        apply (Hno itf d ep); [by left|apply Hsub; by left|done..].
    - apply IHa. intros d' Hd'. apply Hsub. by right. }
  apply IH. intros itf' d ep Hin. apply Hno. by right.
Qed.

Lemma resolve_endpoint_fields usb s config :
  config_ s = Some config ->
  (resolveAudioInterface usb s).1 = true ->
  exists (i : nat) d ep, streaming_in_endpoint config i d ep /\
    let s' := (resolveAudioInterface usb s).2 in
    endpointAddress_ s' = bEndpointAddress ep /\
    maxPacketSize_ s' = wMaxPacketSize ep /\
    claimedInterface_ s' = Z.of_nat i /\
    claim_interface usb (bInterfaceNumber d) = LIBUSB_SUCCESS /\
    deviceHandle_ s' = deviceHandle_ s /\ config_ s' = Some config.
Proof.
  intros Hcfg. unfold resolveAudioInterface. rewrite Hcfg.
  destruct (resolve_interfaces usb 0 (interface config) s) as [[b s']|] eqn:E;
    [|done].
  cbn [fst snd]. intros ->.
  destruct (resolve_interfaces_true _ _ _ _ _ E)
    as (j & itf & d & ep & Hj & Hd & Hep & Hc & Hsc & Hin & Hclaim).
  destruct (claim_endpoint_true _ _ _ _ _ _ Hclaim)
    as (H1 & H2 & H3 & H4 & H5 & H6 & H7).
  exists j, d, ep. split; [split; [by exists itf|done]|].
  split_and!; try done. congruence.
Qed.

(** [resolveAudioInterface] succeeds only on an IN endpoint of an audio
    streaming setting of the configuration: it records that endpoint's
    address and packet size and the position of its interface, and the
    interface was claimed and its alternate setting selected.  When the
    configuration has no such endpoint it returns [false] and leaves the
    object as it was. *)
Theorem resolve_finds_streaming_endpoint (usb : UsbEnv) s
    (config : libusb_config_descriptor) :
  config_ s = Some config ->
  ((resolveAudioInterface usb s).1 = true ->
   exists i d ep, streaming_in_endpoint config i d ep /\
     let s' := (resolveAudioInterface usb s).2 in
     endpointAddress_ s' = bEndpointAddress ep /\
     maxPacketSize_ s' = wMaxPacketSize ep /\
     claimedInterface_ s' = Z.of_nat i /\
     claim_interface usb (bInterfaceNumber d) = LIBUSB_SUCCESS /\
     set_interface_alt_setting usb (bInterfaceNumber d) (bAlternateSetting d)
     = LIBUSB_SUCCESS) /\
  ((forall i d ep, ~ streaming_in_endpoint config i d ep) ->
   resolveAudioInterface usb s = (false, s)).
Proof.
  intros Hcfg. unfold resolveAudioInterface. rewrite Hcfg. split.
  - destruct (resolve_interfaces usb 0 (interface config) s) as [[b s']|] eqn:E;
      [|done].
    cbn [fst snd]. intros ->.
    destruct (resolve_interfaces_true _ _ _ _ _ E)
      as (j & itf & d & ep & Hj & Hd & Hep & Hc & Hsc & Hin & Hclaim).
    destruct (claim_endpoint_true _ _ _ _ _ _ Hclaim) as (H1 & H2 & H3 & H4 & H5 & _).
    exists j, d, ep. split; [|by split_and!].
    split; [by exists itf|done].
  - intros Hno. rewrite resolve_interfaces_none; [done|].
    intros itf d ep Hitf Hd Hep Hc Hsc.
    apply list_elem_of_lookup in Hitf as [j Hj].
    destruct (decide (Z.land (bEndpointAddress ep) LIBUSB_ENDPOINT_IN = 0)) as [|Hin];
      [done|].
    exfalso. apply (Hno j d ep). split; [by exists itf|done].
Qed.

Lemma resolve_finds_streaming_endpoint_witness :
  let s := set_config (Some mic_config) (initial_members 1000 2 48000 2 2 192) in
  config_ s = Some mic_config /\
  (resolveAudioInterface usb_ok s).1 = true /\
  exists i d ep, streaming_in_endpoint mic_config i d ep /\
    let s' := (resolveAudioInterface usb_ok s).2 in
    endpointAddress_ s' = bEndpointAddress ep /\
    maxPacketSize_ s' = wMaxPacketSize ep /\
    claimedInterface_ s' = Z.of_nat i.
Proof.
  cbv zeta. split; [reflexivity|]. split; [reflexivity|].
  destruct (proj1 (resolve_finds_streaming_endpoint usb_ok
                     (set_config (Some mic_config)
                        (initial_members 1000 2 48000 2 2 192))
                     mic_config eq_refl) eq_refl)
    as (i & d & ep & Hs & H1 & H2 & H3 & _).
  exists i, d, ep. split; [exact Hs|]. split; [exact H1|]. split; [exact H2|exact H3].
Defined.

(** **** The constructor *)

(** A field that the four setters used by [claim_endpoint] leave alone is
    left alone by [resolveAudioInterface]. *)
Lemma resolve_preserves {A} (f : UsbAudioStreamer.t -> A) :
  (forall v s, f (set_endpointAddress v s) = f s) ->
  (forall v s, f (set_maxPacketSize v s) = f s) ->
  (forall v s, f (set_detachedInterface v s) = f s) ->
  (forall v s, f (set_claimedInterface v s) = f s) ->
  forall usb s, f (resolveAudioInterface usb s).2 = f s.
Proof.
  intros H1 H2 H3 H4 usb s.
  assert (forall i d ep, f (claim_endpoint usb i d ep s).2 = f s) as Hclaim.
  { intros i d ep. unfold claim_endpoint.
    repeat case_match; cbn [snd]; by rewrite ?H4, ?H3, ?H2, ?H1. }
  assert (forall i d eps r, resolve_endpoints usb i d eps s = Some r -> f r.2 = f s)
    as Heps.
  { intros i d eps r. induction eps as [|ep eps IH]; cbn [resolve_endpoints]; [done|].
    case_match; [|done]. intros [= <-]. apply Hclaim. }
  assert (forall i alts r, resolve_altsettings usb i alts s = Some r -> f r.2 = f s)
    as Halts.
  { intros i alts r. induction alts as [|d alts IH]; cbn [resolve_altsettings]; [done|].
    case_match; [|done].
    destruct (resolve_endpoints usb i d (endpoint d) s) eqn:E; [|done].
    intros [= <-]. by eapply Heps. }
  assert (forall i ifs r, resolve_interfaces usb i ifs s = Some r -> f r.2 = f s)
    as Hifs.
  { intros i ifs r. revert i.
    induction ifs as [|itf ifs IH]; intros i; cbn [resolve_interfaces]; [done|].
    destruct (resolve_altsettings usb i (altsetting itf) s) eqn:E; [|by apply IH].
    intros [= <-]. by eapply Halts. }
  unfold resolveAudioInterface. destruct (config_ s); [|done].
  destruct (resolve_interfaces usb 0 _ s) eqn:E; [|done]. by eapply Hifs.
Qed.

Lemma count_if_app {A} (p : A -> bool) l1 l2 :
  count_if p (l1 ++ l2) = count_if p l1 + count_if p l2.
Proof. unfold count_if. rewrite List.filter_app, length_app. lia. Qed.

(** A field that the four setters used by [allocateTransferRequests]
    leave alone is left alone by a call that returns. *)
Lemma allocate_preserves {A} (f : UsbAudioStreamer.t -> A) :
  (forall v s, f (set_framesPerBurst v s) = f s) ->
  (forall v s, f (set_bufferCapacityInFrames v s) = f s) ->
  (forall v s, f (set_ringBuffer v s) = f s) ->
  (forall v s, f (set_transfers v s) = f s) ->
  forall audio alloc s s',
    allocateTransferRequests audio alloc s = Some s' -> f s' = f s.
Proof.
  intros H1 H2 H3 H4 audio alloc s s'. unfold allocateTransferRequests.
  destruct (transfer_sizing _ _ _ _ _) as [z|]; [|done]. cbn [mbind option_bind].
  destruct (negb _); [destruct (_ <? 0); [done|]|]; cbn [mbind option_bind];
    intros [= <-]; by rewrite ?H4, ?H3, ?H2, ?H1.
Qed.

Lemma allocate_keeps_idle audio alloc s s' :
  allocateTransferRequests audio alloc s = Some s' ->
  hasActiveTransfers s = false -> hasActiveTransfers s' = false.
Proof.
  rewrite !hasActiveTransfers_false. intros Hs' Hidle.
  assert (exists n x, isSubmitted x = false /\
                      transfers_ s' = transfers_ s ++ replicate n x)
    as (n & x & Hx & ->).
  { revert Hs'. unfold allocateTransferRequests.
    destruct (transfer_sizing _ _ _ _ _) as [z|]; [|done].
    cbn [mbind option_bind].
    destruct (negb _); [destruct (_ <? 0); [done|]|]; cbn [mbind option_bind];
      intros [= <-]; cbn [transfers_ set_transfers]; rewrite allocate_loop_spec;
      do 2 eexists; (split; [|reflexivity]); done. }
  rewrite count_if_app, Hidle.
  assert (count_if isSubmitted (replicate n x) = 0) as ->; [|done].
  apply count_if_zero, Forall_replicate. done.
Qed.

(** A constructor that returns had [libusb_init] succeed: its context is
    valid, no slot is in flight and the cancellation flag is clear. *)
Lemma constructor_returns env a b c d e f s :
  UsbAudioStreamer env a b c d e f = Some s ->
  init_status env = LIBUSB_SUCCESS /\ context_ s = ContextValid /\
  hasActiveTransfers s = false /\ stopUsbAudioCapture_ s = 0.
Proof.
  unfold UsbAudioStreamer.
  destruct (decide (init_status env = LIBUSB_SUCCESS)) as [Hinit|Hinit];
    [|by rewrite bool_decide_eq_true_2].
  rewrite (bool_decide_eq_false_2 (init_status env <> _)) by (by intros []).
  repeat (case_match; try done; try (by intros [= <-])); subst;
    match goal with H : resolveAudioInterface ?u ?s0 = (_, ?s1) |- _ =>
      pose proof (resolveAudioInterface_keeps u s0) as [Ht _];
      pose proof (resolve_preserves stopUsbAudioCapture_
                    ltac:(done) ltac:(done) ltac:(done) ltac:(done) u s0) as Hf;
      pose proof (resolve_preserves context_
                    ltac:(done) ltac:(done) ltac:(done) ltac:(done) u s0) as Hc;
      rewrite H in Ht, Hf, Hc; cbn [snd] in Ht, Hf, Hc
    end.
  - destruct (allocateTransferRequests _ _ _) as [s2|] eqn:Ha; [|done].
    intros [= <-]. split; [done|].
    cbn [context_ stopUsbAudioCapture_ set_state].
    rewrite (allocate_preserves context_ ltac:(done) ltac:(done) ltac:(done)
               ltac:(done) _ _ _ _ Ha).
    rewrite (allocate_preserves stopUsbAudioCapture_ ltac:(done) ltac:(done)
               ltac:(done) ltac:(done) _ _ _ _ Ha).
    split; [by rewrite Hc|]. split; [|by rewrite Hf].
    change (hasActiveTransfers s2 = false).
    eapply allocate_keeps_idle; [done|].
    apply hasActiveTransfers_false. by rewrite Ht.
  - intros [= <-]. split; [done|].
    cbn [context_ stopUsbAudioCapture_ set_state].
    split; [by rewrite Hc|]. split; [|by rewrite Hf].
    apply hasActiveTransfers_false. cbn [transfers_ set_state]. by rewrite Ht.
Qed.

(** Whatever the environment answers, a constructor that returns ends in
    [INITIAL], [ERROR] or [READY_TO_START] with a valid context; the pool
    is empty unless the state is [READY_TO_START]; and in every case no
    slot is in flight, the cancellation flag is clear and [isPlaying] is
    false.  The constructor does not return when [libusb_init] fails (the
    context pointer it then uses was never written); it returns whenever
    [libusb_init] succeeds and a later step fails before the transfers are
    allocated. *)
Theorem constructor_outcome (env : CtorEnv)
    (jAudioFormat samplingFrequency subFrameSize channelCount jAudioPerfMode
     framesPerBurst : Z) :
  let constructed :=
    UsbAudioStreamer env jAudioFormat samplingFrequency subFrameSize
      channelCount jAudioPerfMode framesPerBurst in
  (forall s, constructed = Some s ->
     init_status env = LIBUSB_SUCCESS /\ context_ s = ContextValid /\
     (state_ s = READY_TO_START \/
      ((state_ s = INITIAL \/ state_ s = ERROR) /\ transfers_ s = [])) /\
     hasActiveTransfers s = false /\
     stopUsbAudioCapture_ s = 0 /\
     isPlaying s = false) /\
  (init_status env <> LIBUSB_SUCCESS -> constructed = None) /\
  (init_status env = LIBUSB_SUCCESS ->
   set_log_level_status env <> LIBUSB_SUCCESS \/
   wrap_sys_device_status env <> LIBUSB_SUCCESS \/
   get_active_config_status env <> LIBUSB_SUCCESS \/
   createStreamBuilder_result env <> AAUDIO_OK \/
   createStreamBuilder_non_null env = false ->
   exists s, constructed = Some s /\ state_ s <> READY_TO_START).
Proof.
  cbv zeta. split_and!.
  - intros s Hs. destruct (constructor_returns _ _ _ _ _ _ _ _ Hs)
      as (Hinit & Hctx & Hidle & Hflag).
    pose proof (constructor_pool _ _ _ _ _ _ _ _ Hs) as Hpool.
    split_and!; try done.
    unfold isPlaying. destruct Hpool as [->|[[->| ->] _]]; by apply bool_decide_eq_false_2.
  - intros Hinit. unfold UsbAudioStreamer. by rewrite bool_decide_eq_true_2.
  - intros Hinit Hfail. unfold UsbAudioStreamer.
    rewrite (bool_decide_eq_false_2 (init_status env <> _)) by (by intros []).
    destruct (decide (set_log_level_status env = LIBUSB_SUCCESS)) as [H1|H1];
      [|rewrite bool_decide_eq_true_2 by done; by eexists].
    rewrite (bool_decide_eq_false_2 (set_log_level_status env <> _))
      by (by intros []).
    destruct (decide (wrap_sys_device_status env = LIBUSB_SUCCESS)) as [H2|H2];
      [|rewrite bool_decide_eq_true_2 by done; by eexists].
    rewrite (bool_decide_eq_false_2 (wrap_sys_device_status env <> _))
      by (by intros []).
    destruct (decide (get_active_config_status env = LIBUSB_SUCCESS)) as [H3|H3];
      [|rewrite bool_decide_eq_true_2 by done; by eexists].
    rewrite (bool_decide_eq_false_2 (get_active_config_status env <> _))
      by (by intros []).
    destruct Hfail as [?|[?|[?|[H4|H5]]]]; try done.
    + rewrite (bool_decide_eq_false_2 (createStreamBuilder_result env = _))
        by done.
      by eexists.
    + cbn [audioStreamBuilder_ set_audioStreamBuilder]. rewrite H5, andb_false_r.
      by eexists.
Qed.

Lemma constructor_outcome_witness :
  (UsbAudioStreamer ctor_ok 2 48000 2 2 12 192 = Some mic_streamer /\
   state_ mic_streamer = READY_TO_START /\
   hasActiveTransfers mic_streamer = false) /\
  (init_status ctor_wrap_fails = LIBUSB_SUCCESS /\
   exists s, UsbAudioStreamer ctor_wrap_fails 2 48000 2 2 12 192 = Some s /\
             state_ s <> READY_TO_START).
Proof.
  assert (UsbAudioStreamer ctor_ok 2 48000 2 2 12 192 = Some mic_streamer) as Hok
    by (vm_compute; reflexivity).
  destruct (constructor_outcome ctor_ok 2 48000 2 2 12 192) as (Hret & _ & _).
  destruct (constructor_outcome ctor_wrap_fails 2 48000 2 2 12 192)
    as (_ & _ & Hearly).
  split.
  - pose proof (Hret mic_streamer Hok) as (_ & _ & _ & Hidle & _).
    split; [exact Hok|]. split; [vm_compute; reflexivity|exact Hidle].
  - split; [reflexivity|].
    assert (wrap_sys_device_status ctor_wrap_fails <> LIBUSB_SUCCESS) as Hwrap
      by discriminate.
    exact (Hearly eq_refl (or_intror (or_introl Hwrap))).
Defined.

(** The constructor ends in [READY_TO_START] only if setting the log level,
    wrapping the device, reading the configuration and creating the stream
    builder all succeeded and an audio streaming IN endpoint of the device's
    configuration was claimed; that endpoint's address and packet size are
    the ones the streamer uses. *)
Theorem constructor_ready_means_negotiated (env : CtorEnv)
    (jAudioFormat samplingFrequency subFrameSize channelCount jAudioPerfMode
     framesPerBurst : Z) s :
  UsbAudioStreamer env jAudioFormat samplingFrequency subFrameSize
    channelCount jAudioPerfMode framesPerBurst = Some s ->
  state_ s = READY_TO_START ->
  set_log_level_status env = LIBUSB_SUCCESS /\
  wrap_sys_device_status env = LIBUSB_SUCCESS /\
  get_active_config_status env = LIBUSB_SUCCESS /\
  createStreamBuilder_result env = AAUDIO_OK /\
  deviceHandle_ s = true /\ config_ s = Some (active_config env) /\
  exists i d ep, streaming_in_endpoint (active_config env) i d ep /\
    endpointAddress_ s = bEndpointAddress ep /\
    maxPacketSize_ s = wMaxPacketSize ep /\
    claimedInterface_ s = Z.of_nat i /\
    claim_interface (usb env) (bInterfaceNumber d) = LIBUSB_SUCCESS.
Proof.
  unfold UsbAudioStreamer.
  destruct (bool_decide (init_status env <> LIBUSB_SUCCESS)); [done|].
  destruct (decide (set_log_level_status env = LIBUSB_SUCCESS)) as [H1|H1];
    [|rewrite bool_decide_eq_true_2 by done; by intros [= <-]].
  rewrite (bool_decide_eq_false_2 (set_log_level_status env <> _)) by (by intros []).
  destruct (decide (wrap_sys_device_status env = LIBUSB_SUCCESS)) as [H2|H2];
    [|rewrite bool_decide_eq_true_2 by done; by intros [= <-]].
  rewrite (bool_decide_eq_false_2 (wrap_sys_device_status env <> _)) by (by intros []).
  destruct (decide (get_active_config_status env = LIBUSB_SUCCESS)) as [H3|H3];
    [|rewrite bool_decide_eq_true_2 by done; by intros [= <-]].
  rewrite (bool_decide_eq_false_2 (get_active_config_status env <> _))
    by (by intros []).
  destruct (decide (createStreamBuilder_result env = AAUDIO_OK)) as [H4|H4];
    [|rewrite (bool_decide_eq_false_2 (createStreamBuilder_result env = _)) by done;
      by intros [= <-]].
  rewrite (bool_decide_eq_true_2 (createStreamBuilder_result env = _)) by done.
  cbn [andb]. destruct (audioStreamBuilder_ _); [|by intros [= <-]].
  match goal with |- context [resolveAudioInterface ?u ?s0] =>
    assert (config_ s0 = Some (active_config env)) as Hcfg0 by reflexivity;
    assert (deviceHandle_ s0 = true) as Hdev0 by reflexivity;
    pose proof (resolve_endpoint_fields u s0 _ Hcfg0) as Hres;
    destruct (resolveAudioInterface u s0) as [resolved s1]
  end.
  cbn [fst snd] in Hres. destruct resolved; [|by intros [= <-]].
  destruct (allocateTransferRequests _ _ s1) as [s2|] eqn:Ha; [|done].
  cbn [mbind option_bind]. intros [= <-] _.
  destruct (Hres eq_refl) as (i & d & ep & Hs & He & Hm & Hc & Hcl & Hdev & Hcfg).
  cbn [deviceHandle_ config_ endpointAddress_ maxPacketSize_ claimedInterface_
       set_state].
  rewrite (allocate_preserves deviceHandle_ ltac:(done) ltac:(done) ltac:(done)
             ltac:(done) _ _ _ _ Ha).
  rewrite (allocate_preserves config_ ltac:(done) ltac:(done) ltac:(done)
             ltac:(done) _ _ _ _ Ha).
  rewrite (allocate_preserves endpointAddress_ ltac:(done) ltac:(done)
             ltac:(done) ltac:(done) _ _ _ _ Ha).
  rewrite (allocate_preserves maxPacketSize_ ltac:(done) ltac:(done) ltac:(done)
             ltac:(done) _ _ _ _ Ha).
  rewrite (allocate_preserves claimedInterface_ ltac:(done) ltac:(done)
             ltac:(done) ltac:(done) _ _ _ _ Ha).
  split_and!; try done; try congruence. exists i, d, ep. by split_and!.
Qed.

Lemma constructor_ready_means_negotiated_witness :
  (UsbAudioStreamer ctor_ok 2 48000 2 2 12 192 = Some mic_streamer /\
   state_ mic_streamer = READY_TO_START) /\
  exists i d ep, streaming_in_endpoint mic_config i d ep /\
    endpointAddress_ mic_streamer = bEndpointAddress ep /\
    maxPacketSize_ mic_streamer = wMaxPacketSize ep /\
    claimedInterface_ mic_streamer = Z.of_nat i.
Proof.
  assert (UsbAudioStreamer ctor_ok 2 48000 2 2 12 192 = Some mic_streamer) as Hok
    by (vm_compute; reflexivity).
  assert (state_ mic_streamer = READY_TO_START) as Hready
    by (vm_compute; reflexivity).
  split; [split; [exact Hok|exact Hready]|].
  pose proof (constructor_ready_means_negotiated ctor_ok 2 48000 2 2 12 192
                mic_streamer Hok Hready)
    as (_ & _ & _ & _ & _ & _ & i & d & ep & Hs & H1 & H2 & H3 & _).
  exists i, d, ep. split; [exact Hs|]. split; [exact H1|]. split; [exact H2|exact H3].
Defined.

(** **** Byte and frame counts *)

(** Turning a frame count into bytes and back gives the frame count, as
    long as the byte count fits [uint32_t]. *)
Theorem bytes_samples_round_trip s (numFrames : Z) :
  0 < channelCount_ s -> 0 < subFrameSize_ s -> 0 <= numFrames ->
  numFrames * channelCount_ s * subFrameSize_ s < 2 ^ 32 ->
  samplesFromByteCount s (bytesInAudioFrames s numFrames) = numFrames.
Proof.
  intros Hc Hs Hn Hfit. unfold samplesFromByteCount, bytesInAudioFrames.
  rewrite u32_small by nia.
  rewrite <- Z.mul_assoc, (Z.mul_comm (channelCount_ s)), Z.mul_assoc.
  rewrite Z.div_mul by lia. apply Z.div_mul. lia.
Qed.

Lemma bytes_samples_round_trip_witness :
  (0 < channelCount_ mic_streamer /\ 0 < subFrameSize_ mic_streamer) /\
  bytesInAudioFrames mic_streamer 192 = 768 /\
  samplesFromByteCount mic_streamer 768 = 192.
Proof.
  split; [split; reflexivity|]. split; [reflexivity|].
  exact (bytes_samples_round_trip mic_streamer 192 eq_refl eq_refl
           ltac:(discriminate) eq_refl).
Defined.

End ConstructionProperties.

Section TeardownProperties.
Import UsbAudioStreamer StreamerSpec RingBufferSpec.
Implicit Types s : UsbAudioStreamer.t.

Lemma precedes_app (a b : Release) pre post :
  b ∉ pre -> a ∉ post -> precedes a b (pre ++ post).
Proof.
  intros Hb Ha i j Hi Hj.
  destruct (decide (i < length pre)%nat) as [Hlt|Hge].
  - destruct (decide (j < length pre)%nat) as [Hjlt|Hjge]; [|lia].
    rewrite lookup_app_l in Hj by done.
    destruct Hb. apply list_elem_of_lookup. by exists j.
  - rewrite lookup_app_r in Hi by lia.
    destruct Ha. apply list_elem_of_lookup. by eexists.
Qed.

Lemma free_not_in_map (c : Release) (l : list TransferUserData) :
  (forall req, c <> FreeTransfer req) ->
  c ∉ map (fun d => FreeTransfer (transfer d)) l.
Proof.
  intros Hc Hin. apply list_elem_of_fmap in Hin as (d & Heq & _).
  by apply (Hc (transfer d)).
Qed.

Lemma freed_transfers_app l1 l2 :
  freed_transfers (l1 ++ l2) = freed_transfers l1 ++ freed_transfers l2.
Proof. apply omap_app. Qed.

Lemma freed_transfers_map (l : list TransferUserData) :
  freed_transfers (map (fun d => FreeTransfer (transfer d)) l) = map transfer l.
Proof. induction l as [|d l IH]; [done|]. cbn. by f_equal. Qed.

(** Settles that a call does not occur in a concatenation of call lists. *)
Ltac absent :=
  rewrite ?not_elem_of_app, ?not_elem_of_cons; split_and?;
  first [done | apply not_elem_of_nil].

(** The destructor's result, written over the object it is given. *)
Lemma destructor_calls clear_order s :
  context_ s = ContextValid ->
  exists s',
    destructor clear_order s
    = Some (s',
            (if audioStream_ s then [CloseAudioStream] else [])
            ++ (if deviceHandle_ s && negb (claimedInterface_ s =? -1)
                then [ReleaseInterface (claimedInterface_ s)] else [])
            ++ (if negb (detachedInterface_ s =? -1)
                then [AttachKernelDriver (detachedInterface_ s)] else [])
            ++ (if deviceHandle_ s then [CloseDevice] else [])
            ++ map (fun d => FreeTransfer (transfer d))
                   (clear_order (transfers_ s))
            ++ match config_ s with
               | Some _ => [FreeConfigDescriptor]
               | None => []
               end
            ++ [ExitContext] ++ [FreeRingBuffer]) /\
    state_ s' = DESTROYED /\ transfers_ s' = [] /\
    deviceHandle_ s' = false /\ audioStream_ s' = false.
Proof.
  intros Hctx. unfold destructor.
  destruct (audioStream_ s) eqn:Ha; cbn; destruct (deviceHandle_ s) eqn:Hd; cbn;
    rewrite Hctx; eexists; (split; [reflexivity|]); by cbn.
Qed.

(** **** The destructor *)

(** From any state of an object whose context was initialised, the
    destructor returns and leaves the object [DESTROYED] with an empty
    pool and no device handle or audio stream.  Every slot's transfer is
    freed exactly once, whether or not the slot is still submitted, in
    the order in which the library clears the pool; an open stream is
    closed first, the interface is released before the device is closed,
    the device is closed before any transfer is freed, the transfers are
    freed before the context is exited, and the ring buffer goes last.
    On an object whose context was never initialised the destructor
    reads the indeterminate pointer. *)
Theorem destructor_releases_everything
    (clear_order : list TransferUserData -> list TransferUserData) s :
  clears_each_once clear_order ->
  (context_ s = ContextValid ->
   exists s' calls,
     destructor clear_order s = Some (s', calls) /\
     state_ s' = DESTROYED /\ transfers_ s' = [] /\
     deviceHandle_ s' = false /\ audioStream_ s' = false /\
     freed_transfers calls ≡ₚ map transfer (transfers_ s) /\
     (audioStream_ s = true -> head calls = Some CloseAudioStream) /\
     (deviceHandle_ s = true -> CloseDevice ∈ calls) /\
     ExitContext ∈ calls /\
     (forall n, precedes (ReleaseInterface n) CloseDevice calls) /\
     (forall req, precedes CloseDevice (FreeTransfer req) calls) /\
     (forall req, precedes (FreeTransfer req) ExitContext calls) /\
     last calls = Some FreeRingBuffer) /\
  (context_ s = ContextIndeterminate -> destructor clear_order s = None).
Proof.
  intros Hclear. split.
  - intros Hctx.
    destruct (destructor_calls clear_order s Hctx)
      as (s' & Hcalls & H1 & H2 & H3 & H4).
    eexists s', _. split; [exact Hcalls|].
    pose proof (free_not_in_map CloseDevice (clear_order (transfers_ s))
                  ltac:(done)) as Hfree.
    pose proof (free_not_in_map ExitContext (clear_order (transfers_ s))
                  ltac:(done)) as Hfree'.
    split_and!; try done.
    + rewrite !freed_transfers_app, freed_transfers_map.
      assert (freed_transfers
                (if audioStream_ s then [CloseAudioStream] else []) = []) as ->
        by (by destruct (audioStream_ s)).
      assert (forall b n, freed_transfers
                (if b : bool then [ReleaseInterface n] else []) = []) as ->
        by (by intros []).
      assert (forall b n, freed_transfers
                (if b : bool then [AttachKernelDriver n] else []) = []) as ->
        by (by intros []).
      assert (freed_transfers (if deviceHandle_ s then [CloseDevice] else []) = [])
        as -> by (by destruct (deviceHandle_ s)).
      assert (freed_transfers
                match config_ s with
                | Some _ => [FreeConfigDescriptor]
                | None => []
                end = []) as -> by (by destruct (config_ s)).
      cbn. rewrite app_nil_r. apply Permutation_map, Hclear.
    + by intros ->.
    + intros ->. rewrite !elem_of_app. do 3 right. left. constructor.
    + rewrite !elem_of_app. do 6 right. left. constructor.
    + intros n. rewrite 2!(assoc_L (++)).
      apply precedes_app.
      * destruct (audioStream_ s), (deviceHandle_ s && _), (negb _); absent.
      * pose proof (free_not_in_map (ReleaseInterface n)
                      (clear_order (transfers_ s)) ltac:(done)).
        destruct (deviceHandle_ s), (config_ s); absent.
    + intros req. rewrite 3!(assoc_L (++)).
      apply precedes_app.
      * destruct (audioStream_ s), (deviceHandle_ s && _), (negb _),
          (deviceHandle_ s); absent.
      * destruct (config_ s); absent.
    + intros req. rewrite 5!(assoc_L (++)).
      apply precedes_app.
      * destruct (audioStream_ s), (deviceHandle_ s && _), (negb _),
          (deviceHandle_ s), (config_ s); absent.
      * absent.
    + rewrite !(assoc_L (++)). apply last_snoc.
  - intros Hctx. unfold destructor.
    destruct (audioStream_ s); cbn; destruct (deviceHandle_ s); cbn;
      by rewrite Hctx.
Qed.

Lemma destructor_releases_everything_witness :
  (clears_each_once reverse /\ context_ started_streamer = ContextValid /\
   audioStream_ started_streamer = true /\ deviceHandle_ started_streamer = true /\
   hasActiveTransfers started_streamer = true) /\
  exists s' calls,
    destructor reverse started_streamer = Some (s', calls) /\
    state_ s' = DESTROYED /\ transfers_ s' = [] /\
    head calls = Some CloseAudioStream /\ CloseDevice ∈ calls /\
    freed_transfers calls ≡ₚ map transfer (transfers_ started_streamer) /\
    last calls = Some FreeRingBuffer.
Proof.
  assert (clears_each_once reverse) as Hclear
    by (intros l; apply reverse_Permutation).
  assert (context_ started_streamer = ContextValid) as Hctx
    by (vm_compute; reflexivity).
  split; [split; [exact Hclear|split; [exact Hctx|]]; repeat split;
          vm_compute; reflexivity|].
  destruct (destructor_releases_everything reverse started_streamer Hclear)
    as [Hdef _].
  destruct (Hdef Hctx)
    as (s' & calls & Hd & Hs & Ht & _ & _ & Hf & Hhead & Hclose & _ & _ & _ & _
        & Hlast).
  exists s', calls. split; [exact Hd|]. split; [exact Hs|]. split; [exact Ht|].
  split; [apply Hhead; vm_compute; reflexivity|].
  split; [apply Hclose; vm_compute; reflexivity|]. split; [exact Hf|exact Hlast].
Defined.

(** **** The audio entry points of the native library *)

(** Whenever connecting returns, it reports success, whatever state the
    constructor ended in, and leaves a streamer in place: the existing one,
    kept as it is, or else the one just constructed.  A second connect,
    with any arguments, then returns [true] and changes nothing.
    Connecting does not return exactly when no streamer exists and the
    constructor does not return. *)
Theorem connect_reports_success (env env' : CtorEnv)
    (streamer_ : option UsbAudioStreamer.t)
    (jAudioFormat samplingFrequency subFrameSize channelCount jAudioPerfMode
     outputFramesPerBuffer : Z)
    (jAudioFormat' samplingFrequency' subFrameSize' channelCount' jAudioPerfMode'
     outputFramesPerBuffer' : Z) :
  let constructed :=
    UsbAudioStreamer env (u32 jAudioFormat) (u32 samplingFrequency)
      (u8 subFrameSize) (u8 channelCount) (u32 jAudioPerfMode)
      (u32 outputFramesPerBuffer) in
  let result :=
    UsbVideoNativeLibrary.connectUsbAudioStreamingNative env streamer_
      jAudioFormat samplingFrequency subFrameSize channelCount jAudioPerfMode
      outputFramesPerBuffer in
  (forall ok connected, result = Some (ok, connected) ->
     ok = true /\ is_Some connected /\
     (is_Some streamer_ -> connected = streamer_) /\
     (streamer_ = None -> connected = constructed) /\
     UsbVideoNativeLibrary.connectUsbAudioStreamingNative env' connected
       jAudioFormat' samplingFrequency' subFrameSize' channelCount'
       jAudioPerfMode' outputFramesPerBuffer' = Some (true, connected)) /\
  (is_Some streamer_ -> result = Some (true, streamer_)) /\
  (result = None <-> streamer_ = None /\ constructed = None).
Proof.
  cbv zeta. unfold UsbVideoNativeLibrary.connectUsbAudioStreamingNative.
  destruct streamer_ as [s|].
  - split_and!.
    + intros ok connected [= <- <-].
      split_and!; first [done | by eexists].
    + done.
    + split; [done|]. by intros [? _].
  - destruct (UsbAudioStreamer env _ _ _ _ _ _) as [s|]; cbn [mbind option_bind].
    + split_and!.
      * intros ok connected [= <- <-].
        split_and!; first [done | by eexists | by intros []].
      * by intros [].
      * split; [done|]. by intros [_ ?].
    + split_and!; first [done | by intros []].
Qed.

Lemma connect_reports_success_witness :
  UsbVideoNativeLibrary.connectUsbAudioStreamingNative ctor_wrap_fails None
    2 48000 2 2 12 192
  = Some (true, UsbAudioStreamer ctor_wrap_fails 2 48000 2 2 12 192) /\
  state_ <$> UsbAudioStreamer ctor_wrap_fails 2 48000 2 2 12 192 = Some INITIAL /\
  UsbVideoNativeLibrary.connectUsbAudioStreamingNative ctor_ok
    (UsbAudioStreamer ctor_wrap_fails 2 48000 2 2 12 192) 2 44100 2 1 12 96
  = Some (true, UsbAudioStreamer ctor_wrap_fails 2 48000 2 2 12 192).
Proof.
  assert (UsbVideoNativeLibrary.connectUsbAudioStreamingNative ctor_wrap_fails
            None 2 48000 2 2 12 192
          = Some (true, UsbAudioStreamer ctor_wrap_fails 2 48000 2 2 12 192))
    as Hfirst by (vm_compute; reflexivity).
  destruct (connect_reports_success ctor_wrap_fails ctor_ok None
              2 48000 2 2 12 192 2 44100 2 1 12 96) as (Hret & _ & _).
  destruct (Hret _ _ Hfirst) as (_ & _ & _ & _ & Hsecond).
  split; [exact Hfirst|]. split; [vm_compute; reflexivity|exact Hsecond].
Defined.

(** When [libusb_init] succeeds but the log level cannot be set or the
    device cannot be wrapped, a first connect still reports success, but
    the streamer it leaves is in state [INITIAL] without a device: the
    device speed is unknown, starting does nothing, and disconnecting
    gives back only the context and the ring buffer. *)
Theorem connect_without_device (env : CtorEnv) (start_env : StartEnv)
    (device_speed : option Z)
    (clear_order : list TransferUserData -> list TransferUserData)
    (jAudioFormat samplingFrequency subFrameSize channelCount jAudioPerfMode
     outputFramesPerBuffer : Z) :
  clears_each_once clear_order ->
  init_status env = LIBUSB_SUCCESS ->
  set_log_level_status env <> LIBUSB_SUCCESS \/
  wrap_sys_device_status env <> LIBUSB_SUCCESS ->
  exists s,
    UsbVideoNativeLibrary.connectUsbAudioStreamingNative env None
      jAudioFormat samplingFrequency subFrameSize channelCount jAudioPerfMode
      outputFramesPerBuffer = Some (true, Some s) /\
    state_ s = INITIAL /\ deviceHandle_ s = false /\ transfers_ s = [] /\
    UsbVideoNativeLibrary.getUsbDeviceSpeed device_speed (Some s)
    = LIBUSB_SPEED_UNKNOWN /\
    UsbVideoNativeLibrary.startUsbAudioStreamingNative start_env (Some s)
    = (Some s, []) /\
    UsbVideoNativeLibrary.disconnectUsbAudioStreamingNative clear_order (Some s)
    = Some (None, [ExitContext; FreeRingBuffer]).
Proof.
  intros Hclear Hinit Hfail.
  unfold UsbVideoNativeLibrary.connectUsbAudioStreamingNative.
  assert (UsbAudioStreamer env (u32 jAudioFormat) (u32 samplingFrequency)
            (u8 subFrameSize) (u8 channelCount) (u32 jAudioPerfMode)
            (u32 outputFramesPerBuffer)
          = Some (set_context ContextValid
                    (initial_members (clock_now env) (u32 jAudioFormat)
                       (u32 samplingFrequency) (u8 subFrameSize)
                       (u8 channelCount) (u32 outputFramesPerBuffer)))) as ->.
  { unfold UsbAudioStreamer.
    rewrite (bool_decide_eq_false_2 (init_status env <> _)) by (by intros []).
    destruct (decide (set_log_level_status env = LIBUSB_SUCCESS)) as [H1|H1];
      [|by rewrite bool_decide_eq_true_2].
    rewrite (bool_decide_eq_false_2 (set_log_level_status env <> _))
      by (by intros []).
    destruct Hfail as [H|H]; [done|]. by rewrite bool_decide_eq_true_2. }
  cbn [mbind option_bind]. eexists. split; [done|].
  split_and!; [done|done|done|done|done|].
  unfold UsbVideoNativeLibrary.disconnectUsbAudioStreamingNative, destructor.
  cbn. assert (clear_order [] = []) as ->; [|done].
  apply Permutation_nil_r, Hclear.
Qed.

Lemma connect_without_device_witness :
  (clears_each_once reverse /\ init_status ctor_wrap_fails = LIBUSB_SUCCESS /\
   (set_log_level_status ctor_wrap_fails <> LIBUSB_SUCCESS \/
    wrap_sys_device_status ctor_wrap_fails <> LIBUSB_SUCCESS)) /\
  exists s,
    UsbVideoNativeLibrary.connectUsbAudioStreamingNative ctor_wrap_fails None
      2 48000 2 2 12 192 = Some (true, Some s) /\
    UsbVideoNativeLibrary.getUsbDeviceSpeed (Some 3) (Some s) = 0 /\
    UsbVideoNativeLibrary.startUsbAudioStreamingNative start_ok (Some s)
    = (Some s, []) /\
    UsbVideoNativeLibrary.disconnectUsbAudioStreamingNative reverse (Some s)
    = Some (None, [ExitContext; FreeRingBuffer]).
Proof.
  assert (clears_each_once reverse) as Hclear
    by (intros l; apply reverse_Permutation).
  assert (set_log_level_status ctor_wrap_fails <> LIBUSB_SUCCESS \/
          wrap_sys_device_status ctor_wrap_fails <> LIBUSB_SUCCESS) as Hfail
    by (right; discriminate).
  split; [split; [exact Hclear|split; [reflexivity|exact Hfail]]|].
  destruct (connect_without_device ctor_wrap_fails start_ok (Some 3) reverse
              2 48000 2 2 12 192 Hclear eq_refl Hfail)
    as (s & Hconn & _ & _ & _ & Hspeed & Hstart & Hdis).
  exists s. split; [exact Hconn|]. split; [exact Hspeed|].
  split; [exact Hstart|exact Hdis].
Defined.

End TeardownProperties.
